(** * DragonNetworkTester: a shallow embedding of [DragonNetworkTester.py]

    The development follows the source file top-down:

    - [Py]: the few Python primitives the program relies on (exceptions,
      true division, [os.urandom], [statistics.mean]);
    - [NetworkStats] and its two derived properties;
    - the constructor [__init__] with [validate_input], [_setup_sockets]
      and [_check_target_availability];
    - [_generate_packet] and the body of the worker loop [_send_packets];
    - an interleaving machine for the [with threading.Lock():] blocks, at
      the granularity of attribute loads and stores;
    - the main thread: [start], [_display_final_report], [_cleanup], [main].

    Conventions.  Python [int] is [Z].  Python [float] is modelled by the
    exact rationals [Q]: rounding is not modelled, so every equation on a
    float below is an equation of the real-number value of the expression
    the source evaluates.  [bytes] is [list Byte.byte]. *)

From Stdlib Require Import QArith.
From stdpp Require Import base list numbers strings.
From Stdlib Require Import Lia.

Close Scope Q_scope.
Local Open Scope Z_scope.

(* ===================================================================== *)
(** ** Python primitives *)
(* ===================================================================== *)

Module Py.

(** Subclasses of [Exception] that the program can meet. *)
Inductive exception : Type :=
| ValueError (msg : string)
| OSError (msg : string)
| ZeroDivisionError (msg : string)
| StatisticsError (msg : string)
| IndexError (msg : string).

(** [BaseException]: what [except Exception] catches, and what it lets
    through. *)
Inductive base_exception : Type :=
| Exception (e : exception)
| KeyboardInterrupt
| SystemExit (code : Z).

(** The result of evaluating an expression that may raise. *)
Inductive result (A : Type) : Type :=
| Ok (a : A)
| Raise (e : exception).
Arguments Ok {A} a.
Arguments Raise {A} e.

#[global] Instance result_ret : MRet result := fun A a => Ok a.

#[global] Instance result_bind : MBind result := fun A B k r =>
  match r with
  | Ok a => k a
  | Raise e => Raise e
  end.

#[global] Instance result_fmap : FMap result := fun A B f r =>
  match r with
  | Ok a => Ok (f a)
  | Raise e => Raise e
  end.

(** [a / b] on two ints: the quotient as a float, [ZeroDivisionError] on
    a zero divisor. *)
Definition int_truediv (a b : Z) : result Q :=
  if b =? 0 then Raise (ZeroDivisionError "division by zero")
  else Ok (inject_Z a / inject_Z b)%Q.

(** [a / b] where one of the two is a float. *)
Definition float_truediv (a b : Q) : result Q :=
  if Qeq_bool b 0 then Raise (ZeroDivisionError "float division by zero")
  else Ok (a / b)%Q.

(** [str(e)] *)
Definition str (e : exception) : string :=
  match e with
  | ValueError msg | OSError msg | ZeroDivisionError msg
  | StatisticsError msg | IndexError msg => msg
  end.

(** [sum] of a list of numbers. *)
Definition sum (data : list Q) : Q := foldr Qplus 0%Q data.

(** [statistics.mean]: the exact sum divided by the number of points,
    [StatisticsError] on an empty sample. *)
Definition statistics_mean (data : list Q) : result Q :=
  let n := length data in
  if (n <? 1)%nat
  then Raise (StatisticsError "mean requires at least one data point")
  else Ok (sum data / inject_Z (Z.of_nat n))%Q.

(** A source of random bytes: the [i]-th byte drawn. *)
Definition random_source : Type := nat -> Byte.byte.

(** [k] bytes drawn from position [pos] on. *)
Definition draw (rnd : random_source) (pos k : nat) : list Byte.byte :=
  map rnd (seq pos k).

(** [random._urandom(n)], that is [os.urandom(n)]: [n] random bytes,
    [ValueError] on a negative [n]. *)
Definition _urandom (rnd : random_source) (pos : nat) (n : Z)
  : result (list Byte.byte) :=
  if n <? 0 then Raise (ValueError "negative argument not allowed")
  else Ok (draw rnd pos (Z.to_nat n)).

(** [len(x)] as a Python int. *)
Definition len {A} (l : list A) : Z := Z.of_nat (length l).

End Py.
Import Py.

(* ===================================================================== *)
(** ** [NetworkStats] *)
(* ===================================================================== *)

Record NetworkStats : Type := mkNetworkStats {
  packets_sent : Z;
  bytes_sent : Z;
  failed_attempts : Z;
  successful_attempts : Z;
  start_time : Q;
  response_times : list Q;
  packet_sizes : list Z
}.

(** The dataclass defaults followed by [__post_init__], which is run at
    time [now]. *)
Definition __post_init__ (now : Q) : NetworkStats :=
  {| packets_sent := 0;
     bytes_sent := 0;
     failed_attempts := 0;
     successful_attempts := 0;
     start_time := now;
     response_times := [];
     packet_sizes := [] |}.

(** [NetworkStats.success_rate] *)
Definition success_rate (self : NetworkStats) : Q :=
  let total := packets_sent self + failed_attempts self in
  if total >? 0
  then (inject_Z (packets_sent self) / inject_Z total * 100)%Q
  else 0%Q.

(** [NetworkStats.average_response] *)
Definition average_response (self : NetworkStats) : result Q :=
  match response_times self with
  | [] => Ok 0%Q
  | _ :: _ => statistics_mean (response_times self)
  end.

(** The specification's wording of the two derived metrics, to compare
    with the source's. *)
Module Spec.

(** "[sent / (sent + failed) * 100], defined as 0 when both are zero" *)
Definition success_rate (sent failed : Z) : Q :=
  if sent + failed =? 0 then 0%Q
  else (inject_Z sent / inject_Z (sent + failed) * 100)%Q.

(** "[mean(response_time samples)], defined as 0 when the sequence is
    empty" *)
Definition average_response (samples : list Q) : Q :=
  match samples with
  | [] => 0%Q
  | _ => (Py.sum samples / inject_Z (Z.of_nat (length samples)))%Q
  end.

End Spec.

(* ===================================================================== *)
(** ** The tester object and packet generation *)
(* ===================================================================== *)

(** A UDP socket handle, named by its allocation index. *)
Definition socket : Type := nat.

(** The attributes of [DragonNetworkTester] that are set once by the
    constructor.  The mutable objects the attributes [stats] and
    [stop_event] point to live in the state of the machines below. *)
Record DragonNetworkTester : Type := mkTester {
  target : string * Z;
  duration : Z;
  thread_count : Z;
  packet_size : Z;
  buffer_size : Z;
  verbose : bool;
  sockets : list socket
}.

(** The length of the header [_generate_packet] draws. *)
Definition HEADER_LENGTH : Z := 24.

(** [DragonNetworkTester._generate_packet]: 24 calls of
    [random.randint(0, 255)], then [random._urandom(packet_size - 24)]. *)
Definition _generate_packet (self : DragonNetworkTester) (rnd : random_source)
  : result (list Byte.byte) :=
  let header := draw rnd 0 24 in
  payload ← _urandom rnd 24 (packet_size self - 24);
  mret (header ++ payload).

(* ===================================================================== *)
(** ** The worker loop [_send_packets] *)
(* ===================================================================== *)

(** What one pass through the loop of [_send_packets] observes of the
    world outside the worker. *)
Record iter_env : Type := mkIterEnv {
  stop_is_set : bool;                 (* [self.stop_event.is_set()] *)
  rnd : random_source;                (* the random bytes of this pass *)
  time_before : Q;                    (* [time.time()] before [sendto] *)
  time_after : Q;                     (* [time.time()] after [sendto] *)
  sendto_error : option exception;    (* [None]: [sendto] returned *)
  cpu_percent : Q                     (* [self.system_resources.cpu_percent] *)
}.

(** What a worker does that is visible outside [self.stats]. *)
Inductive wevent : Type :=
| EvSendTo (sock : socket) (packet : list Byte.byte) (dest : string * Z)
           (accepted : bool)
| EvLogError (socket_id : nat) (e : exception)
| EvSleep (seconds : Q).

(** The atomic actions of a worker.  An augmented assignment to an
    attribute, [self.stats.x += v], is a load of the attribute followed by
    a store of the sum: two actions, between which another thread may run.
    [with threading.Lock():] is the construction of a lock object, its
    [acquire] on entry and its [release] on exit. *)
Inductive instr : Type :=
| SendTo (sock : socket) (packet : list Byte.byte) (dest : string * Z)
         (accepted : bool)
| NewLock
| Acquire
| Release
| LoadPacketsSent
| StorePacketsSent
| LoadBytesSent
| StoreBytesSent (n : Z)
| AppendResponseTime (rt : Q)
| AppendPacketSize (n : Z)
| LoadFailedAttempts
| StoreFailedAttempts
| Throttle (cpu : Q)
| LogError (socket_id : nat) (e : exception)
| Sleep (seconds : Q).

(** Lines 215-219: the block run after [sendto] has returned. *)
Definition success_block (packet : list Byte.byte) (response_time : Q)
  : list instr :=
  [ NewLock; Acquire;
    LoadPacketsSent; StorePacketsSent;
    LoadBytesSent; StoreBytesSent (len packet);
    AppendResponseTime response_time;
    AppendPacketSize (len packet);
    Release ].

(** Lines 227-232: the handler [except Exception as e]. *)
Definition except_handler (self : DragonNetworkTester) (socket_id : nat)
    (e : exception) : list instr :=
  [ NewLock; Acquire; LoadFailedAttempts; StoreFailedAttempts; Release ]
  ++ (if verbose self then [LogError socket_id e] else [])
  ++ [ Sleep (1 # 10) ].

(** The body of the [while] loop, lines 208-232, for one pass: the
    actions it performs under the observations [env]. *)
Definition loop_body (self : DragonNetworkTester) (sock : socket)
    (socket_id : nat) (env : iter_env) : list instr :=
  match _generate_packet self (rnd env) with
  | Raise e => except_handler self socket_id e
  | Ok packet =>
      match sendto_error env with
      | Some e =>
          SendTo sock packet (target self) false
          :: except_handler self socket_id e
      | None =>
          let response_time := (time_after env - time_before env)%Q in
          SendTo sock packet (target self) true
          :: success_block packet response_time
          ++ [ Throttle (cpu_percent env) ]
      end
  end.

(** The objects shared by all threads: [self.stats], the lock objects
    constructed so far ([true]: held), and the outside-visible events. *)
Record shared : Type := mkShared {
  stats : NetworkStats;
  locks : list bool;
  events : list wevent
}.

(** A worker's own registers: the value last loaded, and the lock object
    of the [with] statement it is in. *)
Record regs : Type := mkRegs {
  loaded : Z;
  lock : option nat
}.

Definition set_packets_sent (v : Z) (s : NetworkStats) : NetworkStats :=
  mkNetworkStats v (bytes_sent s) (failed_attempts s) (successful_attempts s)
                 (start_time s) (response_times s) (packet_sizes s).
Definition set_bytes_sent (v : Z) (s : NetworkStats) : NetworkStats :=
  mkNetworkStats (packets_sent s) v (failed_attempts s) (successful_attempts s)
                 (start_time s) (response_times s) (packet_sizes s).
Definition set_failed_attempts (v : Z) (s : NetworkStats) : NetworkStats :=
  mkNetworkStats (packets_sent s) (bytes_sent s) v (successful_attempts s)
                 (start_time s) (response_times s) (packet_sizes s).
Definition append_response_time (rt : Q) (s : NetworkStats) : NetworkStats :=
  mkNetworkStats (packets_sent s) (bytes_sent s) (failed_attempts s)
                 (successful_attempts s) (start_time s)
                 (response_times s ++ [rt]) (packet_sizes s).
Definition append_packet_size (n : Z) (s : NetworkStats) : NetworkStats :=
  mkNetworkStats (packets_sent s) (bytes_sent s) (failed_attempts s)
                 (successful_attempts s) (start_time s)
                 (response_times s) (packet_sizes s ++ [n]).

Definition with_stats (f : NetworkStats -> NetworkStats) (sh : shared)
  : shared :=
  mkShared (f (stats sh)) (locks sh) (events sh).
Definition emit (ev : wevent) (sh : shared) : shared :=
  mkShared (stats sh) (locks sh) (events sh ++ [ev]).

(** Lines 222-225: the adaptive rate limiting. *)
Definition throttle (cpu : Q) (sh : shared) : shared :=
  if negb (Qle_bool cpu 90) then emit (EvSleep (1 # 100)) sh
  else if packets_sent (stats sh) mod 1000 =? 0
       then emit (EvSleep (1 # 1000)) sh
       else sh.

(** One atomic action.  [None]: the thread cannot move, which only
    [Acquire] on a held lock does. *)
Definition exec_instr (i : instr) (r : regs) (sh : shared)
  : option (regs * shared) :=
  match i with
  | SendTo sock packet dest accepted =>
      Some (r, emit (EvSendTo sock packet dest accepted) sh)
  | NewLock =>
      Some (mkRegs (loaded r) (Some (length (locks sh))),
            mkShared (stats sh) (locks sh ++ [false]) (events sh))
  | Acquire =>
      match lock r with
      | Some l =>
          match locks sh !! l with
          | Some false =>
              Some (r, mkShared (stats sh) (<[l:=true]> (locks sh)) (events sh))
          | _ => None
          end
      | None => None
      end
  | Release =>
      match lock r with
      | Some l =>
          Some (mkRegs (loaded r) None,
                mkShared (stats sh) (<[l:=false]> (locks sh)) (events sh))
      | None => None
      end
  | LoadPacketsSent => Some (mkRegs (packets_sent (stats sh)) (lock r), sh)
  | StorePacketsSent =>
      Some (r, with_stats (set_packets_sent (loaded r + 1)) sh)
  | LoadBytesSent => Some (mkRegs (bytes_sent (stats sh)) (lock r), sh)
  | StoreBytesSent n =>
      Some (r, with_stats (set_bytes_sent (loaded r + n)) sh)
  | AppendResponseTime rt => Some (r, with_stats (append_response_time rt) sh)
  | AppendPacketSize n => Some (r, with_stats (append_packet_size n) sh)
  | LoadFailedAttempts => Some (mkRegs (failed_attempts (stats sh)) (lock r), sh)
  | StoreFailedAttempts =>
      Some (r, with_stats (set_failed_attempts (loaded r + 1)) sh)
  | Throttle cpu => Some (r, throttle cpu sh)
  | LogError socket_id e => Some (r, emit (EvLogError socket_id e) sh)
  | Sleep seconds => Some (r, emit (EvSleep seconds) sh)
  end.

(** A list of actions run by one thread with no other thread in between. *)
Fixpoint exec_code (code : list instr) (r : regs) (sh : shared)
  : option (regs * shared) :=
  match code with
  | [] => Some (r, sh)
  | i :: code' =>
      match exec_instr i r sh with
      | Some (r', sh') => exec_code code' r' sh'
      | None => None
      end
  end.

(** Where a worker is: in the loop, returned from [_send_packets] after
    it saw the stop signal, or ended by an exception raised outside the
    [try]. *)
Inductive status : Type :=
| Running
| Stopped
| Died (e : exception).

Definition fresh_regs : regs := mkRegs 0 None.

(** [_send_packets] run by one worker with no other thread in between:
    the passes through the loop, one per observation in [todo].  When
    [todo] is used up the worker is still [Running]. *)
Fixpoint while_not_stopped (self : DragonNetworkTester) (sock : socket)
    (socket_id : nat) (todo : list iter_env) (r : regs) (sh : shared)
  : status * shared :=
  match todo with
  | [] => (Running, sh)
  | env :: todo' =>
      if stop_is_set env then (Stopped, sh)
      else match exec_code (loop_body self sock socket_id env) r sh with
           | Some (r', sh') =>
               while_not_stopped self sock socket_id todo' r' sh'
           | None => (Running, sh)
           end
  end.

(** [DragonNetworkTester._send_packets], sequentially. *)
Definition _send_packets (self : DragonNetworkTester) (socket_id : nat)
    (todo : list iter_env) (sh : shared) : status * shared :=
  match sockets self !! socket_id with
  | None => (Died (IndexError "list index out of range"), sh)
  | Some sock => while_not_stopped self sock socket_id todo fresh_regs sh
  end.

(** *** Interleaved workers *)

(** A worker thread of the pool: the observations it has still to make,
    the actions left of the pass it is in, its registers. *)
Record thread : Type := mkThread {
  t_socket_id : nat;
  t_sock : socket;
  t_status : status;
  t_todo : list iter_env;
  t_code : list instr;
  t_regs : regs
}.

(** [executor.submit(self._send_packets, i)]: line 205 of the worker. *)
Definition spawn (self : DragonNetworkTester) (socket_id : nat)
    (todo : list iter_env) : thread :=
  match sockets self !! socket_id with
  | None =>
      mkThread socket_id 0%nat (Died (IndexError "list index out of range"))
               todo [] fresh_regs
  | Some sock => mkThread socket_id sock Running todo [] fresh_regs
  end.

(** One atomic action of a thread: the next action of the pass it is in,
    or, between two passes, the test of the stop signal. *)
Definition thread_step (self : DragonNetworkTester) (t : thread) (sh : shared)
  : option (thread * shared) :=
  match t_status t with
  | Running =>
      match t_code t with
      | i :: code' =>
          match exec_instr i (t_regs t) sh with
          | Some (r', sh') =>
              Some (mkThread (t_socket_id t) (t_sock t) Running (t_todo t)
                             code' r', sh')
          | None => None
          end
      | [] =>
          match t_todo t with
          | [] => None
          | env :: todo' =>
              if stop_is_set env
              then Some (mkThread (t_socket_id t) (t_sock t) Stopped todo'
                                  [] (t_regs t), sh)
              else Some (mkThread (t_socket_id t) (t_sock t) Running todo'
                                  (loop_body self (t_sock t) (t_socket_id t) env)
                                  (t_regs t), sh)
          end
      end
  | _ => None
  end.

Record machine : Type := mkMachine {
  threads : list thread;
  mem : shared
}.

(** The thread [tid] makes one step; a thread that cannot move, or is
    not there, leaves the machine as it is. *)
Definition step (self : DragonNetworkTester) (tid : nat) (m : machine)
  : machine :=
  match threads m !! tid with
  | Some t =>
      match thread_step self t (mem m) with
      | Some (t', sh') => mkMachine (<[tid:=t']> (threads m)) sh'
      | None => m
      end
  | None => m
  end.

(** An interleaving is the list of the threads that move, in order. *)
Definition run (self : DragonNetworkTester) (schedule : list nat)
    (m : machine) : machine :=
  foldl (fun m tid => step self tid m) m schedule.

(** The pool of [start]: worker [i] for [i] in [range(thread_count)],
    worker [i] making the observations [observations i]. *)
Definition pool (self : DragonNetworkTester)
    (observations : nat -> list iter_env) (st : NetworkStats) : machine :=
  mkMachine
    (map (fun i => spawn self i (observations i))
         (seq 0 (Z.to_nat (thread_count self))))
    (mkShared st [] []).

(** A thread that has made all its passes. *)
Definition idle (t : thread) : bool :=
  match t_code t, t_todo t with
  | [], [] => true
  | _, _ => false
  end.

Definition all_idle (m : machine) : bool := forallb idle (threads m).

Definition has_stopped (t : thread) : bool :=
  match t_status t with
  | Running => false
  | _ => true
  end.

(** Every worker has returned: what [future.result()] waits for. *)
Definition all_stopped (m : machine) : bool := forallb has_stopped (threads m).

(* ===================================================================== *)
(** ** The main thread *)
(* ===================================================================== *)

(** The rows of the final report, before they are formatted. *)
Record report : Type := mkReport {
  total_time : Q;
  total_packets : Z;
  mb_sent : Q;
  packets_per_second : Q;
  failed : Z;
  success_percentage : Q;
  avg_response_ms : Q
}.

(** The values [_display_final_report] computes, lines 270-285, when
    [time.time()] returns [now]. *)
Definition final_metrics (now : Q) (st : NetworkStats) : result report :=
  let total_time := (now - start_time st)%Q in
  packets_per_second ← float_truediv (inject_Z (packets_sent st)) total_time;
  let mb_sent := (inject_Z (bytes_sent st) / 1024 / 1024)%Q in
  ratio ← int_truediv (failed_attempts st) (packets_sent st);
  avg ← average_response st;
  mret (mkReport total_time (packets_sent st) mb_sent packets_per_second
                 (failed_attempts st) ((1 - ratio) * 100)%Q (avg * 1000)%Q).

(** What the main thread does that is visible from outside. *)
Inductive mevent : Type :=
| EvPrint (text : string)                 (* [console.print] *)
| EvClear                                 (* [console.clear] *)
| EvLoggingConfigured                     (* [logging.basicConfig] *)
| EvUdpSocket (sock : socket)             (* [socket.socket(AF_INET, SOCK_DGRAM)] *)
| EvConfigured (sock : socket)            (* [settimeout], [setsockopt] *)
| EvProbeSocket                           (* [socket.socket(AF_INET, SOCK_STREAM)] *)
| EvProbeConnected
| EvProbeClosed
| EvLogWarning (text : string)
| EvLogInfo (text : string)
| EvThreadStarted (name : string)
| EvThreadJoined (name : string)
| EvSubmit (socket_id : nat)              (* [executor.submit] *)
| EvSleepFor (seconds : Z)                (* [time.sleep(self.duration)] *)
| EvStopSet                               (* [self.stop_event.set()] *)
| EvReport (metrics : report)              (* the panel "Final Report" *)
| EvSocketClosed (sock : socket).

(** The worker pool as the main thread sees it. *)
Inductive pool_state : Type :=
| NoPool                       (* nothing submitted *)
| Active                       (* workers submitted and not yet waited for *)
| Drained (m : machine).       (* every worker has returned, leaving [m] *)

(** The mutable objects the main thread works on. *)
Record world : Type := mkWorld {
  w_trace : list mevent;
  w_clock : nat;               (* main-thread actions begun so far *)
  w_stop_event : bool;         (* [self.stop_event] *)
  w_pool : pool_state;
  w_stats : NetworkStats       (* [self.stats] *)
}.

(** Everything the main thread does not decide. *)
Record environment : Type := mkEnvironment {
  interrupt_at : option nat;   (* the action during which Ctrl-C arrives *)
  logging_error : option exception;
  socket_error : nat -> option exception;
  setsockopt_error : nat -> option exception;
  probe_error : option exception;
  close_error : socket -> option exception;
  time_at_init : Q;            (* [time.time()] in [__post_init__] *)
  time_at_report : Q;          (* [time.time()] in [_display_final_report] *)
  observations : nat -> list iter_env;  (* what worker [i] observes *)
  schedule : list nat          (* how the workers interleave *)
}.

(** How a main-thread computation ends: it returns, an exception leaves
    it, or it waits for ever. *)
Inductive mresult (A : Type) : Type :=
| Return (a : A)
| Raised (e : base_exception)
| Blocked.
Arguments Return {A} a.
Arguments Raised {A} e.
Arguments Blocked {A}.

Definition M (A : Type) : Type := world -> mresult A * world.

#[global] Instance M_ret : MRet M := fun A a w => (Return a, w).

#[global] Instance M_fmap : FMap M := fun A B f m w =>
  match m w with
  | (Return a, w') => (Return (f a), w')
  | (Raised e, w') => (Raised e, w')
  | (Blocked, w') => (Blocked, w')
  end.

#[global] Instance M_bind : MBind M := fun A B k m w =>
  match m w with
  | (Return a, w') => k a w'
  | (Raised e, w') => (Raised e, w')
  | (Blocked, w') => (Blocked, w')
  end.

Definition raise {A} (e : base_exception) : M A := fun w => (Raised e, w).

(** Reading and updating the mutable objects. *)
Definition get : M world := fun w => (Return w, w).
Definition modify (f : world -> world) : M unit := fun w => (Return tt, f w).

Definition lift {A} (r : result A) : M A :=
  match r with
  | Ok a => mret a
  | Raise e => raise (Exception e)
  end.

(** [try: body  except ...: handler]; [handler e = None] when no clause
    matches [e]. *)
Definition try_except {A} (body : M A)
    (handler : base_exception -> option (M A)) : M A := fun w =>
  match body w with
  | (Raised e, w') =>
      match handler e with
      | Some h => h w'
      | None => (Raised e, w')
      end
  | other => other
  end.

(** [with ... : body], whose [__exit__] does not swallow exceptions. *)
Definition with_exit {A} (body : M A) (exit : M unit) : M A := fun w =>
  match body w with
  | (Return a, w') =>
      match exit w' with
      | (Return _, w'') => (Return a, w'')
      | (Raised e, w'') => (Raised e, w'')
      | (Blocked, w'') => (Blocked, w'')
      end
  | (Raised e, w') =>
      match exit w' with
      | (Return _, w'') => (Raised e, w'')
      | (Raised e', w'') => (Raised e', w'')
      | (Blocked, w'') => (Blocked, w'')
      end
  | (Blocked, w') => (Blocked, w')
  end.

Fixpoint for_each {A} (l : list A) (body : A -> M unit) : M unit :=
  match l with
  | [] => mret tt
  | a :: l' => body a;; for_each l' body
  end.

Definition range (n : Z) : list nat := seq 0 (Z.to_nat n).

Definition set_stop_event (w : world) : world :=
  mkWorld (w_trace w) (w_clock w) true (w_pool w) (w_stats w).
(** [NetworkStats()] at time [now] and [threading.Event()]. *)
Definition new_objects (now : Q) (w : world) : world :=
  mkWorld (w_trace w) (w_clock w) false (w_pool w) (__post_init__ now).
Definition set_pool (p : pool_state) (w : world) : world :=
  mkWorld (w_trace w) (w_clock w) (w_stop_event w) p (w_stats w).
Definition set_stats (st : NetworkStats) (w : world) : world :=
  mkWorld (w_trace w) (w_clock w) (w_stop_event w) (w_pool w) st.

(** The report of [_display_final_report] was printed. *)
Definition is_report (ev : mevent) : bool :=
  match ev with EvReport _ => true | _ => false end.
Definition is_close (ev : mevent) : bool :=
  match ev with EvSocketClosed _ => true | _ => false end.

Definition closed_sockets (tr : list mevent) : list socket :=
  omap (fun ev => match ev with EvSocketClosed s => Some s | _ => None end) tr.

(** [DragonUI.BANNER]; the block letters are left out.  Of the texts
    printed, the Rich markup and the line breaks are left out too. *)
Definition BANNER : string := "DRAGON".

(** [DragonNetworkTester.validate_input]; [ip] is a [str] by its type, so
    [not ip] is the test for the empty string. *)
Definition validate_input (ip : string) (port : Z) (duration : Z)
  : result unit :=
  if String.eqb ip "" then Raise (ValueError "Invalid IP address")
  else if negb ((0 <=? port) && (port <=? 65535))
  then Raise (ValueError "Port must be between 0 and 65535")
  else if duration <=? 0 then Raise (ValueError "Duration must be positive")
  else Ok tt.

(** The arguments of the constructor. *)
Record arguments : Type := mkArguments {
  arg_ip : string;
  arg_port : Z;
  arg_duration : Z;
  arg_threads : Z;
  arg_packet_size : Z;
  arg_buffer_size : Z;
  arg_verbose : bool
}.

Section MainThread.

Variable env : environment.

Definition interrupted (w : world) : bool :=
  match interrupt_at env with
  | Some k => Nat.eqb k (w_clock w)
  | None => false
  end.

Definition bump (w : world) : world :=
  mkWorld (w_trace w) (S (w_clock w)) (w_stop_event w) (w_pool w) (w_stats w).
Definition push (ev : mevent) (w : world) : world :=
  mkWorld (w_trace w ++ [ev]) (w_clock w) (w_stop_event w) (w_pool w)
          (w_stats w).

(** An action of the main thread with nothing to show: it is where a
    [KeyboardInterrupt] can be delivered. *)
Definition tick : M unit := fun w =>
  if interrupted w then (Raised KeyboardInterrupt, bump w)
  else (Return tt, bump w).

(** An action that shows as [ev]. *)
Definition act (ev : mevent) : M unit := fun w =>
  if interrupted w then (Raised KeyboardInterrupt, bump w)
  else (Return tt, bump (push ev w)).

(** An action that the outside can make fail with [err]. *)
Definition fallible (err : option exception) (ev : mevent) : M unit :=
  match err with
  | Some e => tick;; raise (Exception e)
  | None => act ev
  end.

(** [DragonNetworkTester._setup_logging] *)
Definition _setup_logging : M unit :=
  fallible (logging_error env) EvLoggingConfigured.

(** [DragonNetworkTester._setup_sockets]: the list [self.sockets]. *)
Fixpoint _setup_sockets_from (ids : list nat) (acc : list socket)
  : M (list socket) :=
  match ids with
  | [] => mret acc
  | i :: ids' =>
      fallible (socket_error env i) (EvUdpSocket i);;
      fallible (setsockopt_error env i) (EvConfigured i);;
      _setup_sockets_from ids' (acc ++ [i])
  end.

Definition _setup_sockets (thread_count : Z) : M (list socket) :=
  _setup_sockets_from (range thread_count) [].

(** [DragonNetworkTester._check_target_availability] *)
Definition _check_target_availability : M unit :=
  try_except
    (act EvProbeSocket;;
     fallible (probe_error env) EvProbeConnected;;
     act EvProbeClosed)
    (fun e =>
       match e with
       | Exception e =>
           Some (act (EvLogWarning ("Target may be unreachable: " +:+ str e)))
       | _ => None
       end).

(** [DragonNetworkTester.__init__] *)
Definition __init__ (a : arguments) : M DragonNetworkTester :=
  lift (validate_input (arg_ip a) (arg_port a) (arg_duration a));;
  let thread_count := Z.min (arg_threads a) 500 in
  let packet_size := Z.min (arg_packet_size a) 65507 in
  modify (new_objects (time_at_init env));;
  _setup_logging;;
  socks ← _setup_sockets thread_count;
  _check_target_availability;;
  mret (mkTester (arg_ip a, arg_port a) (arg_duration a) thread_count
                 packet_size (arg_buffer_size a) (arg_verbose a) socks).

(** [DragonNetworkTester._display_banner] *)
Definition _display_banner : M unit :=
  act (EvPrint BANNER);;
  act (EvPrint "DragonNetworkTester - Advanced Network Testing Suite");;
  act (EvPrint "Version 1.0 - Enhanced Edition").

(** [DragonNetworkTester._display_final_report] *)
Definition _display_final_report : M unit :=
  act (EvPrint "Test Complete - Final Report");;
  st ← w_stats <$> get;
  metrics ← lift (final_metrics (time_at_report env) st);
  act (EvReport metrics).

(** [DragonNetworkTester._cleanup]; the bare [except:] swallows
    whatever [close] raises. *)
Definition _cleanup (self : DragonNetworkTester) : M unit :=
  for_each (sockets self) (fun sock =>
    try_except (fallible (close_error env sock) (EvSocketClosed sock))
               (fun _ => Some (mret tt)));;
  act (EvLogInfo "Network test completed and resources cleaned up").

(** Waiting for the workers to return.  They return only once they have
    seen the stop signal; what they did is the run of the pool under
    the environment's interleaving. *)
Definition wait_for_workers (self : DragonNetworkTester) : M unit :=
  fun w =>
    match w_pool w with
    | Active =>
        if w_stop_event w then
          let m := run self (schedule env)
                       (pool self (observations env) (w_stats w)) in
          if all_stopped m
          then (Return tt, set_pool (Drained m) (set_stats (stats (mem m)) w))
          else (Blocked, w)
        else (Blocked, w)
    | _ => (Return tt, w)
    end.

(** [future.result()] for the worker [i]: waits for it and raises what
    it raised. *)
Definition future_result (self : DragonNetworkTester) (i : nat) : M unit :=
  tick;;
  wait_for_workers self;;
  w ← get;
  match w_pool w with
  | Drained m =>
      match t_status <$> threads m !! i with
      | Some (Died e) => raise (Exception e)
      | _ => mret tt
      end
  | _ => mret tt
  end.

(** [ThreadPoolExecutor(max_workers=n)] *)
Definition ThreadPoolExecutor (max_workers : Z) : M unit :=
  tick;;
  if max_workers <=? 0
  then raise (Exception (ValueError "max_workers must be greater than 0"))
  else modify (set_pool NoPool).

(** [ThreadPoolExecutor.__exit__], that is [shutdown(wait=True)] *)
Definition shutdown_wait (self : DragonNetworkTester) : M unit :=
  wait_for_workers self.

(** [DragonNetworkTester.start], lines 236-261: up to the end of the
    [with] block. *)
Definition run_phase (self : DragonNetworkTester) : M unit :=
  act EvClear;;
  _display_banner;;
  act (EvThreadStarted "monitor");;
  ThreadPoolExecutor (thread_count self);;
  with_exit
    (for_each (range (thread_count self)) (fun i =>
       act (EvSubmit i);;
       modify (set_pool Active));;
     act (EvThreadStarted "progress");;
     act (EvSleepFor (duration self));;
     act EvStopSet;;
     modify set_stop_event;;
     for_each (range (thread_count self)) (future_result self);;
     act (EvThreadJoined "progress");;
     act (EvThreadJoined "monitor"))
    (shutdown_wait self).

(** [DragonNetworkTester.start] *)
Definition start (self : DragonNetworkTester) : M unit :=
  run_phase self;;
  _display_final_report;;
  _cleanup self.

(** [main], lines 403-417: the banner and the construction of the
    tester, [parse_arguments] having returned [a]. *)
Definition main_init (a : arguments) : M DragonNetworkTester :=
  act (EvPrint BANNER);;
  act (EvPrint "DragonNetworkTester - Advanced Network Testing Suite");;
  act (EvPrint "Version 1.0 - Enhanced Edition");;
  __init__ a.

(** The [try] block of [main]. *)
Definition main_try (a : arguments) : M unit :=
  tester ← main_init a;
  start tester.

(** [main] *)
Definition main (a : arguments) : M unit :=
  try_except
    (main_try a)
    (fun e =>
       match e with
       | KeyboardInterrupt =>
           Some (act (EvPrint "Test interrupted by user");;
                 raise (SystemExit 0))
       | Exception e =>
           Some (act (EvPrint ("Fatal error: " +:+ str e));;
                 raise (SystemExit 1))
       | SystemExit _ => None
       end).

End MainThread.

(** The world before [main] runs; [w_stats] is a placeholder until the
    constructor creates the object. *)
Definition boot : world := mkWorld [] 0 false NoPool (__post_init__ 0).

(** An environment that lets the constructor through: no interrupt, and
    neither the log file nor a socket fails. *)
Definition cooperative (env : environment) : Prop :=
  interrupt_at env = None /\
  logging_error env = None /\
  (forall i, socket_error env i = None) /\
  (forall i, setsockopt_error env i = None).

(** The events of a trace that are a report, or the closing of a socket. *)
Definition teardown (tr : list mevent) : list mevent :=
  filter (fun ev => is_report ev || is_close ev) tr.

Definition udp_sockets (tr : list mevent) : list socket :=
  omap (fun ev => match ev with EvUdpSocket s => Some s | _ => None end) tr.

(** *** Vocabulary of the properties *)

(** The passes a worker makes through its loop before it sees the stop
    signal, among the observations [todo]. *)
Fixpoint passes (todo : list iter_env) : nat :=
  match todo with
  | [] => 0
  | env :: todo' => if stop_is_set env then 0%nat else S (passes todo')
  end.

Definition is_sendto (ev : wevent) : bool :=
  match ev with EvSendTo _ _ _ _ => true | _ => false end.

(** The worker [t] is limited to the actions in [P], those left of the
    pass it is in and those of the passes it has still to make, and its
    registers are in [G]. *)
Definition limited_to (self : DragonNetworkTester) (P : instr -> Prop)
    (G : regs -> Prop) (t : thread) : Prop :=
  Forall P (t_code t) /\
  Forall (fun env => Forall P (loop_body self (t_sock t) (t_socket_id t) env))
         (t_todo t) /\
  G (t_regs t).

(** Actions that add nothing negative. *)
Definition adds_nonnegative (i : instr) : Prop :=
  match i with
  | StoreBytesSent n => 0 <= n
  | _ => True
  end.

Definition counters_nonnegative (s : NetworkStats) : Prop :=
  0 <= packets_sent s /\ 0 <= bytes_sent s /\ 0 <= failed_attempts s.


(** Actions other than the store to [packets_sent]. *)
Definition not_counting_sent (i : instr) : Prop :=
  match i with
  | StorePacketsSent => False
  | _ => True
  end.

Definition set_successful_attempts (v : Z) (s : NetworkStats) : NetworkStats :=
  mkNetworkStats (packets_sent s) (bytes_sent s) (failed_attempts s) v
                 (start_time s) (response_times s) (packet_sizes s).

(** A [KeyboardInterrupt] left the computation. *)
Definition interrupt_left {A : Type} (r : mresult A) : Prop :=
  match r with
  | Raised KeyboardInterrupt => True
  | _ => False
  end.

(** What is known after a main-thread computation [m] has run from [w]
    to [w']: [R w w'], and [E w'] when a [KeyboardInterrupt] left it. *)
Definition post (R : world -> world -> Prop) (E : world -> Prop) {A : Type}
    (m : M A) : Prop :=
  forall w r w', m w = (r, w') -> R w w' /\ (interrupt_left r -> E w').

(** No report was printed and no socket closed between [w] and [w']. *)
Definition same_teardown (w w' : world) : Prop :=
  teardown (w_trace w') = teardown (w_trace w).

Definition no_teardown (ev : mevent) : Prop :=
  is_report ev || is_close ev = false.

(** [w'] is not before [w]. *)
Definition later (w w' : world) : Prop := (w_clock w <= w_clock w')%nat.

(** The Ctrl-C of the environment has been delivered. *)
Definition consumed (env : environment) (w : world) : Prop :=
  exists k, interrupt_at env = Some k /\ (k < w_clock w)%nat.

(** *** Sample inputs *)

Module Sample.

Definition zeros : random_source := fun _ => Byte.x00.

(** A pass whose [sendto] raises, one whose [sendto] returns, and the
    observation of the stop signal. *)
Definition failing : iter_env :=
  mkIterEnv false zeros 0 (1 # 1000) (Some (OSError "Network is unreachable")) 0.
Definition sending : iter_env :=
  mkIterEnv false zeros 0 (1 # 1000) None 0.
Definition stopping : iter_env :=
  mkIterEnv true zeros 0 0 None 0.

(** Worker 0 runs until it has returned, then worker 1. *)
Definition one_by_one : list nat := replicate 40 0%nat ++ replicate 40 1%nat.

(** An outside world in which nothing fails but, possibly, [sendto]:
    every worker observes [obs], and Ctrl-C arrives at [interrupt]. *)
Definition environment (obs : list iter_env) (interrupt : option nat)
  : environment :=
  mkEnvironment interrupt None (fun _ => None) (fun _ => None) None
                (fun _ => None) 100 102 (fun _ => obs) one_by_one.

(** [--ip 10.0.0.1 --duration 2 --threads n --packet-size size] *)
Definition args (threads size : Z) : arguments :=
  mkArguments "10.0.0.1" 80 2 threads size 65507 false.

(** Worker 0 goes as far as loading the counter, worker 1 makes its
    whole pass, then worker 0 stores and finishes. *)
Definition racy : list nat :=
  replicate 5 0%nat ++ replicate 8 1%nat ++ replicate 3 0%nat.

(** The same race on the success block: worker 0 stops after its load of
    [packets_sent]. *)
Definition racy_sending : list nat :=
  replicate 5 0%nat ++ replicate 12 1%nat ++ replicate 7 0%nat.

(** Worker 0 goes as far as loading [failed_attempts], worker 1 makes
    two whole passes, then worker 0 stores and finishes. *)
Definition racy_twice : list nat :=
  replicate 5 0%nat ++ replicate 16 1%nat ++ replicate 3 0%nat.

(** A tester with two sockets, as the constructor builds it. *)
Definition tester (size : Z) (verbose : bool) : DragonNetworkTester :=
  mkTester ("10.0.0.1", 80) 2 2 size 65507 verbose [0; 1]%nat.

End Sample.

(* ===================================================================== *)
(** ** [EnhancedNetworkTester] and the monitor thread *)
(* ===================================================================== *)

Module Enhanced.

(** What [_generate_enhanced_packet] ends with. *)
Inductive packet_result : Type :=
| Packet (bytes : list Byte.byte)
| RaisesOverflowError (msg : string)
| RaisesValueError (msg : string).

Definition byte_of (z : Z) : Byte.byte :=
  default Byte.x00 (Byte.of_N (Z.to_N z)).

(** The [length] digits of [x] in base 256, the most significant first. *)
Fixpoint big_endian (length : nat) (x : Z) : list Byte.byte :=
  match length with
  | O => []
  | S n => big_endian n (x / 256) ++ [byte_of (x mod 256)]
  end.

(** [x.to_bytes(length, 'big')]: unsigned, so a negative [x] and an [x]
    that does not fit both raise [OverflowError]. *)
Definition to_bytes (x : Z) (length : nat) : string + list Byte.byte :=
  if x <? 0 then inl "can't convert negative int to unsigned"
  else if 256 ^ Z.of_nat length <=? x then inl "int too big to convert"
  else inr (big_endian length x).

(** [int.from_bytes(b, 'big')], the reading of what [to_bytes] writes. *)
Definition from_bytes (b : list Byte.byte) : Z :=
  foldl (fun acc x => acc * 256 + Z.of_N (Byte.to_N x)) 0 b.

(** [int(x)] on a float: the integer part, towards zero. *)
Definition int_of_float (x : Q) : Z := Z.quot (Qnum x) (Z.pos (Qden x)).

(** [EnhancedNetworkTester._generate_enhanced_packet]; [now] is
    [time.time()], the first random byte is [random.randint(0, 255)]. *)
Definition _generate_enhanced_packet (self : DragonNetworkTester)
    (st : NetworkStats) (now : Q) (rnd : random_source) : packet_result :=
  match to_bytes (int_of_float now) 8 with
  | inl msg => RaisesOverflowError msg
  | inr timestamp =>
      match to_bytes (packets_sent st) 8 with
      | inl msg => RaisesOverflowError msg
      | inr sequence =>
          match to_bytes (Z.of_N (Byte.to_N (rnd 0%nat))) 8 with
          | inl msg => RaisesOverflowError msg
          | inr flags =>
              match _urandom rnd 1 (packet_size self - 24) with
              | Raise e => RaisesValueError (str e)
              | Ok payload =>
                  Packet (timestamp ++ sequence ++ flags ++ payload)
              end
          end
      end
  end.

(** The rows of the live table, before they are formatted. *)
Record live_stats : Type := mkLiveStats {
  time_elapsed : Q;
  live_packets : Z;
  packet_rate : Q;
  live_success_rate : Q;
  cpu_usage : Q;
  memory_usage : Q
}.

(** [max(a, b)] of Python: [b] when [b > a], else [a]. *)
Definition py_max (a b : Q) : Q := if negb (Qle_bool b a) then b else a.

(** [EnhancedNetworkTester._update_stats_display], lines 365-375: the
    values of the table when [time.time()] returns [now]. *)
Definition _update_stats_display (now : Q) (st : NetworkStats)
    (cpu memory : Q) : result live_stats :=
  let current_time := (now - start_time st)%Q in
  packets_per_second ←
    float_truediv (inject_Z (packets_sent st)) (py_max current_time 1);
  mret (mkLiveStats current_time (packets_sent st) packets_per_second
                    (success_rate st) cpu memory).

End Enhanced.

Module Monitor.

(** The dataclass [SystemResources]. *)
Record SystemResources : Type := mkSystemResources {
  cpu_percent : Q;
  memory_percent : Q;
  network_speed : Q;
  active_connections : Z
}.

Definition initial : SystemResources := mkSystemResources 0 0 0 0.

(** What one pass of the monitor loop gets from outside: the stop signal
    and the answers of [psutil]; [connections = None] when
    [psutil.net_connections()] raises. *)
Record reading : Type := mkReading {
  stop_is_set : bool;
  cpu : Q;
  memory : Q;
  connections : option nat
}.

Inductive status : Type :=
| Running
| Stopped
| Died.

(** [DragonNetworkTester._monitor_system_resources] *)
Fixpoint _monitor_system_resources (obs : list reading) (r : SystemResources)
  : status * SystemResources :=
  match obs with
  | [] => (Running, r)
  | o :: obs' =>
      if stop_is_set o then (Stopped, r)
      else
        let r1 := mkSystemResources (cpu o) (memory_percent r)
                                    (network_speed r) (active_connections r) in
        let r2 := mkSystemResources (cpu_percent r1) (memory o)
                                    (network_speed r1) (active_connections r1) in
        match connections o with
        | None => (Died, r2)
        | Some n =>
            _monitor_system_resources obs'
              (mkSystemResources (cpu_percent r2) (memory_percent r2)
                                 (network_speed r2) (Z.of_nat n))
        end
  end.

End Monitor.

(** *** Vocabulary of the further properties *)

Definition is_accepted (ev : wevent) : bool :=
  match ev with EvSendTo _ _ _ true => true | _ => false end.

(** The datagrams [sendto] has accepted so far. *)
Definition accepted (sh : shared) : Z :=
  len (filter (fun ev => is_accepted ev) (events sh)).

(** The sum of the weights [wt] of the actions of [code]. *)
Definition total (wt : instr -> Z) (code : list instr) : Z :=
  foldr (fun i acc => wt i + acc) 0 code.

(** The same over the actions left of the passes the threads are in. *)
Definition outstanding (wt : instr -> Z) (ts : list thread) : Z :=
  foldr (fun t acc => total wt (t_code t) + acc) 0 ts.

(** What an action adds to [len(packet_sizes)] minus the accepted
    datagrams, and to [len(response_times)] minus the same. *)
Definition size_weight (i : instr) : Z :=
  match i with
  | AppendPacketSize _ => 1
  | SendTo _ _ _ true => -1
  | _ => 0
  end.
Definition time_weight (i : instr) : Z :=
  match i with
  | AppendResponseTime _ => 1
  | SendTo _ _ _ true => -1
  | _ => 0
  end.

(** Stores to [packets_sent] still to come for datagrams already
    accepted: a store counts 1, an accepted [sendto] still to come -1. *)
Definition store_weight (i : instr) : Z :=
  match i with
  | StorePacketsSent => 1
  | SendTo _ _ _ true => -1
  | _ => 0
  end.

(** In [code], a store to [packets_sent] that is not the next action
    comes right after the load, and from every point on the stores left
    are at least the accepted [sendto] calls left. *)
Fixpoint store_guarded (code : list instr) : Prop :=
  match code with
  | [] => True
  | i :: rest =>
      0 <= total store_weight code /\
      match rest with
      | StorePacketsSent :: _ => i = LoadPacketsSent
      | _ => True
      end /\
      store_guarded rest
  end.

(** The value a thread is about to store in [packets_sent] is at most
    [bound] + 1. *)
Definition store_bounded (bound : Z) (t : thread) : Prop :=
  match t_code t with
  | StorePacketsSent :: _ => loaded (t_regs t) <= bound
  | _ => True
  end.

(** The statistics of a worker that was never interleaved with another:
    each counter agrees with the samples. *)
Definition consistent (size : Z) (s : NetworkStats) : Prop :=
  packets_sent s = len (packet_sizes s) /\
  len (response_times s) = len (packet_sizes s) /\
  packet_sizes s = replicate (length (packet_sizes s)) size /\
  bytes_sent s = packets_sent s * size.

Definition is_sleep (seconds : Q) (ev : wevent) : bool :=
  match ev with
  | EvSleep q => Qeq_bool q seconds
  | _ => false
  end.

(** How often the worker has slept for [seconds]. *)
Definition sleeps (seconds : Q) (sh : shared) : Z :=
  len (filter (fun ev => is_sleep seconds ev) (events sh)).

(** Where a worker is with respect to a [with threading.Lock():]
    statement: outside of it, past the construction of the lock but
    before [acquire], or in its block. *)
Inductive with_state : Type := Outside | Created | Held.

(** [code], started in the state [s], constructs, acquires and releases
    locks in the order of a [with] statement, and ends outside of one. *)
Fixpoint with_shaped (s : with_state) (code : list instr) : bool :=
  match code with
  | [] => match s with Outside => true | _ => false end
  | NewLock :: rest =>
      match s with Outside => with_shaped Created rest | _ => false end
  | Acquire :: rest =>
      match s with Created => with_shaped Held rest | _ => false end
  | Release :: rest =>
      match s with Held => with_shaped Outside rest | _ => false end
  | _ :: rest => with_shaped s rest
  end.

(** The lock a thread refers to fits the place it is at: none outside of
    a [with], one that nobody holds just before [acquire]. *)
Definition in_with (sh : shared) (t : thread) : Prop :=
  exists s, with_shaped s (t_code t) = true /\
    match s with
    | Outside => lock (t_regs t) = None
    | Created =>
        exists l, lock (t_regs t) = Some l /\ locks sh !! l = Some false
    | Held => exists l, lock (t_regs t) = Some l
    end.

(** Every thread refers to a lock of its own, if to any. *)
Definition own_locks (m : machine) : Prop :=
  (forall tid t, threads m !! tid = Some t -> in_with (mem m) t) /\
  (forall tid t l, threads m !! tid = Some t ->
     lock (t_regs t) = Some l -> (l < length (locks (mem m)))%nat) /\
  (forall tid1 tid2 t1 t2 l,
     threads m !! tid1 = Some t1 -> threads m !! tid2 = Some t2 ->
     lock (t_regs t1) = Some l -> lock (t_regs t2) = Some l -> tid1 = tid2).

(* ===================================================================== *)
(** * Properties *)
(* ===================================================================== *)

(** ** Derived metrics *)

Lemma success_rate_refines (s : NetworkStats) :
  0 <= packets_sent s -> 0 <= failed_attempts s ->
  success_rate s = Spec.success_rate (packets_sent s) (failed_attempts s).
Proof.
  intros Hs Hf. unfold success_rate, Spec.success_rate. cbv zeta.
  destruct (Z.gtb_spec (packets_sent s + failed_attempts s) 0) as [Hpos|Hle];
    destruct (Z.eqb_spec (packets_sent s + failed_attempts s) 0) as [Hz|Hnz];
    try reflexivity; lia.
Qed.

Lemma average_response_refines (s : NetworkStats) :
  average_response s = Ok (Spec.average_response (response_times s)).
Proof.
  unfold average_response, Spec.average_response, statistics_mean.
  destruct (response_times s) as [|x l]; reflexivity.
Qed.

(** C6, as amended.  [success_rate] is 0 when
    [packets_sent + failed_attempts] is 0 and
    [packets_sent / (packets_sent + failed_attempts) * 100] otherwise, so
    that it is 0 exactly when [packets_sent] is 0, failures recorded or
    not.  [average_response] is 0 on an empty sample and the sum of the
    samples divided by their number otherwise.  Neither value is stored:
    each is a function of the counters, respectively of the samples,
    alone. *)
Theorem derived_metrics (s : NetworkStats) :
  0 <= packets_sent s -> 0 <= failed_attempts s ->
  (packets_sent s + failed_attempts s = 0 -> success_rate s = 0%Q) /\
  (packets_sent s + failed_attempts s <> 0 ->
     success_rate s =
       (inject_Z (packets_sent s)
        / inject_Z (packets_sent s + failed_attempts s) * 100)%Q) /\
  ((success_rate s == 0)%Q <-> packets_sent s = 0) /\
  (response_times s = [] -> average_response s = Ok 0%Q) /\
  (response_times s <> [] ->
     average_response s =
       Ok (fold_right Qplus 0%Q (response_times s)
           / inject_Z (Z.of_nat (length (response_times s))))%Q) /\
  (forall s' : NetworkStats,
     packets_sent s' = packets_sent s ->
     failed_attempts s' = failed_attempts s ->
     success_rate s' = success_rate s) /\
  (forall s' : NetworkStats,
     response_times s' = response_times s ->
     average_response s' = average_response s).
Proof.
  intros Hs Hf. split; [|split; [|split; [|split; [|split; [|split]]]]].
  - intros H0. unfold success_rate. cbv zeta. rewrite H0. reflexivity.
  - intros Hn. unfold success_rate. cbv zeta.
    destruct (Z.gtb_spec (packets_sent s + failed_attempts s) 0); [reflexivity | lia].
  - unfold success_rate. cbv zeta.
    destruct (Z.gtb_spec (packets_sent s + failed_attempts s) 0) as [Hpos|Hle].
    + destruct (packets_sent s + failed_attempts s) as [|p|p]; try lia.
      unfold Qeq, Qdiv, Qmult, Qinv, inject_Z. simpl. lia.
    + split; [lia | reflexivity].
  - intros He. unfold average_response. now rewrite He.
  - intros Hne. unfold average_response, statistics_mean, Py.sum.
    destruct (response_times s); [contradiction | reflexivity].
  - intros s' H1 H2. unfold success_rate. now rewrite H1, H2.
  - intros s' H1. unfold average_response. now rewrite H1.
Qed.

Lemma derived_metrics_witness :
  Qeq (success_rate (mkNetworkStats 3 90 1 0 0 [1 # 2; 3 # 2]%Q [30; 30; 30]))
      75%Q /\
  exists mean,
    average_response (mkNetworkStats 3 90 1 0 0 [1 # 2; 3 # 2]%Q [30; 30; 30])
    = Ok mean /\
    (mean == 1)%Q.
Proof.
  destruct (derived_metrics
              (mkNetworkStats 3 90 1 0 0 [1 # 2; 3 # 2]%Q [30; 30; 30]))
    as (_ & Hrate & _ & _ & Hmean & _); [simpl; lia | simpl; lia |].
  split.
  - rewrite Hrate by (simpl; lia). vm_compute. reflexivity.
  - eexists. split; [apply Hmean; discriminate|]. vm_compute. reflexivity.
Defined.

(** C6 as it was stated fails: with no packet sent and two failures,
    [success_rate] is 0 although [packets_sent + failed_attempts] is 2,
    so 0 is not returned only when that sum is 0. *)
Lemma success_rate_zero_with_failures :
  ~ ((success_rate (mkNetworkStats 0 0 2 0 0 [] []) == 0)%Q <->
     packets_sent (mkNetworkStats 0 0 2 0 0 [] [])
     + failed_attempts (mkNetworkStats 0 0 2 0 0 [] []) = 0).
Proof.
  intros [Hzero _].
  assert (Hrate : (success_rate (mkNetworkStats 0 0 2 0 0 [] []) == 0)%Q)
    by (vm_compute; reflexivity).
  specialize (Hzero Hrate). discriminate Hzero.
Qed.

(** ** Packet generation *)

Lemma length_draw (rnd : random_source) (pos k : nat) :
  length (draw rnd pos k) = k.
Proof. unfold draw. now rewrite length_map, length_seq. Qed.

(** C5.  For a packet size of at least 24, [_generate_packet] returns a
    packet of exactly that size: a header of 24 bytes followed by a payload
    of [packet_size - 24] bytes. *)
Theorem generate_packet_size (self : DragonNetworkTester) (rnd : random_source) :
  HEADER_LENGTH <= packet_size self ->
  exists header payload : list Byte.byte,
    _generate_packet self rnd = Ok (header ++ payload) /\
    len header = HEADER_LENGTH /\
    len payload = packet_size self - HEADER_LENGTH /\
    len (header ++ payload) = packet_size self.
Proof.
  unfold HEADER_LENGTH. intros Hsize.
  exists (draw rnd 0 24), (draw rnd 24 (Z.to_nat (packet_size self - 24))).
  unfold _generate_packet, _urandom, len.
  destruct (Z.ltb_spec (packet_size self - 24) 0) as [Hneg|_]; [lia|].
  split; [reflexivity|]. rewrite length_app, !length_draw. lia.
Qed.

Lemma generate_packet_size_witness :
  exists header payload : list Byte.byte,
    _generate_packet (mkTester ("10.0.0.1", 80) 2 1 30 65507 false [0%nat])
                     (fun _ => Byte.x2a)
    = Ok (header ++ payload) /\
    len header = 24 /\ len payload = 30 - 24 /\ len (header ++ payload) = 30.
Proof.
  apply (generate_packet_size
           (mkTester ("10.0.0.1", 80) 2 1 30 65507 false [0%nat])
           (fun _ => Byte.x2a)).
  unfold HEADER_LENGTH. simpl. lia.
Defined.


(** ** The main-thread monad *)

Lemma bind_Return {A B} (m : M A) (k : A -> M B) (w w' : world) (b : B) :
  (m ≫= k) w = (Return b, w') ->
  exists a w1, m w = (Return a, w1) /\ k a w1 = (Return b, w').
Proof.
  unfold mbind, M_bind. destruct (m w) as [[a|e|] w1]; intros H;
    [eauto | discriminate | discriminate].
Qed.

Lemma bind_run {A B} (m : M A) (k : A -> M B) (w w1 : world) (a : A) :
  m w = (Return a, w1) -> (m ≫= k) w = k a w1.
Proof. unfold mbind, M_bind. now intros ->. Qed.

Lemma bind_Raised {A B} (m : M A) (k : A -> M B) (w w1 : world) e :
  m w = (Raised e, w1) -> (m ≫= k) w = (Raised e, w1).
Proof. unfold mbind, M_bind. now intros ->. Qed.

Lemma bind_Blocked {A B} (m : M A) (k : A -> M B) (w w1 : world) :
  m w = (Blocked, w1) -> (m ≫= k) w = (Blocked, w1).
Proof. unfold mbind, M_bind. now intros ->. Qed.

Section Cooperative.

Variable env : environment.
Hypothesis no_interrupt : interrupt_at env = None.

Lemma interrupted_None (w : world) : interrupted env w = false.
Proof. unfold interrupted. now rewrite no_interrupt. Qed.

Lemma act_run (ev : mevent) (w : world) :
  act env ev w = (Return tt, bump (push ev w)).
Proof. unfold act. now rewrite interrupted_None. Qed.

Lemma tick_run (w : world) : tick env w = (Return tt, bump w).
Proof. unfold tick. now rewrite interrupted_None. Qed.

Lemma check_target_returns (w : world) :
  exists w', _check_target_availability env w = (Return tt, w') /\
             udp_sockets (w_trace w') = udp_sockets (w_trace w) /\
             w_stats w' = w_stats w.
Proof.
  unfold _check_target_availability, try_except, fallible.
  destruct (probe_error env) as [e|];
    unfold mbind, M_bind, raise, act, tick;
    repeat (rewrite interrupted_None; simpl);
    eexists; (split; [reflexivity|]); simpl;
    unfold udp_sockets; rewrite ?omap_app, ?app_nil_r; simpl;
    rewrite ?app_nil_r; auto.
Qed.

Hypothesis no_socket_error : forall i, socket_error env i = None.
Hypothesis no_setsockopt_error : forall i, setsockopt_error env i = None.

Lemma setup_sockets_from_returns (ids : list nat) :
  forall (acc : list socket) (w : world),
  exists w', _setup_sockets_from env ids acc w = (Return (acc ++ ids), w') /\
             udp_sockets (w_trace w') = udp_sockets (w_trace w) ++ ids /\
             w_stats w' = w_stats w.
Proof.
  induction ids as [|i ids IH]; intros acc w; simpl.
  - exists w. rewrite !app_nil_r. auto.
  - rewrite no_socket_error, no_setsockopt_error. unfold fallible.
    rewrite (bind_run _ _ _ _ _ (act_run _ _)).
    rewrite (bind_run _ _ _ _ _ (act_run _ _)).
    destruct (IH (acc ++ [i]) (bump (push (EvConfigured i) (bump (push (EvUdpSocket i) w)))))
      as (w' & Hrun & Htr & Hst).
    exists w'. rewrite Hrun, <- app_assoc. split; [reflexivity|].
    split; [|exact Hst].
    rewrite Htr. simpl. unfold udp_sockets.
    rewrite !omap_app. simpl. rewrite app_nil_r, <- app_assoc. reflexivity.
Qed.

End Cooperative.

(** ** The constructor *)

Lemma init_unfold (env : environment) (a : arguments) (w : world) :
  validate_input (arg_ip a) (arg_port a) (arg_duration a) = Ok tt ->
  __init__ env a w =
    (_setup_logging env;;
     socks ← _setup_sockets env (Z.min (arg_threads a) 500);
     _check_target_availability env;;
     mret (mkTester (arg_ip a, arg_port a) (arg_duration a)
                    (Z.min (arg_threads a) 500)
                    (Z.min (arg_packet_size a) 65507)
                    (arg_buffer_size a) (arg_verbose a) socks))
      (new_objects (time_at_init env) w).
Proof. intros Hv. unfold __init__. rewrite Hv. reflexivity. Qed.

Lemma init_Return (env : environment) (a : arguments) (w w' : world)
    (t : DragonNetworkTester) :
  __init__ env a w = (Return t, w') ->
  thread_count t = Z.min (arg_threads a) 500 /\
  packet_size t = Z.min (arg_packet_size a) 65507.
Proof.
  unfold __init__. intros H.
  apply bind_Return in H as (? & w1 & _ & H).
  apply bind_Return in H as (? & w2 & _ & H).
  apply bind_Return in H as (? & w3 & _ & H).
  apply bind_Return in H as (socks & w4 & _ & H).
  apply bind_Return in H as (? & w5 & _ & H).
  inversion H. split; reflexivity.
Qed.

Lemma init_cooperative (env : environment) (a : arguments) (w : world) :
  validate_input (arg_ip a) (arg_port a) (arg_duration a) = Ok tt ->
  cooperative env ->
  exists w',
    __init__ env a w =
      (Return (mkTester (arg_ip a, arg_port a) (arg_duration a)
                        (Z.min (arg_threads a) 500)
                        (Z.min (arg_packet_size a) 65507)
                        (arg_buffer_size a) (arg_verbose a)
                        (range (Z.min (arg_threads a) 500))), w') /\
    udp_sockets (w_trace w') =
      udp_sockets (w_trace w) ++ range (Z.min (arg_threads a) 500) /\
    w_stats w' = __post_init__ (time_at_init env).
Proof.
  intros Hv (Hint & Hlog & Hsock & Hopt).
  rewrite (init_unfold _ _ _ Hv).
  unfold _setup_logging, fallible. rewrite Hlog.
  rewrite (bind_run _ _ _ _ _ (act_run env Hint _ _)).
  unfold _setup_sockets.
  destruct (setup_sockets_from_returns env Hint Hsock Hopt
              (range (Z.min (arg_threads a) 500)) []
              (bump (push EvLoggingConfigured
                       (new_objects (time_at_init env) w))))
    as (w1 & Hrun & Htr & Hst).
  rewrite (bind_run _ _ _ _ _ Hrun).
  destruct (check_target_returns env Hint w1) as (w2 & Hrun2 & Htr2 & Hst2).
  rewrite (bind_run _ _ _ _ _ Hrun2).
  exists w2. split; [reflexivity|]. split.
  - rewrite Htr2, Htr. simpl. unfold udp_sockets at 1.
    rewrite omap_app. simpl. now rewrite app_nil_r.
  - rewrite Hst2, Hst. reflexivity.
Qed.

(** C4.  For every valid configuration the constructor stores
    [min(thread_count, 500)] and [min(packet_size, 65507)], and it rejects
    neither value: when nothing outside fails, it returns the tester, with
    one socket per worker. *)
Theorem clamped_never_rejected (env : environment) (a : arguments) (w : world) :
  validate_input (arg_ip a) (arg_port a) (arg_duration a) = Ok tt ->
  (forall t w', __init__ env a w = (Return t, w') ->
     thread_count t = Z.min (arg_threads a) 500 /\
     packet_size t = Z.min (arg_packet_size a) 65507) /\
  (cooperative env ->
     exists t w', __init__ env a w = (Return t, w') /\
       thread_count t = Z.min (arg_threads a) 500 /\
       packet_size t = Z.min (arg_packet_size a) 65507 /\
       sockets t = range (Z.min (arg_threads a) 500)).
Proof.
  intros Hv. split.
  - intros t w'. apply init_Return.
  - intros Hco. destruct (init_cooperative env a w Hv Hco) as (w' & Hrun & _ & _).
    eexists _, w'. split; [exact Hrun|]. repeat split; reflexivity.
Qed.

Lemma clamped_never_rejected_witness :
  exists t w',
    __init__ (Sample.environment [] None) (Sample.args 9000 70000) boot
      = (Return t, w') /\
    thread_count t = Z.min 9000 500 /\ packet_size t = Z.min 70000 65507 /\
    sockets t = range (Z.min 9000 500).
Proof.
  apply (clamped_never_rejected (Sample.environment [] None)
                                (Sample.args 9000 70000) boot).
  - reflexivity.
  - unfold cooperative. simpl. repeat split.
Defined.

(** C3, as the code has it.  A duration of 0 (or less) makes the
    constructor raise [ValueError] with the world untouched, so before any
    socket is allocated.  A worker count of 0 is not rejected: with valid
    address, port and duration the constructor returns a tester with
    [thread_count = 0] and no worker socket. *)
Theorem zero_duration_rejected_zero_workers_accepted
    (env : environment) (a : arguments) (w : world) :
  (arg_duration a <= 0 ->
     exists msg, __init__ env a w = (Raised (Exception (ValueError msg)), w)) /\
  (arg_threads a = 0 ->
   validate_input (arg_ip a) (arg_port a) (arg_duration a) = Ok tt ->
   cooperative env ->
     exists t w', __init__ env a w = (Return t, w') /\
       thread_count t = 0 /\ sockets t = [] /\
       udp_sockets (w_trace w') = udp_sockets (w_trace w)).
Proof.
  split.
  - intros Hd. unfold __init__, validate_input.
    destruct (String.eqb _ _); [eexists; reflexivity|].
    destruct (negb _); [eexists; reflexivity|].
    destruct (Z.leb_spec (arg_duration a) 0); [eexists; reflexivity | lia].
  - intros Ht Hv Hco.
    destruct (init_cooperative env a w Hv Hco) as (w' & Hrun & Htr & _).
    rewrite Ht in Hrun, Htr. simpl in Hrun, Htr.
    eexists _, w'. split; [exact Hrun|]. simpl.
    rewrite Htr, app_nil_r. auto.
Qed.

Lemma zero_duration_rejected_zero_workers_accepted_witness :
  (exists msg,
     __init__ (Sample.environment [] None)
              (mkArguments "10.0.0.1" 80 0 4 1024 65507 false) boot
     = (Raised (Exception (ValueError msg)), boot)) /\
  (exists t w',
     __init__ (Sample.environment [] None) (Sample.args 0 1024) boot
       = (Return t, w') /\
     thread_count t = 0 /\ sockets t = [] /\
     udp_sockets (w_trace w') = udp_sockets (w_trace boot)).
Proof.
  split.
  - apply (zero_duration_rejected_zero_workers_accepted
             (Sample.environment [] None)
             (mkArguments "10.0.0.1" 80 0 4 1024 65507 false) boot).
    simpl. lia.
  - apply (zero_duration_rejected_zero_workers_accepted
             (Sample.environment [] None) (Sample.args 0 1024) boot).
    + reflexivity.
    + reflexivity.
    + unfold cooperative. simpl. repeat split.
Defined.

(** C3, as stated, fails for a worker count of 0: the constructor returns. *)
Lemma zero_workers_not_rejected :
  exists t w',
    __init__ (Sample.environment [] None) (Sample.args 0 1024) boot
      = (Return t, w') /\
    thread_count t = 0.
Proof. eexists _, _. vm_compute. split; reflexivity. Qed.

(** ** One worker alone *)

Lemma enter_lock (code : list instr) (r : regs) (sh : shared) :
  exec_code (NewLock :: Acquire :: code) r sh =
  exec_code code (mkRegs (loaded r) (Some (length (locks sh))))
            (mkShared (stats sh) (locks sh ++ [true]) (events sh)).
Proof.
  simpl. rewrite list_lookup_middle by reflexivity.
  rewrite insert_app_r_alt by lia. rewrite Nat.sub_diag. reflexivity.
Qed.

(** The handler run alone: one more failed attempt, a log line when
    verbose, the back-off. *)
Lemma except_handler_alone (self : DragonNetworkTester) (socket_id : nat)
    (e : exception) (r : regs) (sh : shared) :
  exec_code (except_handler self socket_id e) r sh =
  Some (mkRegs (failed_attempts (stats sh)) None,
        mkShared (set_failed_attempts (failed_attempts (stats sh) + 1) (stats sh))
                 (locks sh ++ [false])
                 (events sh
                  ++ (if verbose self then [EvLogError socket_id e] else [])
                  ++ [EvSleep (1 # 10)])).
Proof.
  unfold except_handler.
  change ([NewLock; Acquire; LoadFailedAttempts; StoreFailedAttempts; Release]
          ++ ?rest)
    with (NewLock :: Acquire :: LoadFailedAttempts :: StoreFailedAttempts
          :: Release :: rest).
  rewrite enter_lock.
  cbn [exec_code exec_instr loaded lock stats locks events with_stats].
  rewrite insert_app_r_alt by lia. rewrite Nat.sub_diag.
  destruct (verbose self); simpl; unfold emit; simpl;
    rewrite <- ?app_assoc; reflexivity.
Qed.

(** The success block run alone. *)
Lemma success_block_alone (packet : list Byte.byte) (rt : Q)
    (code : list instr) (r : regs) (sh : shared) :
  exec_code (success_block packet rt ++ code) r sh =
  exec_code code
    (mkRegs (bytes_sent (stats sh)) None)
    (mkShared
       (mkNetworkStats (packets_sent (stats sh) + 1)
                       (bytes_sent (stats sh) + len packet)
                       (failed_attempts (stats sh))
                       (successful_attempts (stats sh))
                       (start_time (stats sh))
                       (response_times (stats sh) ++ [rt])
                       (packet_sizes (stats sh) ++ [len packet]))
       (locks sh ++ [false]) (events sh)).
Proof.
  unfold success_block.
  change ([NewLock; Acquire; LoadPacketsSent; StorePacketsSent; LoadBytesSent;
           StoreBytesSent (len packet); AppendResponseTime rt;
           AppendPacketSize (len packet); Release] ++ code)
    with (NewLock :: Acquire :: LoadPacketsSent :: StorePacketsSent
          :: LoadBytesSent :: StoreBytesSent (len packet)
          :: AppendResponseTime rt :: AppendPacketSize (len packet)
          :: Release :: code).
  rewrite enter_lock.
  cbn [exec_code exec_instr loaded lock stats locks events with_stats
       set_packets_sent set_bytes_sent append_response_time
       append_packet_size packets_sent bytes_sent failed_attempts
       successful_attempts start_time response_times packet_sizes].
  rewrite insert_app_r_alt by lia. rewrite Nat.sub_diag. reflexivity.
Qed.

(** A pass run alone always gets to its end: no [acquire] blocks. *)
Lemma loop_body_alone (self : DragonNetworkTester) (sock : socket)
    (socket_id : nat) (env : iter_env) (r : regs) (sh : shared) :
  exists r' sh',
    exec_code (loop_body self sock socket_id env) r sh = Some (r', sh') /\
    successful_attempts (stats sh') = successful_attempts (stats sh).
Proof.
  unfold loop_body.
  destruct (_generate_packet self (rnd env)) as [packet|e].
  - destruct (sendto_error env) as [e|].
    + cbn [exec_code exec_instr]. rewrite except_handler_alone.
      eexists _, _. split; reflexivity.
    + cbn [exec_code exec_instr]. rewrite success_block_alone.
      cbn [exec_code exec_instr]. eexists _, _. split; [reflexivity|].
      unfold throttle. repeat case_match; reflexivity.
  - rewrite except_handler_alone. eexists _, _. split; reflexivity.
Qed.

Lemma while_not_stopped_status (self : DragonNetworkTester) (sock : socket)
    (socket_id : nat) (todo : list iter_env) :
  forall (r : regs) (sh : shared),
    fst (while_not_stopped self sock socket_id todo r sh) =
    if existsb stop_is_set todo then Stopped else Running.
Proof.
  induction todo as [|env todo IH]; intros r sh; simpl; [reflexivity|].
  destruct (stop_is_set env); simpl; [reflexivity|].
  destruct (loop_body_alone self sock socket_id env r sh) as (r' & sh' & -> & _).
  apply IH.
Qed.

(** A pass whose [sendto] raises [e] consists of the failed call, one
    load and store of [failed_attempts] under a lock of its own, the log
    line exactly when [verbose] is set, and the back-off.  Run with no
    other thread in between, it adds exactly 1 to [failed_attempts] and
    leaves every other field of the statistics as it was, and the worker
    goes on with the next pass.  Whatever the passes do, the loop has
    ended exactly when the stop signal was observed. *)
Theorem failed_send_recorded_once (self : DragonNetworkTester) (sock : socket)
    (socket_id : nat) (env : iter_env) (packet : list Byte.byte)
    (e : exception) (r : regs) (sh : shared) :
  _generate_packet self (rnd env) = Ok packet ->
  sendto_error env = Some e ->
  loop_body self sock socket_id env =
    SendTo sock packet (target self) false
    :: [ NewLock; Acquire; LoadFailedAttempts; StoreFailedAttempts; Release ]
    ++ (if verbose self then [LogError socket_id e] else [])
    ++ [ Sleep (1 # 10) ] /\
  exists r' sh',
    exec_code (loop_body self sock socket_id env) r sh = Some (r', sh') /\
    failed_attempts (stats sh') = failed_attempts (stats sh) + 1 /\
    packets_sent (stats sh') = packets_sent (stats sh) /\
    bytes_sent (stats sh') = bytes_sent (stats sh) /\
    successful_attempts (stats sh') = successful_attempts (stats sh) /\
    response_times (stats sh') = response_times (stats sh) /\
    packet_sizes (stats sh') = packet_sizes (stats sh) /\
    events sh' =
      events sh
      ++ EvSendTo sock packet (target self) false
         :: (if verbose self then [EvLogError socket_id e] else [])
         ++ [EvSleep (1 # 10)] /\
    (forall todo, stop_is_set env = false ->
       while_not_stopped self sock socket_id (env :: todo) r sh =
       while_not_stopped self sock socket_id todo r' sh') /\
    (forall todo r0 sh0,
       fst (while_not_stopped self sock socket_id todo r0 sh0) =
       if existsb stop_is_set todo then Stopped else Running).
Proof.
  intros Hgen Hsend. split.
  { unfold loop_body. now rewrite Hgen, Hsend. }
  assert (Hrun : exec_code (loop_body self sock socket_id env) r sh =
    Some (mkRegs (failed_attempts (stats sh)) None,
          mkShared (set_failed_attempts (failed_attempts (stats sh) + 1) (stats sh))
                   (locks sh ++ [false])
                   (events sh
                    ++ EvSendTo sock packet (target self) false
                       :: (if verbose self then [EvLogError socket_id e] else [])
                       ++ [EvSleep (1 # 10)]))).
  { unfold loop_body. rewrite Hgen, Hsend. cbn [exec_code exec_instr].
    rewrite except_handler_alone. unfold emit. simpl.
    rewrite <- app_assoc. reflexivity. }
  eexists _, _. split; [exact Hrun|].
  repeat (split; [reflexivity|]). split.
  - intros todo Hstop. simpl. rewrite Hstop, Hrun. reflexivity.
  - intros todo r0 sh0. apply while_not_stopped_status.
Qed.

Lemma failed_send_recorded_once_witness :
  loop_body (Sample.tester 30 true) 0%nat 0%nat Sample.failing =
    [ SendTo 0%nat (draw Sample.zeros 0 30) ("10.0.0.1", 80) false;
      NewLock; Acquire; LoadFailedAttempts; StoreFailedAttempts; Release;
      LogError 0%nat (OSError "Network is unreachable"); Sleep (1 # 10) ] /\
  exists r' sh',
    exec_code (loop_body (Sample.tester 30 true) 0%nat 0%nat Sample.failing)
              fresh_regs (mkShared (__post_init__ 0) [] [])
      = Some (r', sh') /\
    failed_attempts (stats sh') = 0 + 1 /\
    packets_sent (stats sh') = 0 /\
    bytes_sent (stats sh') = 0 /\
    successful_attempts (stats sh') = 0 /\
    response_times (stats sh') = [] /\
    packet_sizes (stats sh') = [] /\
    events sh' =
      [ EvSendTo 0%nat (draw Sample.zeros 0 30) ("10.0.0.1", 80) false;
        EvLogError 0%nat (OSError "Network is unreachable");
        EvSleep (1 # 10) ] /\
    (forall todo, stop_is_set Sample.failing = false ->
       while_not_stopped (Sample.tester 30 true) 0%nat 0%nat
                         (Sample.failing :: todo) fresh_regs
                         (mkShared (__post_init__ 0) [] []) =
       while_not_stopped (Sample.tester 30 true) 0%nat 0%nat todo r' sh') /\
    (forall todo r0 sh0,
       fst (while_not_stopped (Sample.tester 30 true) 0%nat 0%nat todo r0 sh0) =
       if existsb stop_is_set todo then Stopped else Running).
Proof.
  apply (failed_send_recorded_once (Sample.tester 30 true) 0%nat 0%nat
           Sample.failing (draw Sample.zeros 0 30)
           (OSError "Network is unreachable") fresh_regs
           (mkShared (__post_init__ 0) [] [])).
  - reflexivity.
  - reflexivity.
Defined.




(** ** Interleaved workers: invariants of every schedule *)

Section Invariant.

Variable self : DragonNetworkTester.
(** The actions the workers are limited to, a property of the shared
    objects and one of a worker's registers that each of these actions
    keeps. *)
Variable P : instr -> Prop.
Variable I : shared -> Prop.
Variable G : regs -> Prop.
Hypothesis kept : forall i r sh r' sh',
  P i -> I sh -> G r -> exec_instr i r sh = Some (r', sh') -> I sh' /\ G r'.

Lemma thread_step_invariant (t t' : thread) (sh sh' : shared) :
  limited_to self P G t -> I sh ->
  thread_step self t sh = Some (t', sh') ->
  limited_to self P G t' /\ I sh'.
Proof.
  intros (Hcode & Htodo & Hregs) HI. unfold thread_step.
  destruct (t_status t); try discriminate.
  destruct (t_code t) as [|i code'] eqn:Ecode.
  - destruct (t_todo t) as [|env todo'] eqn:Etodo; [discriminate|].
    inversion Htodo as [|? ? Henv Htodo']; subst.
    destruct (stop_is_set env); intros [= <- <-];
      (split; [repeat split; simpl; auto|exact HI]).
  - inversion Hcode as [|? ? Hi Hcode']; subst.
    destruct (exec_instr i (t_regs t) sh) as [[r1 sh1]|] eqn:Eexec;
      [|discriminate].
    intros [= <- <-].
    destruct (kept _ _ _ _ _ Hi HI Hregs Eexec) as [HI' Hregs'].
    split; [repeat split; simpl; auto | exact HI'].
Qed.

Lemma step_invariant (tid : nat) (m : machine) :
  Forall (limited_to self P G) (threads m) -> I (mem m) ->
  Forall (limited_to self P G) (threads (step self tid m)) /\
  I (mem (step self tid m)).
Proof.
  intros Hthreads HI. unfold step.
  destruct (threads m !! tid) as [t|] eqn:Et; [|auto].
  destruct (thread_step self t (mem m)) as [[t' sh']|] eqn:Estep; [|auto].
  assert (Ht : limited_to self P G t).
  { eapply Forall_lookup_1; eauto. }
  destruct (thread_step_invariant _ _ _ _ Ht HI Estep) as [Ht' HI'].
  simpl. split; [|exact HI'].
  apply Forall_insert; assumption.
Qed.

Lemma run_invariant (schedule : list nat) :
  forall m : machine,
    Forall (limited_to self P G) (threads m) -> I (mem m) ->
    Forall (limited_to self P G) (threads (run self schedule m)) /\
    I (mem (run self schedule m)).
Proof.
  unfold run.
  induction schedule as [|tid schedule IH]; intros m Hthreads HI; simpl.
  - auto.
  - destruct (step_invariant tid m Hthreads HI) as [Ht' HI'].
    apply IH; assumption.
Qed.

Lemma pool_limited (observations : nat -> list iter_env) (st : NetworkStats) :
  G fresh_regs ->
  (forall i sock env, env ∈ observations i ->
     Forall P (loop_body self sock i env)) ->
  Forall (limited_to self P G) (threads (pool self observations st)).
Proof.
  intros Hregs Hobs. unfold pool. simpl.
  apply Forall_map, Forall_forall. intros i _.
  unfold spawn, limited_to.
  destruct (sockets self !! i); simpl;
    (split; [constructor|split; [|exact Hregs]]);
    apply Forall_forall; intros env Henv; apply Hobs; exact Henv.
Qed.

End Invariant.

Lemma successful_attempts_kept (c : Z) (i : instr) (r r' : regs)
    (sh sh' : shared) :
  True -> successful_attempts (stats sh) = c ->
  exec_instr i r sh = Some (r', sh') ->
  successful_attempts (stats sh') = c.
Proof.
  intros _ Hc.
  destruct i; simpl; try (intros [= <- <-]; exact Hc).
  - repeat case_match; try discriminate. intros [= <- <-]; exact Hc.
  - repeat case_match; try discriminate. intros [= <- <-]; exact Hc.
  - intros [= <- <-]. unfold throttle. repeat case_match; exact Hc.
Qed.


Lemma not_counting_sent_kept (c : Z) (i : instr) (r r' : regs)
    (sh sh' : shared) :
  not_counting_sent i -> packets_sent (stats sh) = c ->
  exec_instr i r sh = Some (r', sh') ->
  packets_sent (stats sh') = c.
Proof.
  intros Hi Hc.
  destruct i; simpl in *; try contradiction;
    try (intros [= <- <-]; exact Hc).
  - repeat case_match; try discriminate. intros [= <- <-]; exact Hc.
  - repeat case_match; try discriminate. intros [= <- <-]; exact Hc.
  - intros [= <- <-]. unfold throttle. repeat case_match; exact Hc.
Qed.


Lemma adds_nonnegative_kept (i : instr) (r r' : regs) (sh sh' : shared) :
  adds_nonnegative i -> counters_nonnegative (stats sh) -> 0 <= loaded r ->
  exec_instr i r sh = Some (r', sh') ->
  counters_nonnegative (stats sh') /\ 0 <= loaded r'.
Proof.
  unfold counters_nonnegative. intros Hi (Hp & Hb & Hf) Hr.
  destruct i; simpl in *;
    try (intros [= <- <-]; simpl; repeat split; lia).
  - repeat case_match; try discriminate.
    intros [= <- <-]; simpl; repeat split; lia.
  - repeat case_match; try discriminate.
    intros [= <- <-]; simpl; repeat split; lia.
  - intros [= <- <-]. unfold throttle, emit.
    repeat case_match; simpl; repeat split; lia.
Qed.

Lemma loop_body_adds_nonnegative (self : DragonNetworkTester) (sock : socket)
    (socket_id : nat) (env : iter_env) :
  Forall adds_nonnegative (loop_body self sock socket_id env).
Proof.
  unfold loop_body, except_handler, success_block.
  destruct (_generate_packet self (rnd env)) as [packet|e];
    [destruct (sendto_error env) as [e|]|];
    try destruct (verbose self); simpl;
    repeat (apply Forall_cons_2;
            [first [exact Logic.I | unfold adds_nonnegative, len; lia]|]);
    apply Forall_nil_2.
Qed.

(** The counters are never negative, whatever the interleaving: the
    hypotheses of the properties of [success_rate] hold all along a run. *)
Lemma counters_stay_nonnegative (self : DragonNetworkTester)
    (obs : nat -> list iter_env) (sched : list nat) (now : Q) :
  counters_nonnegative
    (stats (mem (run self sched (pool self obs (__post_init__ now))))).
Proof.
  apply (run_invariant self adds_nonnegative
           (fun sh => counters_nonnegative (stats sh))
           (fun r => 0 <= loaded r)).
  - intros i r sh r' sh'. apply adds_nonnegative_kept.
  - apply pool_limited; [simpl; lia|]. intros i sock env _.
    apply loop_body_adds_nonnegative.
  - unfold counters_nonnegative. simpl. lia.
Qed.

Lemma while_not_stopped_successful (self : DragonNetworkTester) (sock : socket)
    (socket_id : nat) (todo : list iter_env) :
  forall (r : regs) (sh : shared),
    successful_attempts
      (stats (snd (while_not_stopped self sock socket_id todo r sh))) =
    successful_attempts (stats sh).
Proof.
  induction todo as [|env todo IH]; intros r sh; simpl; [reflexivity|].
  destruct (stop_is_set env); simpl; [reflexivity|].
  destruct (loop_body_alone self sock socket_id env r sh)
    as (r' & sh' & -> & Hsame).
  rewrite IH. exact Hsame.
Qed.

Lemma final_report_unfold (env : environment) (w : world) :
  _display_final_report env w =
  if interrupted env w then (Raised KeyboardInterrupt, bump w)
  else
    let w1 := bump (push (EvPrint "Test Complete - Final Report") w) in
    match final_metrics (time_at_report env) (w_stats w) with
    | Ok metrics => act env (EvReport metrics) w1
    | Raise e => (Raised (Exception e), w1)
    end.
Proof.
  unfold _display_final_report, mbind, M_bind, fmap, M_fmap, get, act.
  destruct (interrupted env w); [reflexivity|]. simpl.
  destruct (final_metrics _ _); reflexivity.
Qed.

Lemma final_metrics_ignores_successful (now : Q) (st : NetworkStats) (v : Z) :
  final_metrics now (set_successful_attempts v st) = final_metrics now st.
Proof. reflexivity. Qed.

Lemma final_report_ignores_successful (env : environment) (w : world) (v : Z) :
  fst (_display_final_report env
         (set_stats (set_successful_attempts v (w_stats w)) w)) =
  fst (_display_final_report env w).
Proof.
  rewrite !final_report_unfold. unfold interrupted, act, interrupted.
  simpl. rewrite final_metrics_ignores_successful.
  destruct (interrupt_at env) as [k|]; simpl.
  - destruct (k =? w_clock w)%nat; [reflexivity|].
    destruct (final_metrics _ _); [|reflexivity].
    destruct (k =? S (w_clock w))%nat; reflexivity.
  - destruct (final_metrics _ _); reflexivity.
Qed.

(** C9.  No operation writes [successful_attempts]: under every
    interleaving of the workers, and for a worker alone, it keeps the value
    0 that [__post_init__] gave it.  The success block updates
    [packets_sent], [bytes_sent], [response_times] and [packet_sizes]
    only, the handler [failed_attempts] only, and neither [success_rate]
    nor the final report reads the field. *)
Theorem successful_attempts_never_written (self : DragonNetworkTester)
    (obs : nat -> list iter_env) (sched : list nat) (now : Q)
    (env : environment) (w : world) (v : Z) :
  successful_attempts
    (stats (mem (run self sched (pool self obs (__post_init__ now))))) = 0 /\
  (forall socket_id todo sh,
     successful_attempts (stats (snd (_send_packets self socket_id todo sh))) =
     successful_attempts (stats sh)) /\
  (forall packet rt r sh,
     snd <$> exec_code (success_block packet rt) r sh =
     Some (mkShared
             (mkNetworkStats (packets_sent (stats sh) + 1)
                             (bytes_sent (stats sh) + len packet)
                             (failed_attempts (stats sh))
                             (successful_attempts (stats sh))
                             (start_time (stats sh))
                             (response_times (stats sh) ++ [rt])
                             (packet_sizes (stats sh) ++ [len packet]))
             (locks sh ++ [false]) (events sh))) /\
  (forall socket_id e r sh,
     stats ∘ snd <$> exec_code (except_handler self socket_id e) r sh =
     Some (set_failed_attempts (failed_attempts (stats sh) + 1) (stats sh))) /\
  (forall s, success_rate (set_successful_attempts v s) = success_rate s) /\
  fst (_display_final_report env
         (set_stats (set_successful_attempts v (w_stats w)) w)) =
  fst (_display_final_report env w).
Proof.
  split; [|split; [|split; [|split; [|split]]]].
  - apply (run_invariant self (fun _ => True)
             (fun sh => successful_attempts (stats sh) = 0) (fun _ => True)).
    + intros i r sh r' sh' Hi Hsh _ Hexec. split; [|exact Logic.I].
      exact (successful_attempts_kept 0 i r r' sh sh' Hi Hsh Hexec).
    + apply pool_limited; [exact Logic.I|]. intros i sock e _.
      apply Forall_forall. intros; exact Logic.I.
    + reflexivity.
  - intros socket_id todo sh. unfold _send_packets.
    destruct (sockets self !! socket_id); [|reflexivity].
    apply while_not_stopped_successful.
  - intros packet rt r sh.
    rewrite <- (app_nil_r (success_block packet rt)).
    rewrite success_block_alone. reflexivity.
  - intros socket_id e r sh. rewrite except_handler_alone. reflexivity.
  - reflexivity.
  - apply final_report_ignores_successful.
Qed.



(** ** Lost updates *)

(** A pass run alone adds exactly 1 to [packets_sent + failed_attempts]. *)
Lemma loop_body_counts_one (self : DragonNetworkTester) (sock : socket)
    (socket_id : nat) (env : iter_env) (r : regs) (sh : shared) :
  exists r' sh',
    exec_code (loop_body self sock socket_id env) r sh = Some (r', sh') /\
    packets_sent (stats sh') + failed_attempts (stats sh') =
    packets_sent (stats sh) + failed_attempts (stats sh) + 1.
Proof.
  unfold loop_body.
  destruct (_generate_packet self (rnd env)) as [packet|e].
  - destruct (sendto_error env) as [e|].
    + cbn [exec_code exec_instr]. rewrite except_handler_alone.
      eexists _, _. split; [reflexivity|]. simpl. lia.
    + cbn [exec_code exec_instr]. rewrite success_block_alone.
      cbn [exec_code exec_instr]. eexists _, _. split; [reflexivity|].
      unfold throttle. repeat case_match; simpl; lia.
  - rewrite except_handler_alone. eexists _, _. split; [reflexivity|].
    simpl. lia.
Qed.

(** Without interleaving the counters are exact: a worker alone counts
    each of its passes once. *)
Lemma exact_when_alone (self : DragonNetworkTester) (sock : socket)
    (socket_id : nat) (todo : list iter_env) :
  forall (r : regs) (sh : shared),
    let sh' := snd (while_not_stopped self sock socket_id todo r sh) in
    packets_sent (stats sh') + failed_attempts (stats sh') =
    packets_sent (stats sh) + failed_attempts (stats sh)
    + Z.of_nat (passes todo).
Proof.
  induction todo as [|env todo IH]; intros r sh; simpl.
  - lia.
  - destruct (stop_is_set env); simpl; [lia|].
    destruct (loop_body_counts_one self sock socket_id env r sh)
      as (r' & sh' & -> & Hone).
    specialize (IH r' sh'). simpl in IH. lia.
Qed.

(** The same race loses a success: both workers send, and
    [packets_sent] is 1. *)
Example success_update_lost :
  let self := Sample.tester 30 false in
  let m := run self Sample.racy_sending
               (pool self (fun _ => [Sample.sending]) (__post_init__ 0)) in
  all_idle m = true /\
  length (filter (fun ev => is_sendto ev) (events (mem m))) = 2%nat /\
  packets_sent (stats (mem m)) = 1 /\
  failed_attempts (stats (mem m)) = 0.
Proof. vm_compute. repeat split. Qed.

(** The worker alone is one of the interleavings: a pool of one thread
    that is scheduled long enough ends as [while_not_stopped] does. *)
Lemma run_code_alone (self : DragonNetworkTester) (socket_id : nat)
    (sock : socket) (todo : list iter_env) (code : list instr) :
  forall (r r' : regs) (sh sh' : shared),
    exec_code code r sh = Some (r', sh') ->
    run self (replicate (length code) 0%nat)
        (mkMachine [mkThread socket_id sock Running todo code r] sh) =
    mkMachine [mkThread socket_id sock Running todo [] r'] sh'.
Proof.
  induction code as [|i code IH]; intros r r' sh sh'; simpl.
  - now intros [= <- <-].
  - destruct (exec_instr i r sh) as [[r1 sh1]|] eqn:Ei; [|discriminate].
    intros Hrest. unfold run in *. simpl. unfold step at 2. simpl.
    unfold thread_step. simpl. rewrite Ei. simpl. now apply IH.
Qed.

Lemma run_app (self : DragonNetworkTester) (s1 s2 : list nat) (m : machine) :
  run self (s1 ++ s2) m = run self s2 (run self s1 m).
Proof. unfold run. apply foldl_app. Qed.

Lemma sequential_is_a_schedule (self : DragonNetworkTester) (socket_id : nat)
    (sock : socket) (todo : list iter_env) :
  forall (r : regs) (sh : shared),
  exists (n : nat) (t' : thread),
    run self (replicate n 0%nat)
        (mkMachine [mkThread socket_id sock Running todo [] r] sh) =
    mkMachine [t'] (snd (while_not_stopped self sock socket_id todo r sh)) /\
    t_status t' = fst (while_not_stopped self sock socket_id todo r sh).
Proof.
  induction todo as [|env todo IH]; intros r sh; simpl.
  - exists 0%nat. eexists. split; reflexivity.
  - destruct (stop_is_set env) eqn:Hstop.
    + exists 1%nat. eexists. unfold run, step, thread_step. simpl.
      rewrite Hstop. split; reflexivity.
    + destruct (loop_body_alone self sock socket_id env r sh)
        as (r' & sh' & Hexec & _).
      rewrite Hexec.
      destruct (IH r' sh') as (n & t' & Hrun & Hstatus).
      exists (1 + (length (loop_body self sock socket_id env) + n))%nat, t'.
      split; [|exact Hstatus].
      rewrite replicate_add, run_app.
      assert (Hfetch : run self (replicate 1 0%nat)
                (mkMachine [mkThread socket_id sock Running (env :: todo) [] r] sh) =
              mkMachine [mkThread socket_id sock Running todo
                           (loop_body self sock socket_id env) r] sh).
      { unfold run, step, thread_step. simpl. rewrite Hstop. reflexivity. }
      rewrite Hfetch, replicate_add, run_app.
      rewrite (run_code_alone self socket_id sock todo _ _ _ _ _ Hexec).
      exact Hrun.
Qed.

(** C1, on the code.  Two workers make one pass each, both of which fail.
    Each [with threading.Lock():] acquires a lock of its own, so worker 1
    runs its whole block between the load and the store of worker 0: when
    both are done, [packets_sent + failed_attempts] is 1, not 2 * 1. *)
Theorem lost_update :
  let self := Sample.tester 30 false in
  let m := run self Sample.racy
               (pool self (fun _ => [Sample.failing]) (__post_init__ 0)) in
  length (threads m) = 2%nat /\
  all_idle m = true /\
  length (locks (mem m)) = 2%nat /\
  packets_sent (stats (mem m)) = 0 /\
  failed_attempts (stats (mem m)) = 1 /\
  packets_sent (stats (mem m)) + failed_attempts (stats (mem m)) <> 2 * 1.
Proof. vm_compute. repeat split; discriminate. Qed.

(** C8, on the code.  Recording a failure is the same unprotected load
    and store as in C1, so a pass whose [sendto] raised does not always
    add 1 to [failed_attempts].  Worker 0 has loaded the counter, at 0,
    and is about to store; in the meantime worker 1 has made two failing
    passes and the counter is 2.  The store of worker 0 sets it to 1:
    after three passes whose [sendto] raised, all of them over and both
    workers still in the loop, [failed_attempts] is 1. *)
Theorem failed_pass_not_counted :
  let self := Sample.tester 30 false in
  let start := pool self (fun _ => [Sample.failing; Sample.failing])
                    (__post_init__ 0) in
  let before := run self (replicate 5 0%nat ++ replicate 16 1%nat) start in
  let after := run self [0%nat] before in
  let finished := run self Sample.racy_twice start in
  (t_code <$> threads before !! 0%nat) =
    Some [StoreFailedAttempts; Release; Sleep (1 # 10)] /\
  failed_attempts (stats (mem before)) = 2 /\
  failed_attempts (stats (mem after)) = 1 /\
  map t_code (threads finished) = [[]; []] /\
  map t_status (threads finished) = [Running; Running] /\
  length (filter (fun ev => is_sendto ev) (events (mem finished))) = 3%nat /\
  accepted (mem finished) = 0 /\
  failed_attempts (stats (mem finished)) = 1 /\
  failed_attempts (stats (mem finished)) <> 3.
Proof. vm_compute. repeat split; discriminate. Qed.

(** ** What the main thread leaves behind *)

Section Post.

Variable env : environment.
Variable R : world -> world -> Prop.
Variable E : world -> Prop.
Variable allowed : mevent -> Prop.

Hypothesis R_refl : forall w, R w w.
Hypothesis R_trans : forall w1 w2 w3, R w1 w2 -> R w2 w3 -> R w1 w3.
Hypothesis E_stable : forall w w', E w -> R w w' -> E w'.
Hypothesis R_bump : forall w, R w (bump w).
Hypothesis R_push : forall ev w, allowed ev -> R w (push ev w).
Hypothesis R_state : forall w w',
  w_trace w' = w_trace w -> w_clock w' = w_clock w -> R w w'.
Hypothesis E_interrupt : forall w, interrupted env w = true -> E (bump w).

Lemma post_ret {A} (a : A) : post R E (mret a).
Proof. intros w r w' [= <- <-]. split; [apply R_refl | intros []]. Qed.

Lemma post_raise_exception {A} (e : exception) :
  post R E (raise (A:=A) (Exception e)).
Proof. intros w r w' [= <- <-]. split; [apply R_refl | intros []]. Qed.

Lemma post_raise_exit {A} (code : Z) : post R E (raise (A:=A) (SystemExit code)).
Proof. intros w r w' [= <- <-]. split; [apply R_refl | intros []]. Qed.

Lemma post_lift {A} (x : result A) : post R E (lift x).
Proof. destruct x; [apply post_ret | apply post_raise_exception]. Qed.

Lemma post_get : post R E get.
Proof. intros w r w' [= <- <-]. split; [apply R_refl | intros []]. Qed.

Lemma post_modify (f : world -> world) :
  (forall w, w_trace (f w) = w_trace w) ->
  (forall w, w_clock (f w) = w_clock w) ->
  post R E (modify f).
Proof.
  intros Htr Hck w r w' [= <- <-]. split; [|intros []].
  apply R_state; auto.
Qed.

Lemma post_bind {A B} (m : M A) (k : A -> M B) :
  post R E m -> (forall a, post R E (k a)) -> post R E (m ≫= k).
Proof.
  intros Hm Hk w r w'. unfold mbind, M_bind.
  destruct (m w) as [[a|e|] w1] eqn:Em; destruct (Hm _ _ _ Em) as [HR HE].
  - intros Hka. destruct (Hk a _ _ _ Hka) as [HR' HE'].
    split; [eapply R_trans; eauto | exact HE'].
  - intros [= <- <-]. split; [exact HR | exact HE].
  - intros [= <- <-]. split; [exact HR | intros []].
Qed.

Lemma post_fmap {A B} (f : A -> B) (m : M A) :
  post R E m -> post R E (f <$> m).
Proof.
  intros Hm w r w'. unfold fmap, M_fmap.
  destruct (m w) as [[a|e|] w1] eqn:Em; destruct (Hm _ _ _ Em) as [HR HE];
    intros [= <- <-]; (split; [exact HR|]); [intros [] | exact HE | intros []].
Qed.

Lemma post_tick : post R E (tick env).
Proof.
  intros w r w'. unfold tick.
  destruct (interrupted env w) eqn:Ei; intros [= <- <-].
  - split; [apply R_bump | intros _; now apply E_interrupt].
  - split; [apply R_bump | intros []].
Qed.

Lemma post_act (ev : mevent) : allowed ev -> post R E (act env ev).
Proof.
  intros Hev w r w'. unfold act.
  destruct (interrupted env w) eqn:Ei; intros [= <- <-].
  - split; [apply R_bump | intros _; now apply E_interrupt].
  - split; [|intros []].
    eapply R_trans; [apply R_push, Hev | apply R_bump].
Qed.

Lemma post_fallible (err : option exception) (ev : mevent) :
  allowed ev -> post R E (fallible env err ev).
Proof.
  intros Hev. unfold fallible. destruct err as [e|].
  - apply post_bind; [apply post_tick | intros _; apply post_raise_exception].
  - now apply post_act.
Qed.

Lemma post_for_each {A} (l : list A) (body : A -> M unit) :
  (forall a, post R E (body a)) -> post R E (for_each l body).
Proof.
  intros Hbody. induction l as [|a l IH]; simpl.
  - apply post_ret.
  - apply post_bind; [apply Hbody | intros _; exact IH].
Qed.

Lemma post_try_except {A} (body : M A)
    (handler : base_exception -> option (M A)) :
  post R E body ->
  (forall e h, handler e = Some h -> post R E h) ->
  post R E (try_except body handler).
Proof.
  intros Hbody Hh w r w'. unfold try_except.
  destruct (body w) as [[a|e|] w1] eqn:Eb; destruct (Hbody _ _ _ Eb) as [HR HE].
  - intros [= <- <-]. split; [exact HR | intros []].
  - destruct (handler e) as [h|] eqn:Eh.
    + intros Hrun. destruct (Hh _ _ Eh _ _ _ Hrun) as [HR' HE'].
      split; [eapply R_trans; eauto | exact HE'].
    + intros [= <- <-]. split; [exact HR | exact HE].
  - intros [= <- <-]. split; [exact HR | intros []].
Qed.

Lemma post_with_exit {A} (body : M A) (exit : M unit) :
  post R E body -> post R E exit -> post R E (with_exit body exit).
Proof.
  intros Hbody Hexit w r w'. unfold with_exit.
  destruct (body w) as [[a|e|] w1] eqn:Eb; destruct (Hbody _ _ _ Eb) as [HR HE].
  - destruct (exit w1) as [[u|e'|] w2] eqn:Ee;
      destruct (Hexit _ _ _ Ee) as [HR' HE']; intros [= <- <-];
      (split; [eapply R_trans; eauto|]); [intros [] | exact HE' | intros []].
  - destruct (exit w1) as [[u|e'|] w2] eqn:Ee;
      destruct (Hexit _ _ _ Ee) as [HR' HE']; intros [= <- <-];
      (split; [eapply R_trans; eauto|]); [| exact HE' | intros []].
    intros Hki. eapply E_stable; [now apply HE | exact HR'].
  - intros [= <- <-]. split; [exact HR | intros []].
Qed.

Lemma post_wait_for_workers (self : DragonNetworkTester) :
  post R E (wait_for_workers env self).
Proof.
  intros w r w'. unfold wait_for_workers.
  destruct (w_pool w); try (intros [= <- <-]; split; [apply R_refl | intros []]).
  destruct (w_stop_event w);
    [|intros [= <- <-]; split; [apply R_refl | intros []]].
  destruct (all_stopped _); intros [= <- <-];
    (split; [|intros []]); [|apply R_refl].
  apply R_state; reflexivity.
Qed.

Lemma post_future_result (self : DragonNetworkTester) (i : nat) :
  post R E (future_result env self i).
Proof.
  unfold future_result.
  apply post_bind; [apply post_tick | intros _].
  apply post_bind; [apply post_wait_for_workers | intros _].
  apply post_bind; [apply post_get | intros w].
  destruct (w_pool w); try apply post_ret.
  destruct (t_status <$> threads m !! i) as [[| |e]|];
    first [apply post_ret | apply post_raise_exception].
Qed.

Hypothesis allowed_plain : forall ev, no_teardown ev -> allowed ev.

Lemma post_setup_sockets_from (ids : list nat) :
  forall acc, post R E (_setup_sockets_from env ids acc).
Proof.
  induction ids as [|i ids IH]; intros acc; simpl.
  - apply post_ret.
  - apply post_bind; [apply post_fallible, allowed_plain; reflexivity | intros _].
    apply post_bind; [apply post_fallible, allowed_plain; reflexivity | intros _].
    apply IH.
Qed.

Lemma post_check_target : post R E (_check_target_availability env).
Proof.
  unfold _check_target_availability. apply post_try_except.
  - apply post_bind; [apply post_act, allowed_plain; reflexivity | intros _].
    apply post_bind; [apply post_fallible, allowed_plain; reflexivity | intros _].
    apply post_act, allowed_plain; reflexivity.
  - intros [e| |c] h; intros [= <-].
    apply post_act, allowed_plain; reflexivity.
Qed.

Lemma post_init (a : arguments) : post R E (__init__ env a).
Proof.
  unfold __init__.
  apply post_bind; [apply post_lift | intros _].
  apply post_bind; [apply post_modify; reflexivity | intros _].
  apply post_bind;
    [apply post_fallible, allowed_plain; reflexivity | intros _].
  apply post_bind; [apply post_setup_sockets_from | intros socks].
  apply post_bind; [apply post_check_target | intros _].
  apply post_ret.
Qed.

Lemma post_main_init (a : arguments) : post R E (main_init env a).
Proof.
  unfold main_init.
  repeat (apply post_bind; [apply post_act, allowed_plain; reflexivity | intros _]).
  apply post_init.
Qed.

Lemma post_run_phase (self : DragonNetworkTester) :
  post R E (run_phase env self).
Proof.
  unfold run_phase, _display_banner.
  apply post_bind; [apply post_act, allowed_plain; reflexivity | intros _].
  apply post_bind.
  { repeat (apply post_bind; [apply post_act, allowed_plain; reflexivity | intros _]).
    apply post_act, allowed_plain; reflexivity. }
  intros _.
  apply post_bind; [apply post_act, allowed_plain; reflexivity | intros _].
  apply post_bind.
  { unfold ThreadPoolExecutor. apply post_bind; [apply post_tick | intros _].
    destruct (_ <=? _);
      [apply post_raise_exception | apply post_modify; reflexivity]. }
  intros _.
  apply post_with_exit; [|apply post_wait_for_workers].
  apply post_bind.
  { apply post_for_each. intros i.
    apply post_bind; [apply post_act, allowed_plain; reflexivity | intros _].
    apply post_modify; reflexivity. }
  intros _.
  do 3 (apply post_bind; [apply post_act, allowed_plain; reflexivity | intros _]).
  apply post_bind; [apply post_modify; reflexivity | intros _].
  apply post_bind; [apply post_for_each, post_future_result | intros _].
  apply post_bind; [apply post_act, allowed_plain; reflexivity | intros _].
  apply post_act, allowed_plain; reflexivity.
Qed.

Hypothesis allowed_all : forall ev, allowed ev.

Lemma post_start (self : DragonNetworkTester) : post R E (start env self).
Proof.
  unfold start.
  apply post_bind; [apply post_run_phase | intros _].
  apply post_bind.
  { unfold _display_final_report.
    apply post_bind; [apply post_act, allowed_all | intros _].
    apply post_bind; [apply post_fmap, post_get | intros st].
    apply post_bind; [apply post_lift | intros metrics].
    apply post_act, allowed_all. }
  intros _. unfold _cleanup.
  apply post_bind; [|intros _; apply post_act, allowed_all].
  apply post_for_each. intros sock. apply post_try_except.
  - apply post_fallible, allowed_all.
  - intros e h [= <-]. apply post_ret.
Qed.

Lemma post_main_try (a : arguments) : post R E (main_try env a).
Proof.
  unfold main_try.
  apply post_bind; [apply post_main_init | intros tester; apply post_start].
Qed.

End Post.

Lemma teardown_push (ev : mevent) (w : world) :
  no_teardown ev -> same_teardown w (push ev w).
Proof.
  unfold no_teardown, same_teardown, teardown. intros Hev. simpl.
  rewrite filter_app, filter_cons, filter_nil, decide_False.
  - now rewrite app_nil_r.
  - rewrite Hev. exact id.
Qed.

Lemma same_teardown_state (w w' : world) :
  w_trace w' = w_trace w -> w_clock w' = w_clock w -> same_teardown w w'.
Proof. unfold same_teardown. now intros -> _. Qed.

Lemma same_teardown_trans (w1 w2 w3 : world) :
  same_teardown w1 w2 -> same_teardown w2 w3 -> same_teardown w1 w3.
Proof. unfold same_teardown. intros H12 H23. now rewrite H23. Qed.

(** The construction of the tester and the run phase of [start] neither
    print a report nor close a socket, however they end. *)
Lemma main_init_silent (env : environment) (a : arguments) (w w' : world) r :
  main_init env a w = (r, w') -> same_teardown w w'.
Proof.
  intros Hrun.
  apply (post_main_init env same_teardown (fun _ => True) no_teardown)
    in Hrun as [H _].
  - exact H.
  - reflexivity.
  - exact same_teardown_trans.
  - reflexivity.
  - exact teardown_push.
  - exact same_teardown_state.
  - exact (fun _ _ => Logic.I).
  - exact (fun _ H => H).
Qed.

Lemma run_phase_silent (env : environment) (self : DragonNetworkTester)
    (w w' : world) r :
  run_phase env self w = (r, w') -> same_teardown w w'.
Proof.
  intros Hrun.
  apply (post_run_phase env same_teardown (fun _ => True) no_teardown)
    in Hrun as [H _].
  - exact H.
  - reflexivity.
  - exact same_teardown_trans.
  - exact (fun _ _ _ _ => Logic.I).
  - reflexivity.
  - exact teardown_push.
  - exact same_teardown_state.
  - exact (fun _ _ => Logic.I).
  - exact (fun _ H => H).
Qed.

Lemma interrupted_consumed (env : environment) (w : world) :
  interrupted env w = true -> consumed env (bump w).
Proof.
  unfold interrupted, consumed.
  destruct (interrupt_at env) as [k|]; [|discriminate].
  intros Hk%Nat.eqb_eq. exists k. simpl. split; [reflexivity | lia].
Qed.

Lemma consumed_not_interrupted (env : environment) (w : world) :
  consumed env w -> interrupted env w = false.
Proof.
  unfold interrupted, consumed. intros (k & -> & Hk).
  apply Nat.eqb_neq. lia.
Qed.

(** A [KeyboardInterrupt] that leaves the run phase is the Ctrl-C of the
    environment, and it is not delivered a second time. *)
Lemma run_phase_consumes (env : environment) (self : DragonNetworkTester)
    (w w' : world) :
  run_phase env self w = (Raised KeyboardInterrupt, w') -> consumed env w'.
Proof.
  intros Hrun.
  apply (post_run_phase env later (consumed env) (fun _ => True))
    in Hrun as [_ H]; unfold later in *.
  - exact (H Logic.I).
  - intros; lia.
  - intros; lia.
  - intros w0 w1 (k & Hk & Hlt) Hle. exists k. split; [exact Hk | lia].
  - intros; simpl; lia.
  - intros; simpl; lia.
  - intros w0 w1 _ Hck. lia.
  - apply interrupted_consumed.
  - exact (fun _ _ => Logic.I).
Qed.

Lemma final_metrics_nothing_sent (now : Q) (st : NetworkStats) :
  packets_sent st = 0 ->
  exists msg, final_metrics now st = Raise (ZeroDivisionError msg).
Proof.
  intros Hzero. unfold final_metrics, float_truediv, int_truediv.
  rewrite Hzero. simpl.
  destruct (Qeq_bool (now - start_time st) 0); eexists; reflexivity.
Qed.

Lemma success_rate_nothing_sent (st : NetworkStats) :
  packets_sent st = 0 -> (success_rate st == 0)%Q.
Proof.
  intros Hzero. unfold success_rate. cbv zeta. rewrite Hzero.
  destruct (0 + failed_attempts st >? 0); [|reflexivity].
  unfold Qdiv. rewrite Qmult_0_l. reflexivity.
Qed.

Lemma failed_pass_not_counting (self : DragonNetworkTester) (sock : socket)
    (socket_id : nat) (env : iter_env) :
  sendto_error env <> None ->
  Forall not_counting_sent (loop_body self sock socket_id env).
Proof.
  intros Hfail. unfold loop_body, except_handler.
  destruct (_generate_packet self (rnd env)) as [packet|e];
    [destruct (sendto_error env) as [e|]; [|contradiction]|];
    destruct (verbose self); repeat constructor.
Qed.

(** When every [sendto] of every worker raises, [packets_sent] is never
    written, whatever the interleaving. *)
Lemma nothing_counted_when_all_fail (self : DragonNetworkTester)
    (obs : nat -> list iter_env) (sched : list nat) (st : NetworkStats) :
  (forall i env, env ∈ obs i -> sendto_error env <> None) ->
  packets_sent (stats (mem (run self sched (pool self obs st)))) =
  packets_sent st.
Proof.
  intros Hfail.
  apply (run_invariant self not_counting_sent
           (fun sh => packets_sent (stats sh) = packets_sent st)
           (fun _ => True)).
  - intros i r sh r' sh' Hi Hsh _ Hexec. split; [|exact Logic.I].
    exact (not_counting_sent_kept _ i r r' sh sh' Hi Hsh Hexec).
  - apply pool_limited; [exact Logic.I|]. intros i sock env Henv.
    apply failed_pass_not_counting. eapply Hfail, Henv.
  - reflexivity.
Qed.

(** C2, on the code.  When every [sendto] raises, [packets_sent] stays 0
    under every interleaving.  When the workers are back and
    [packets_sent] is 0, [success_rate] is 0, but [_display_final_report]
    divides by [packets_sent]: [start] ends with [ZeroDivisionError], with
    no report printed and no socket closed. *)
Theorem final_report_fails_when_nothing_sent (env : environment)
    (self : DragonNetworkTester) (w0 w : world) :
  interrupt_at env = None ->
  run_phase env self w0 = (Return tt, w) ->
  packets_sent (w_stats w) = 0 ->
  (forall sched now,
     (forall i e, e ∈ observations env i -> sendto_error e <> None) ->
     packets_sent
       (stats (mem (run self sched
                      (pool self (observations env) (__post_init__ now))))) = 0) /\
  (success_rate (w_stats w) == 0)%Q /\
  exists msg w',
    start env self w0 = (Raised (Exception (ZeroDivisionError msg)), w') /\
    teardown (w_trace w') = teardown (w_trace w0).
Proof.
  intros Hint Hrun Hzero. split.
  { intros sched now Hfail.
    now rewrite (nothing_counted_when_all_fail self _ sched _ Hfail). }
  split; [now apply success_rate_nothing_sent|].
  destruct (final_metrics_nothing_sent (time_at_report env) (w_stats w) Hzero)
    as [msg Hmetrics].
  exists msg. eexists. unfold start.
  rewrite (bind_run _ _ _ _ _ Hrun).
  assert (Hreport : _display_final_report env w =
            (Raised (Exception (ZeroDivisionError msg)),
             bump (push (EvPrint "Test Complete - Final Report") w))).
  { rewrite final_report_unfold, (interrupted_None env Hint). cbv zeta.
    now rewrite Hmetrics. }
  rewrite (bind_Raised _ _ _ _ _ Hreport). split; [reflexivity|].
  transitivity (teardown (w_trace w)).
  - apply (teardown_push (EvPrint "Test Complete - Final Report") w).
    reflexivity.
  - exact (run_phase_silent _ _ _ _ _ Hrun).
Qed.

Lemma final_report_fails_when_nothing_sent_witness :
  let env := Sample.environment [Sample.failing; Sample.stopping] None in
  let self := Sample.tester 30 false in
  let w0 := snd (main_init env (Sample.args 2 30) boot) in
  exists msg w',
    start env self w0 = (Raised (Exception (ZeroDivisionError msg)), w') /\
    teardown (w_trace w') = teardown (w_trace w0).
Proof.
  intros env self w0.
  apply (final_report_fails_when_nothing_sent env self w0
           (snd (run_phase env self w0))).
  - reflexivity.
  - vm_compute. reflexivity.
  - vm_compute. reflexivity.
Defined.

(** The whole program on that input: two workers, every [sendto] fails,
    nobody interrupts.  [main] ends in its handler for [Exception] with
    exit status 1; there is no report and the two sockets stay open. *)
Example all_sends_fail_run :
  let out := main (Sample.environment [Sample.failing; Sample.stopping] None)
                  (Sample.args 2 30) boot in
  fst out = Raised (SystemExit 1) /\
  last (w_trace (snd out)) = Some (EvPrint "Fatal error: division by zero") /\
  udp_sockets (w_trace (snd out)) = [0; 1]%nat /\
  teardown (w_trace (snd out)) = [] /\
  packets_sent (w_stats (snd out)) = 0 /\
  failed_attempts (w_stats (snd out)) = 2.
Proof. vm_compute. repeat split. Qed.

(** For comparison, the same two workers when every [sendto] returns:
    [main] returns, the report counts both packets and both sockets are
    closed. *)
Example normal_run :
  let out := main (Sample.environment [Sample.sending; Sample.stopping] None)
                  (Sample.args 2 30) boot in
  fst out = Return tt /\
  (total_packets <$> final_metrics 102 (w_stats (snd out))) = Ok 2 /\
  Qred <$> (success_percentage <$> final_metrics 102 (w_stats (snd out)))
    = Ok 100%Q /\
  Qred <$> (avg_response_ms <$> final_metrics 102 (w_stats (snd out)))
    = Ok 1%Q /\
  length (filter (fun ev => is_report ev) (w_trace (snd out))) = 1%nat /\
  closed_sockets (w_trace (snd out)) = [0; 1]%nat.
Proof. vm_compute. repeat split. Qed.

(** ** Interruption *)

(** A report or a closed socket shows that the run phase returned. *)
Lemma teardown_only_after_run (env : environment) (self : DragonNetworkTester)
    (w1 w' : world) (r : mresult unit) :
  start env self w1 = (r, w') ->
  teardown (w_trace w') <> teardown (w_trace w1) ->
  exists w2, run_phase env self w1 = (Return tt, w2).
Proof.
  unfold start. intros Hstart Hdiff.
  destruct (run_phase env self w1) as [[[]|e|] w2] eqn:Hrun.
  - now exists w2.
  - rewrite (bind_Raised _ _ _ _ _ Hrun) in Hstart.
    injection Hstart as <- <-.
    contradiction (Hdiff (run_phase_silent _ _ _ _ _ Hrun)).
  - rewrite (bind_Blocked _ _ _ _ Hrun) in Hstart.
    injection Hstart as <- <-.
    contradiction (Hdiff (run_phase_silent _ _ _ _ _ Hrun)).
Qed.

(** C7, as the code has it.  The report and the closing of the sockets
    come only after the run phase of [start] has returned.  When a
    [KeyboardInterrupt] leaves the run phase, [start] ends there, [main]
    prints "Test interrupted by user" and exits with status 0: no report
    has been printed and no socket closed. *)
Theorem interrupt_skips_teardown (env : environment) (a : arguments)
    (self : DragonNetworkTester) (w0 w1 : world) :
  main_init env a w0 = (Return self, w1) ->
  (forall w,
     run_phase env self w1 = (Raised KeyboardInterrupt, w) ->
     start env self w1 = (Raised KeyboardInterrupt, w) /\
     main env a w0 =
       (Raised (SystemExit 0),
        bump (push (EvPrint "Test interrupted by user") w)) /\
     teardown (w_trace (bump (push (EvPrint "Test interrupted by user") w))) =
       teardown (w_trace w0)) /\
  (forall r w',
     start env self w1 = (r, w') ->
     teardown (w_trace w') <> teardown (w_trace w1) ->
     exists w2, run_phase env self w1 = (Return tt, w2)).
Proof.
  intros Hinit. split; [|intros r w'; apply teardown_only_after_run].
  intros w Hrun.
  assert (Hstart : start env self w1 = (Raised KeyboardInterrupt, w)).
  { unfold start. now rewrite (bind_Raised _ _ _ _ _ Hrun). }
  split; [exact Hstart|]. split.
  - unfold main, try_except, main_try.
    rewrite (bind_run _ _ _ _ _ Hinit), Hstart.
    unfold mbind, M_bind, act, raise.
    rewrite (consumed_not_interrupted env w (run_phase_consumes _ _ _ _ Hrun)).
    reflexivity.
  - transitivity (teardown (w_trace w)).
    + apply (teardown_push (EvPrint "Test interrupted by user") w). reflexivity.
    + transitivity (teardown (w_trace w1)).
      * exact (run_phase_silent _ _ _ _ _ Hrun).
      * exact (main_init_silent _ _ _ _ _ Hinit).
Qed.

Lemma interrupt_skips_teardown_witness :
  let env := Sample.environment [Sample.sending; Sample.stopping] (Some 22%nat) in
  let a := Sample.args 2 30 in
  let w1 := snd (main_init env a boot) in
  let w := snd (run_phase env (Sample.tester 30 false) w1) in
  main env a boot =
    (Raised (SystemExit 0), bump (push (EvPrint "Test interrupted by user") w)) /\
  teardown (w_trace (bump (push (EvPrint "Test interrupted by user") w))) =
    teardown (w_trace boot).
Proof.
  intros env a w1 w.
  destruct (interrupt_skips_teardown env a (Sample.tester 30 false) boot w1)
    as [Hint _].
  - vm_compute. reflexivity.
  - destruct (Hint w) as (_ & Hmain & Hsilent).
    + vm_compute. reflexivity.
    + split; [exact Hmain | exact Hsilent].
Defined.

(** C7, as stated, fails.  Ctrl-C while [start] waits for the workers,
    after the stop signal: [main] exits with status 0; the two sockets the
    constructor allocated have not been closed and no report has been
    printed. *)
Lemma interrupted_run_no_teardown :
  let out :=
    main (Sample.environment [Sample.sending; Sample.stopping] (Some 22%nat))
         (Sample.args 2 30) boot in
  fst out = Raised (SystemExit 0) /\
  last (w_trace (snd out)) = Some (EvPrint "Test interrupted by user") /\
  udp_sockets (w_trace (snd out)) = [0; 1]%nat /\
  filter (fun ev => is_report ev) (w_trace (snd out)) = [] /\
  closed_sockets (w_trace (snd out)) = [].
Proof. vm_compute. repeat split. Qed.

(** Ctrl-C during [time.sleep(self.duration)]: the stop signal is never
    set, so the exit of the [with ThreadPoolExecutor] block waits for
    workers that do not return; again no report and no socket closed. *)
Example interrupt_during_sleep_blocks :
  let out :=
    main (Sample.environment [Sample.sending; Sample.stopping] (Some 20%nat))
         (Sample.args 2 30) boot in
  fst out = Blocked /\
  last (w_trace (snd out)) = Some (EvThreadStarted "progress") /\
  w_stop_event (snd out) = false /\
  udp_sockets (w_trace (snd out)) = [0; 1]%nat /\
  teardown (w_trace (snd out)) = [].
Proof. vm_compute. repeat split. Qed.

(* ===================================================================== *)
(** * Further properties of the code *)
(* ===================================================================== *)

(** ** Validation *)

(** [validate_input] accepts exactly a non-empty address, a port in
    [0, 65535] and a positive duration; anything else is a [ValueError],
    the address being checked before the port and the port before the
    duration. *)
Theorem validate_input_accepts (ip : string) (port duration : Z) :
  (validate_input ip port duration = Ok tt <->
     ip <> "" /\ 0 <= port <= 65535 /\ 0 < duration) /\
  (ip = "" ->
     validate_input ip port duration = Raise (ValueError "Invalid IP address")) /\
  (ip <> "" -> ~ 0 <= port <= 65535 ->
     validate_input ip port duration =
       Raise (ValueError "Port must be between 0 and 65535")) /\
  (ip <> "" -> 0 <= port <= 65535 -> duration <= 0 ->
     validate_input ip port duration =
       Raise (ValueError "Duration must be positive")).
Proof.
  unfold validate_input.
  destruct (String.eqb_spec ip "") as [Hip|Hip];
    destruct (Z.leb_spec 0 port); destruct (Z.leb_spec port 65535);
    destruct (Z.leb_spec duration 0); simpl;
    repeat split; intros; try discriminate; try reflexivity;
    try contradiction; try lia; intuition (try lia; try discriminate).
Qed.

Lemma validate_input_accepts_witness :
  validate_input "10.0.0.1" 70000 0 =
    Raise (ValueError "Port must be between 0 and 65535").
Proof.
  apply (validate_input_accepts "10.0.0.1" 70000 0).
  - discriminate.
  - lia.
Defined.

(** ** The final report *)

(** The report can be computed exactly when some time has passed since
    the statistics were created and at least one packet was sent; in
    every other case its computation raises [ZeroDivisionError]. *)
Theorem final_metrics_defined (now : Q) (st : NetworkStats) :
  ((exists metrics, final_metrics now st = Ok metrics) <->
     ~ (now == start_time st)%Q /\ packets_sent st <> 0) /\
  (forall e, final_metrics now st = Raise e ->
     exists msg, e = ZeroDivisionError msg).
Proof.
  unfold final_metrics, float_truediv, int_truediv, average_response,
    statistics_mean.
  assert (Hzero : Qeq_bool (now - start_time st) 0 = true <->
                  (now == start_time st)%Q).
  { rewrite Qeq_bool_iff. split; intros H.
    - rewrite <- (Qplus_0_l (start_time st)), <- H. ring.
    - rewrite H. ring. }
  destruct (Qeq_bool (now - start_time st) 0) eqn:Ediv; simpl.
  - split.
    + split; [intros [m Hm]; discriminate|].
      intros [Hne _]. contradiction Hne. now apply Hzero.
    + intros e [= <-]. eauto.
  - destruct (Z.eqb_spec (packets_sent st) 0) as [Hps|Hps]; simpl.
    + split.
      * split; [intros [m Hm]; discriminate | intros [_ Hne]; contradiction].
      * intros e [= <-]. eauto.
    + assert (Hne : ~ (now == start_time st)%Q).
      { intros H. apply Hzero in H. discriminate. }
      destruct (response_times st) as [|x l]; simpl; split;
        try (split; [auto | eauto]); intros e; discriminate.
Qed.

(** With at least one packet sent, the percentage of the final report is
    [(sent - failed) / sent * 100]: it is negative exactly when failures
    outnumber the packets sent, which [success_rate] never is, and it is
    100, like [success_rate], when nothing failed. *)
Theorem report_percentage_differs (now : Q) (st : NetworkStats) (m : report) :
  0 < packets_sent st -> 0 <= failed_attempts st ->
  final_metrics now st = Ok m ->
  (success_percentage m ==
     inject_Z (packets_sent st - failed_attempts st)
     / inject_Z (packets_sent st) * 100)%Q /\
  ((success_percentage m < 0)%Q <-> packets_sent st < failed_attempts st) /\
  (0 <= success_rate st)%Q /\
  (failed_attempts st = 0 ->
     (success_percentage m == 100)%Q /\ (success_rate st == 100)%Q).
Proof.
  intros Hsent Hfailed Hm.
  assert (Hpct : success_percentage m =
            ((1 - inject_Z (failed_attempts st) / inject_Z (packets_sent st))
             * 100)%Q).
  { revert Hm. unfold final_metrics, float_truediv, int_truediv.
    destruct (Qeq_bool _ _); [discriminate|]. simpl.
    destruct (Z.eqb_spec (packets_sent st) 0); [lia|]. simpl.
    destruct (average_response st); [|discriminate]. simpl.
    now intros [= <-]. }
  assert (Hrate : success_rate st =
            (inject_Z (packets_sent st)
             / inject_Z (packets_sent st + failed_attempts st) * 100)%Q).
  { unfold success_rate. cbv zeta.
    destruct (Z.gtb_spec (packets_sent st + failed_attempts st) 0);
      [reflexivity | lia]. }
  rewrite Hpct, Hrate. clear Hpct Hrate Hm.
  set (s := packets_sent st) in *. set (f := failed_attempts st) in *.
  assert (Hs : ~ (inject_Z s == 0)%Q).
  { unfold Qeq, inject_Z. simpl. lia. }
  assert (Hform : ((1 - inject_Z f / inject_Z s) * 100 ==
                   inject_Z (s - f) / inject_Z s * 100)%Q).
  { unfold Zminus. rewrite inject_Z_plus, inject_Z_opp. field. auto. }
  split; [exact Hform|]. split; [|split].
  - rewrite Hform. unfold Qlt, Qdiv, Qmult, Qinv, inject_Z. simpl.
    destruct s as [|p|p] eqn:Es; try lia. simpl. nia.
  - unfold Qle, Qdiv, Qmult, Qinv, inject_Z. simpl.
    destruct (s + f) as [|q|q] eqn:Esf; try lia. simpl. nia.
  - intros Hzero. rewrite Hform. clear Hform Hs. rewrite Hzero.
    rewrite Z.sub_0_r, Z.add_0_r.
    unfold Qeq, Qdiv, Qmult, Qinv, inject_Z. simpl.
    destruct s as [|p|p] eqn:Es; try lia. simpl. split; nia.
Qed.

Lemma report_percentage_differs_witness :
  exists m,
    final_metrics 102 (mkNetworkStats 1 30 3 0 100 [1 # 1000]%Q [30]) = Ok m /\
    (success_percentage m < 0)%Q.
Proof.
  eexists. split.
  - vm_compute. reflexivity.
  - apply (report_percentage_differs 102
             (mkNetworkStats 1 30 3 0 100 [1 # 1000]%Q [30])); simpl.
    + lia.
    + lia.
    + vm_compute. reflexivity.
    + lia.
Defined.

(** ** [main] and [_cleanup] *)

(** No [Exception] leaves [main]: whatever the try block raises, [main]
    returns, exits, is interrupted or waits. *)
Theorem main_contains_exceptions (env : environment) (a : arguments)
    (w : world) (e : exception) :
  fst (main env a w) <> Raised (Exception e).
Proof.
  unfold main, try_except.
  destruct (main_try env a w) as [[[]|[e'| |code]|] w1]; simpl;
    try discriminate;
    unfold mbind, M_bind, act, raise;
    destruct (interrupted env w1); simpl; discriminate.
Qed.

(** When the try block of [main] raises an [Exception] and no Ctrl-C
    arrives, [main] prints the message of the exception and exits with
    status 1. *)
Theorem main_exits_1_on_exception (env : environment) (a : arguments)
    (w w1 : world) (e : exception) :
  interrupt_at env = None ->
  main_try env a w = (Raised (Exception e), w1) ->
  main env a w =
    (Raised (SystemExit 1), bump (push (EvPrint ("Fatal error: " +:+ str e)) w1)).
Proof.
  intros Hint Hbody. unfold main, try_except. rewrite Hbody.
  unfold mbind, M_bind, raise. rewrite (act_run env Hint). reflexivity.
Qed.

Lemma main_exits_1_on_exception_witness :
  let env := Sample.environment [] None in
  let a := mkArguments "10.0.0.1" 80 0 4 1024 65507 false in
  main env a boot =
    (Raised (SystemExit 1),
     bump (push (EvPrint "Fatal error: Duration must be positive")
                (snd (main_try env a boot)))).
Proof.
  intros env a.
  apply (main_exits_1_on_exception env a boot (snd (main_try env a boot))
           (ValueError "Duration must be positive")).
  - reflexivity.
  - vm_compute. reflexivity.
Defined.

Lemma close_step (env : environment) (sock : socket) (w : world) :
  interrupt_at env = None ->
  try_except (fallible env (close_error env sock) (EvSocketClosed sock))
             (fun _ => Some (mret tt)) w =
  (Return tt,
   match close_error env sock with
   | Some _ => bump w
   | None => bump (push (EvSocketClosed sock) w)
   end).
Proof.
  intros Hint. unfold try_except, fallible.
  destruct (close_error env sock) as [e|].
  - unfold mbind, M_bind, raise. rewrite (tick_run env Hint). reflexivity.
  - rewrite (act_run env Hint). reflexivity.
Qed.

Lemma cleanup_sockets_run (env : environment) (socks : list socket) :
  interrupt_at env = None ->
  forall w, exists w',
    for_each socks (fun sock =>
      try_except (fallible env (close_error env sock) (EvSocketClosed sock))
                 (fun _ => Some (mret tt))) w = (Return tt, w') /\
    closed_sockets (w_trace w') =
      closed_sockets (w_trace w)
      ++ filter (fun sock => close_error env sock = None) socks /\
    filter (fun ev => is_report ev) (w_trace w') =
      filter (fun ev => is_report ev) (w_trace w) /\
    w_stats w' = w_stats w /\ w_stop_event w' = w_stop_event w.
Proof.
  intros Hint. induction socks as [|sock socks IH]; intros w.
  - exists w. simpl. rewrite app_nil_r. auto.
  - cbn [for_each]. rewrite (bind_run _ _ _ _ _ (close_step env sock w Hint)).
    rewrite filter_cons.
    destruct (close_error env sock) as [e|] eqn:Eclose.
    + destruct (IH (bump w)) as (w' & Hrun & Hclosed & Hrep & Hst & Hstop).
      exists w'. split; [exact Hrun|]. rewrite Hclosed, Hrep, Hst, Hstop.
      rewrite decide_False by discriminate. auto.
    + destruct (IH (bump (push (EvSocketClosed sock) w)))
        as (w' & Hrun & Hclosed & Hrep & Hst & Hstop).
      exists w'. split; [exact Hrun|]. rewrite Hclosed, Hrep, Hst, Hstop.
      rewrite decide_True by reflexivity. simpl.
      unfold closed_sockets. rewrite omap_app, filter_app. simpl.
      rewrite <- app_assoc, app_nil_r. auto.
Qed.

(** [_cleanup] tries to close every socket, in order, and goes on when a
    [close] raises: without Ctrl-C it returns, having closed exactly the
    sockets whose [close] did not fail, and then logs its message. *)
Theorem cleanup_closes_what_it_can (env : environment)
    (self : DragonNetworkTester) (w : world) :
  interrupt_at env = None ->
  exists w',
    _cleanup env self w = (Return tt, w') /\
    closed_sockets (w_trace w') =
      closed_sockets (w_trace w)
      ++ filter (fun sock => close_error env sock = None) (sockets self) /\
    last (w_trace w') =
      Some (EvLogInfo "Network test completed and resources cleaned up").
Proof.
  intros Hint. unfold _cleanup.
  destruct (cleanup_sockets_run env (sockets self) Hint w)
    as (w1 & Hrun & Hclosed & _ & _ & _).
  rewrite (bind_run _ _ _ _ _ Hrun), (act_run env Hint).
  eexists. split; [reflexivity|]. simpl. split.
  - unfold closed_sockets in *. rewrite omap_app, Hclosed. simpl.
    now rewrite app_nil_r.
  - apply last_snoc.
Qed.

Lemma cleanup_closes_what_it_can_witness :
  exists w',
    _cleanup (mkEnvironment None None (fun _ => None) (fun _ => None) None
                (fun sock => if Nat.eqb sock 1 then Some (OSError "EBADF") else None)
                100 102 (fun _ => []) [])
             (mkTester ("10.0.0.1", 80) 2 3 30 65507 false [0; 1; 2]%nat) boot
      = (Return tt, w') /\
    closed_sockets (w_trace w') = [0; 2]%nat.
Proof.
  destruct (cleanup_closes_what_it_can
              (mkEnvironment None None (fun _ => None) (fun _ => None) None
                 (fun sock => if Nat.eqb sock 1 then Some (OSError "EBADF") else None)
                 100 102 (fun _ => []) [])
              (mkTester ("10.0.0.1", 80) 2 3 30 65507 false [0; 1; 2]%nat) boot)
    as (w' & Hrun & Hclosed & _).
  - reflexivity.
  - exists w'. split; [exact Hrun | exact Hclosed].
Defined.

(** A Ctrl-C that arrives while a socket is being closed is swallowed by
    the bare [except:]: the socket is skipped and [_cleanup] goes on to
    the next one. *)
Theorem cleanup_swallows_interrupt (env : environment) (sock : socket)
    (rest : list socket) (self : DragonNetworkTester) (w : world) :
  interrupted env w = true ->
  sockets self = sock :: rest ->
  _cleanup env self w =
  (for_each rest (fun sock =>
     try_except (fallible env (close_error env sock) (EvSocketClosed sock))
                (fun _ => Some (mret tt)));;
   act env (EvLogInfo "Network test completed and resources cleaned up"))
    (bump w).
Proof.
  intros Hint Hsocks. unfold _cleanup. rewrite Hsocks. cbn [for_each].
  assert (Hclose :
    try_except (fallible env (close_error env sock) (EvSocketClosed sock))
               (fun _ => Some (mret tt)) w = (Return tt, bump w)).
  { unfold try_except, fallible.
    destruct (close_error env sock) as [e|].
    - unfold mbind, M_bind, tick. rewrite Hint. reflexivity.
    - unfold act. rewrite Hint. reflexivity. }
  unfold mbind at 1, M_bind at 1. unfold mbind at 1, M_bind at 1.
  rewrite Hclose. reflexivity.
Qed.

Lemma cleanup_swallows_interrupt_witness :
  let env := Sample.environment [] (Some 0%nat) in
  closed_sockets (w_trace (snd (_cleanup env (Sample.tester 30 false) boot)))
    = [1%nat] /\
  _cleanup env (Sample.tester 30 false) boot =
  (for_each [1%nat] (fun sock =>
     try_except (fallible env (close_error env sock) (EvSocketClosed sock))
                (fun _ => Some (mret tt)));;
   act env (EvLogInfo "Network test completed and resources cleaned up"))
    (bump boot).
Proof.
  intros env. split; [vm_compute; reflexivity|].
  apply (cleanup_swallows_interrupt env 0%nat [1%nat]
           (Sample.tester 30 false) boot).
  - reflexivity.
  - reflexivity.
Defined.

(** ** The constructor: the probe and the sockets *)

(** The reachability probe never makes the constructor fail: when the
    connection attempt raises, a warning with the error's text is logged,
    the probe socket is left unclosed, and the constructor goes on. *)
Theorem probe_failure_is_not_fatal (env : environment) (w : world)
    (e : exception) :
  interrupt_at env = None ->
  probe_error env = Some e ->
  _check_target_availability env w =
    (Return tt,
     mkWorld (w_trace w
              ++ [EvProbeSocket;
                  EvLogWarning ("Target may be unreachable: " +:+ str e)])
             (w_clock w + 3) (w_stop_event w) (w_pool w) (w_stats w)).
Proof.
  intros Hint Hprobe.
  unfold _check_target_availability, try_except, fallible.
  rewrite Hprobe. unfold mbind, M_bind, raise, act, tick.
  repeat (rewrite (interrupted_None env Hint); simpl).
  unfold bump, push. simpl. rewrite <- app_assoc.
  replace (S (S (S (w_clock w)))) with (w_clock w + 3)%nat by lia.
  reflexivity.
Qed.

Lemma probe_failure_is_not_fatal_witness :
  _check_target_availability
    (mkEnvironment None None (fun _ => None) (fun _ => None)
       (Some (OSError "Connection refused")) (fun _ => None)
       100 102 (fun _ => []) []) boot =
  (Return tt,
   mkWorld [EvProbeSocket;
            EvLogWarning "Target may be unreachable: Connection refused"]
           3 false NoPool (__post_init__ 0)).
Proof.
  apply (probe_failure_is_not_fatal
           (mkEnvironment None None (fun _ => None) (fun _ => None)
              (Some (OSError "Connection refused")) (fun _ => None)
              100 102 (fun _ => []) []) boot (OSError "Connection refused")).
  - reflexivity.
  - reflexivity.
Defined.

Lemma setup_sockets_from_fails (env : environment) (e : exception) :
  interrupt_at env = None ->
  forall (before : list nat) (k : nat) (after : list nat) (acc : list socket)
         (w : world),
    (forall i, i ∈ before -> socket_error env i = None) ->
    (forall i, i ∈ before -> setsockopt_error env i = None) ->
    socket_error env k = Some e ->
    exists w',
      _setup_sockets_from env (before ++ k :: after) acc w =
        (Raised (Exception e), w') /\
      udp_sockets (w_trace w') = udp_sockets (w_trace w) ++ before /\
      closed_sockets (w_trace w') = closed_sockets (w_trace w).
Proof.
  intros Hint before. induction before as [|i before IH];
    intros k after acc w Hsock Hopt Hk; simpl.
  - rewrite Hk. unfold fallible, mbind, M_bind, raise.
    rewrite (tick_run env Hint). eexists. split; [reflexivity|].
    simpl. rewrite app_nil_r. auto.
  - rewrite (Hsock i), (Hopt i) by (left). unfold fallible.
    rewrite (bind_run _ _ _ _ _ (act_run env Hint _ _)).
    rewrite (bind_run _ _ _ _ _ (act_run env Hint _ _)).
    destruct (IH k after (acc ++ [i])
                (bump (push (EvConfigured i) (bump (push (EvUdpSocket i) w)))))
      as (w' & Hrun & Hudp & Hclosed).
    + intros j Hj. apply Hsock. now right.
    + intros j Hj. apply Hopt. now right.
    + exact Hk.
    + exists w'. split; [exact Hrun|]. rewrite Hudp, Hclosed. simpl.
      unfold udp_sockets, closed_sockets. rewrite !omap_app. simpl.
      rewrite !app_nil_r, <- app_assoc. auto.
Qed.

(** When the allocation of the socket number [k] fails, the constructor
    raises that error; the [k] sockets allocated before it are not
    closed, and no tester is returned that could close them. *)
Theorem socket_failure_leaks (env : environment) (a : arguments) (w : world)
    (k : nat) (e : exception) :
  validate_input (arg_ip a) (arg_port a) (arg_duration a) = Ok tt ->
  interrupt_at env = None ->
  logging_error env = None ->
  (forall i, (i < k)%nat -> socket_error env i = None) ->
  (forall i, (i < k)%nat -> setsockopt_error env i = None) ->
  socket_error env k = Some e ->
  Z.of_nat k < Z.min (arg_threads a) 500 ->
  exists w',
    __init__ env a w = (Raised (Exception e), w') /\
    udp_sockets (w_trace w') = udp_sockets (w_trace w) ++ seq 0 k /\
    closed_sockets (w_trace w') = closed_sockets (w_trace w).
Proof.
  intros Hv Hint Hlog Hsock Hopt Hk Hlt.
  rewrite (init_unfold _ _ _ Hv).
  unfold _setup_logging, fallible at 1. rewrite Hlog.
  rewrite (bind_run _ _ _ _ _ (act_run env Hint _ _)).
  unfold _setup_sockets, range.
  set (n := Z.to_nat (Z.min (arg_threads a) 500)).
  assert (Hsplit : seq 0 n = seq 0 k ++ k :: seq (S k) (n - S k)).
  { replace n with (k + S (n - S k))%nat at 1 by lia.
    rewrite seq_app. reflexivity. }
  rewrite Hsplit.
  destruct (setup_sockets_from_fails env e Hint (seq 0 k) k
              (seq (S k) (n - S k)) []
              (bump (push EvLoggingConfigured (new_objects (time_at_init env) w))))
    as (w' & Hrun & Hudp & Hclosed).
  - intros i Hi%elem_of_seq. apply Hsock. lia.
  - intros i Hi%elem_of_seq. apply Hopt. lia.
  - exact Hk.
  - exists w'. rewrite (bind_Raised _ _ _ _ _ Hrun). split; [reflexivity|].
    rewrite Hudp, Hclosed. simpl. unfold udp_sockets, closed_sockets.
    rewrite !omap_app. simpl. rewrite !app_nil_r. auto.
Qed.

Lemma socket_failure_leaks_witness :
  exists w',
    __init__ (mkEnvironment None None
                (fun i => if Nat.eqb i 2 then Some (OSError "Too many open files")
                          else None)
                (fun _ => None) None (fun _ => None) 100 102 (fun _ => []) [])
             (Sample.args 4 1024) boot
      = (Raised (Exception (OSError "Too many open files")), w') /\
    udp_sockets (w_trace w') = [0; 1]%nat /\
    closed_sockets (w_trace w') = [].
Proof.
  apply (socket_failure_leaks
           (mkEnvironment None None
              (fun i => if Nat.eqb i 2 then Some (OSError "Too many open files")
                        else None)
              (fun _ => None) None (fun _ => None) 100 102 (fun _ => []) [])
           (Sample.args 4 1024) boot 2%nat (OSError "Too many open files")).
  - reflexivity.
  - reflexivity.
  - reflexivity.
  - intros i Hi. simpl. destruct (Nat.eqb_spec i 2); [lia | reflexivity].
  - reflexivity.
  - reflexivity.
  - simpl. lia.
Defined.

(** ** The worker after the stop signal *)

(** Once a worker has observed the stop signal it returns: nothing that
    could be observed afterwards has any effect on the statistics or on
    the network. *)
Theorem nothing_after_stop (self : DragonNetworkTester) (socket_id : nat)
    (sock : socket) (before after : list iter_env) (s : iter_env)
    (sh : shared) :
  sockets self !! socket_id = Some sock ->
  stop_is_set s = true ->
  _send_packets self socket_id (before ++ s :: after) sh =
  (Stopped, snd (_send_packets self socket_id (before ++ [s]) sh)).
Proof.
  intros Hsock Hstop. unfold _send_packets. rewrite Hsock.
  generalize fresh_regs as r. revert sh.
  induction before as [|env before IH]; intros sh r; simpl.
  - rewrite Hstop. reflexivity.
  - destruct (stop_is_set env); [reflexivity|].
    destruct (loop_body_alone self sock socket_id env r sh)
      as (r' & sh' & -> & _).
    apply IH.
Qed.

Lemma nothing_after_stop_witness :
  _send_packets (Sample.tester 30 false) 1
    ([Sample.sending] ++ Sample.stopping :: [Sample.sending; Sample.failing])
    (mkShared (__post_init__ 0) [] []) =
  (Stopped,
   snd (_send_packets (Sample.tester 30 false) 1
          ([Sample.sending] ++ [Sample.stopping])
          (mkShared (__post_init__ 0) [] []))).
Proof.
  apply (nothing_after_stop (Sample.tester 30 false) 1 1%nat).
  - reflexivity.
  - reflexivity.
Defined.

(** ** [start]: the ways it ends *)

Lemma banner_run (env : environment) (w : world) :
  interrupt_at env = None ->
  _display_banner env w =
  (Return tt,
   bump (push (EvPrint "Version 1.0 - Enhanced Edition")
     (bump (push (EvPrint "DragonNetworkTester - Advanced Network Testing Suite")
        (bump (push (EvPrint BANNER) w)))))).
Proof.
  intros Hint. unfold _display_banner.
  rewrite (bind_run _ _ _ _ _ (act_run env Hint _ _)).
  rewrite (bind_run _ _ _ _ _ (act_run env Hint _ _)).
  apply act_run, Hint.
Qed.

(** A tester without workers, that the constructor accepts, makes
    [start] fail: the thread pool refuses [max_workers <= 0] with a
    [ValueError], after the monitor thread was started and before anything
    else; there is no report, no socket is closed, and the stop signal is
    never set for the monitor thread. *)
Theorem start_without_workers (env : environment)
    (self : DragonNetworkTester) (w : world) :
  interrupt_at env = None ->
  thread_count self <= 0 ->
  exists w',
    start env self w =
      (Raised (Exception (ValueError "max_workers must be greater than 0")), w') /\
    w_trace w' =
      w_trace w ++ [EvClear; EvPrint BANNER;
                    EvPrint "DragonNetworkTester - Advanced Network Testing Suite";
                    EvPrint "Version 1.0 - Enhanced Edition";
                    EvThreadStarted "monitor"] /\
    w_stop_event w' = w_stop_event w.
Proof.
  intros Hint Hcount.
  assert (Hrun : exists w',
    run_phase env self w =
      (Raised (Exception (ValueError "max_workers must be greater than 0")), w') /\
    w_trace w' =
      w_trace w ++ [EvClear; EvPrint BANNER;
                    EvPrint "DragonNetworkTester - Advanced Network Testing Suite";
                    EvPrint "Version 1.0 - Enhanced Edition";
                    EvThreadStarted "monitor"] /\
    w_stop_event w' = w_stop_event w).
  { unfold run_phase.
    rewrite (bind_run _ _ _ _ _ (act_run env Hint _ _)).
    rewrite (bind_run _ _ _ _ _ (banner_run env _ Hint)).
    rewrite (bind_run _ _ _ _ _ (act_run env Hint _ _)).
    unfold ThreadPoolExecutor.
    destruct (Z.leb_spec (thread_count self) 0) as [_|Hpos]; [|lia].
    unfold mbind, M_bind, raise. rewrite (tick_run env Hint). simpl.
    eexists. split; [reflexivity|]. simpl.
    rewrite <- !app_assoc. simpl. auto. }
  destruct Hrun as (w' & Hrun & Htrace & Hstop).
  exists w'. unfold start. rewrite (bind_Raised _ _ _ _ _ Hrun). auto.
Qed.

Lemma start_without_workers_witness :
  exists w',
    start (Sample.environment [] None)
          (mkTester ("10.0.0.1", 80) 2 (-3) 30 65507 false []) boot =
      (Raised (Exception (ValueError "max_workers must be greater than 0")), w') /\
    w_stop_event w' = false.
Proof.
  destruct (start_without_workers (Sample.environment [] None)
              (mkTester ("10.0.0.1", 80) 2 (-3) 30 65507 false []) boot)
    as (w' & Hrun & _ & Hstop).
  - reflexivity.
  - simpl. lia.
  - exists w'. split; [exact Hrun | exact Hstop].
Defined.

Lemma thread_step_alive (self : DragonNetworkTester) (t t' : thread)
    (sh sh' : shared) :
  thread_step self t sh = Some (t', sh') -> forall e, t_status t' <> Died e.
Proof.
  unfold thread_step. destruct (t_status t); try discriminate.
  destruct (t_code t) as [|i code].
  - destruct (t_todo t) as [|env todo]; [discriminate|].
    destruct (stop_is_set env); intros [= <- <-] e; discriminate.
  - destruct (exec_instr i (t_regs t) sh) as [[r1 sh1]|]; [|discriminate].
    intros [= <- <-] e; discriminate.
Qed.

Lemma run_alive (self : DragonNetworkTester) (sched : list nat) :
  forall m : machine,
    Forall (fun t => forall e, t_status t <> Died e) (threads m) ->
    Forall (fun t => forall e, t_status t <> Died e)
           (threads (run self sched m)).
Proof.
  unfold run. induction sched as [|tid sched IH]; intros m Hm; simpl; [exact Hm|].
  apply IH. unfold step.
  destruct (threads m !! tid) as [t|] eqn:Et; [|exact Hm].
  destruct (thread_step self t (mem m)) as [[t' sh']|] eqn:Estep; [|exact Hm].
  simpl. apply Forall_insert; [exact Hm|].
  exact (thread_step_alive _ _ _ _ _ Estep).
Qed.

Lemma pool_alive (self : DragonNetworkTester) (obs : nat -> list iter_env)
    (st : NetworkStats) :
  (Z.to_nat (thread_count self) <= length (sockets self))%nat ->
  Forall (fun t => forall e, t_status t <> Died e) (threads (pool self obs st)).
Proof.
  intros Hlen. unfold pool. simpl. apply Forall_map, Forall_forall.
  intros i Hi%elem_of_seq. unfold spawn.
  destruct (lookup_lt_is_Some_2 (sockets self) i) as [sock ->]; [lia|].
  simpl. discriminate.
Qed.

Section Completion.

Variable env : environment.
Hypothesis no_interrupt : interrupt_at env = None.
Variable self : DragonNetworkTester.

Lemma submit_loop (ids : list nat) :
  ids <> [] ->
  forall w, exists w',
    for_each ids (fun i => act env (EvSubmit i);; modify (set_pool Active)) w =
      (Return tt, w') /\
    w_pool w' = Active /\ w_stats w' = w_stats w /\
    w_stop_event w' = w_stop_event w.
Proof.
  induction ids as [|i ids IH]; [contradiction|]. intros _ w.
  cbn [for_each].
  rewrite (bind_run _ _ _ _ _
             (bind_run _ _ _ _ _ (act_run env no_interrupt _ _))).
  unfold modify at 1.
  destruct ids as [|j ids].
  - simpl. eexists. split; [reflexivity|]. auto.
  - destruct (IH ltac:(discriminate)
                (set_pool Active (bump (push (EvSubmit i) w))))
      as (w' & Hrun & Hpool & Hst & Hstop).
    exists w'. split; [exact Hrun|]. rewrite Hst, Hstop. auto.
Qed.

Variable m : machine.
Hypothesis alive : Forall (fun t => forall e, t_status t <> Died e) (threads m).

Lemma no_exception_to_raise (i : nat) (w : world) :
  match t_status <$> threads m !! i with
  | Some (Died e) => raise (Exception e)
  | _ => mret tt
  end w = (Return tt, w).
Proof.
  destruct (threads m !! i) as [t|] eqn:Et; simpl; [|reflexivity].
  pose proof (Forall_lookup_1 _ _ _ _ alive Et) as Ht. simpl in Ht.
  destruct (t_status t) as [| |e] eqn:Est; try reflexivity.
  destruct (Ht e eq_refl).
Qed.

Lemma future_result_drained (i : nat) (w : world) :
  w_pool w = Drained m ->
  future_result env self i w = (Return tt, bump w).
Proof.
  intros Hpool. unfold future_result.
  rewrite (bind_run _ _ _ _ _ (tick_run env no_interrupt w)).
  assert (Hwait : wait_for_workers env self (bump w) = (Return tt, bump w)).
  { unfold wait_for_workers. simpl. now rewrite Hpool. }
  rewrite (bind_run _ _ _ _ _ Hwait).
  unfold mbind, M_bind, get. simpl. rewrite Hpool.
  apply no_exception_to_raise.
Qed.

Lemma join_loop_drained (ids : list nat) :
  forall w, w_pool w = Drained m ->
  exists w',
    for_each ids (future_result env self) w = (Return tt, w') /\
    w_pool w' = Drained m /\ w_stats w' = w_stats w /\
    w_stop_event w' = w_stop_event w.
Proof.
  induction ids as [|i ids IH]; intros w Hpool; cbn [for_each].
  - exists w. auto.
  - rewrite (bind_run _ _ _ _ _ (future_result_drained i w Hpool)).
    destruct (IH (bump w) Hpool) as (w' & Hrun & H1 & H2 & H3).
    exists w'. auto.
Qed.

Lemma future_result_active (i : nat) (w : world) :
  w_pool w = Active -> w_stop_event w = true ->
  m = run self (schedule env) (pool self (observations env) (w_stats w)) ->
  all_stopped m = true ->
  future_result env self i w =
    (Return tt, set_pool (Drained m) (set_stats (stats (mem m)) (bump w))).
Proof.
  intros Hpool Hstop Hm Hall. unfold future_result.
  rewrite (bind_run _ _ _ _ _ (tick_run env no_interrupt w)).
  assert (Hwait : wait_for_workers env self (bump w) =
            (Return tt, set_pool (Drained m) (set_stats (stats (mem m)) (bump w)))).
  { unfold wait_for_workers. simpl. rewrite Hpool, Hstop, <- Hm, Hall.
    reflexivity. }
  rewrite (bind_run _ _ _ _ _ Hwait).
  unfold mbind, M_bind, get. simpl.
  apply no_exception_to_raise.
Qed.

End Completion.

Lemma closed_of_teardown (tr : list mevent) :
  closed_sockets tr = closed_sockets (teardown tr).
Proof.
  unfold closed_sockets, teardown.
  induction tr as [|ev tr IH]; [reflexivity|].
  rewrite filter_cons.
  destruct ev; simpl; first [exact IH | f_equal; exact IH].
Qed.

Lemma reports_of_teardown (tr : list mevent) :
  filter (fun ev => is_report ev) tr =
  filter (fun ev => is_report ev) (teardown tr).
Proof.
  unfold teardown.
  induction tr as [|ev tr IH]; [reflexivity|].
  rewrite !filter_cons.
  destruct ev; simpl; rewrite ?filter_cons; simpl;
    first [exact IH | f_equal; exact IH].
Qed.

Lemma with_exit_run {A} (body : M A) (exit : M unit) (w w1 w2 : world) (a : A) :
  body w = (Return a, w1) -> exit w1 = (Return tt, w2) ->
  with_exit body exit w = (Return a, w2).
Proof. unfold with_exit. now intros -> ->. Qed.

Lemma with_exit_blocked {A} (body : M A) (exit : M unit) (w w1 : world) :
  body w = (Blocked, w1) -> with_exit body exit w = (Blocked, w1).
Proof. unfold with_exit. now intros ->. Qed.

Lemma range_positive (n : Z) :
  0 < n -> range n = 0%nat :: seq 1 (Z.to_nat n - 1).
Proof.
  intros Hn. unfold range.
  replace (Z.to_nat n) with (S (Z.to_nat n - 1)) at 1 by lia. reflexivity.
Qed.

(** The run phase up to the point where the main thread starts to wait
    for the workers. *)
Lemma run_phase_until_join (env : environment) (self : DragonNetworkTester)
    (w : world) (rest : M unit) :
  interrupt_at env = None ->
  0 < thread_count self ->
  exists w5,
    w_pool w5 = Active /\ w_stop_event w5 = true /\ w_stats w5 = w_stats w /\
    forall exit,
      (act env EvClear;;
       _display_banner env;;
       act env (EvThreadStarted "monitor");;
       ThreadPoolExecutor env (thread_count self);;
       with_exit
         (for_each (range (thread_count self)) (fun i =>
            act env (EvSubmit i);; modify (set_pool Active));;
          act env (EvThreadStarted "progress");;
          act env (EvSleepFor (duration self));;
          act env EvStopSet;;
          modify set_stop_event;;
          rest)
         exit) w =
      with_exit rest exit w5.
Proof.
  intros Hint Hpos.
  assert (Hne : range (thread_count self) <> []).
  { rewrite (range_positive _ Hpos). discriminate. }
  destruct (submit_loop env Hint (range (thread_count self)) Hne
              (set_pool NoPool
                 (bump (bump (push (EvThreadStarted "monitor")
                   (bump (push (EvPrint "Version 1.0 - Enhanced Edition")
                     (bump (push (EvPrint "DragonNetworkTester - Advanced Network Testing Suite")
                       (bump (push (EvPrint BANNER)
                         (bump (push EvClear w)))))))))))))
    as (w4 & Hsubmit & Hpool & Hstats & Hstop).
  eexists. split; [|split; [|split]]; cycle 3.
  - intros exit.
    rewrite (bind_run _ _ _ _ _ (act_run env Hint _ _)).
    rewrite (bind_run _ _ _ _ _ (banner_run env _ Hint)).
    rewrite (bind_run _ _ _ _ _ (act_run env Hint _ _)).
    assert (Hexec : forall w0,
      ThreadPoolExecutor env (thread_count self) w0 =
        (Return tt, set_pool NoPool (bump w0))).
    { intros w0. unfold ThreadPoolExecutor.
      rewrite (bind_run _ _ _ _ _ (tick_run env Hint w0)).
      destruct (Z.leb_spec (thread_count self) 0); [lia | reflexivity]. }
    rewrite (bind_run _ _ _ _ _ (Hexec _)).
    unfold with_exit.
    rewrite (bind_run _ _ _ _ _ Hsubmit).
    rewrite (bind_run _ _ _ _ _ (act_run env Hint _ _)).
    rewrite (bind_run _ _ _ _ _ (act_run env Hint _ _)).
    rewrite (bind_run _ _ _ _ _ (act_run env Hint _ _)).
    unfold mbind at 1, M_bind at 1, modify at 1.
    reflexivity.
  - simpl. exact Hpool.
  - reflexivity.
  - simpl. rewrite Hstats. reflexivity.
Qed.

(** When no Ctrl-C arrives, every worker returns, time has passed and at
    least one packet was counted, [start] returns: it has set the stop
    signal, printed one report computed from the statistics the workers
    left, and closed every socket whose [close] did not fail. *)
Theorem start_completes (env : environment) (self : DragonNetworkTester)
    (w : world) (metrics : report) :
  interrupt_at env = None ->
  0 < thread_count self ->
  (Z.to_nat (thread_count self) <= length (sockets self))%nat ->
  all_stopped (run self (schedule env)
                   (pool self (observations env) (w_stats w))) = true ->
  final_metrics (time_at_report env)
    (stats (mem (run self (schedule env)
                     (pool self (observations env) (w_stats w))))) = Ok metrics ->
  exists w',
    start env self w = (Return tt, w') /\
    w_stats w' =
      stats (mem (run self (schedule env)
                      (pool self (observations env) (w_stats w)))) /\
    w_stop_event w' = true /\
    filter (fun ev => is_report ev) (w_trace w') =
      filter (fun ev => is_report ev) (w_trace w) ++ [EvReport metrics] /\
    closed_sockets (w_trace w') =
      closed_sockets (w_trace w)
      ++ filter (fun sock => close_error env sock = None) (sockets self).
Proof.
  intros Hint Hpos Hlen.
  set (m := run self (schedule env) (pool self (observations env) (w_stats w))).
  intros Hall Hmetrics.
  assert (Halive : Forall (fun t => forall e, t_status t <> Died e) (threads m)).
  { apply run_alive, pool_alive, Hlen. }
  (* the run phase *)
  assert (Hphase : exists w1,
    run_phase env self w = (Return tt, w1) /\
    w_stats w1 = stats (mem m) /\ w_stop_event w1 = true).
  { destruct (run_phase_until_join env self w
                (for_each (range (thread_count self)) (future_result env self);;
                 act env (EvThreadJoined "progress");;
                 act env (EvThreadJoined "monitor")) Hint Hpos)
      as (w5 & Hpool & Hstop & Hstats & Hprefix).
    unfold run_phase. rewrite Hprefix. clear Hprefix.
    rewrite (range_positive _ Hpos). cbn [for_each].
    assert (Hm : m = run self (schedule env)
                     (pool self (observations env) (w_stats w5))).
    { now rewrite Hstats. }
    pose proof (future_result_active env Hint self m Halive 0%nat w5
                  Hpool Hstop Hm Hall) as Hfirst.
    destruct (join_loop_drained env Hint self m Halive
                (seq 1 (Z.to_nat (thread_count self) - 1))
                (set_pool (Drained m) (set_stats (stats (mem m)) (bump w5)))
                eq_refl)
      as (w7 & Hjoin & Hpool7 & Hstats7 & Hstop7).
    eexists. split.
    - eapply with_exit_run.
      + assert (Hall_joined :
          (future_result env self 0;;
           for_each (seq 1 (Z.to_nat (thread_count self) - 1))
                    (future_result env self)) w5 = (Return tt, w7)).
        { rewrite (bind_run _ _ _ _ _ Hfirst). exact Hjoin. }
        rewrite (bind_run _ _ _ _ _ Hall_joined).
        rewrite (bind_run _ _ _ _ _ (act_run env Hint _ _)).
        apply act_run, Hint.
      + unfold shutdown_wait, wait_for_workers. simpl. rewrite Hpool7.
        reflexivity.
    - simpl. rewrite Hstats7, Hstop7. simpl. auto. }
  destruct Hphase as (w1 & Hrun & Hstats1 & Hstop1).
  (* the report *)
  assert (Hreport : _display_final_report env w1 =
            (Return tt,
             bump (push (EvReport metrics)
                     (bump (push (EvPrint "Test Complete - Final Report") w1))))).
  { rewrite final_report_unfold, (interrupted_None env Hint). cbv zeta.
    rewrite Hstats1, Hmetrics. apply act_run, Hint. }
  (* the sockets *)
  destruct (cleanup_sockets_run env (sockets self) Hint
              (bump (push (EvReport metrics)
                 (bump (push (EvPrint "Test Complete - Final Report") w1)))))
    as (w2 & Hclose & Hclosed & Hreps & Hstats2 & Hstop2).
  eexists. split.
  - unfold start, _cleanup.
    rewrite (bind_run _ _ _ _ _ Hrun), (bind_run _ _ _ _ _ Hreport).
    rewrite (bind_run _ _ _ _ _ Hclose). apply act_run, Hint.
  - pose proof (run_phase_silent _ _ _ _ _ Hrun) as Hsilent.
    unfold same_teardown in Hsilent.
    simpl. rewrite Hstats2, Hstop2. simpl. split; [exact Hstats1|].
    split; [exact Hstop1|]. split.
    + rewrite filter_app, Hreps. simpl. rewrite !filter_app. simpl.
      rewrite !app_nil_r.
      rewrite (reports_of_teardown (w_trace w1)), Hsilent,
        <- reports_of_teardown.
      reflexivity.
    + unfold closed_sockets in *. rewrite omap_app, Hclosed. simpl.
      rewrite !omap_app. simpl. rewrite !app_nil_r.
      fold (closed_sockets (w_trace w1)). fold (closed_sockets (w_trace w)).
      rewrite (closed_of_teardown (w_trace w1)), Hsilent,
        <- closed_of_teardown.
      reflexivity.
Qed.

Lemma start_completes_witness :
  let env := Sample.environment [Sample.sending; Sample.stopping] None in
  let self := Sample.tester 30 false in
  let w := snd (main_init env (Sample.args 2 30) boot) in
  exists metrics w',
    start env self w = (Return tt, w') /\
    total_packets metrics = 2 /\
    filter (fun ev => is_report ev) (w_trace w') = [EvReport metrics] /\
    closed_sockets (w_trace w') = [0; 1]%nat.
Proof.
  intros env self w.
  assert (Hm : exists metrics,
    final_metrics (time_at_report env)
      (stats (mem (run self (schedule env)
                       (pool self (observations env) (w_stats w))))) = Ok metrics /\
    total_packets metrics = 2).
  { eexists. split; vm_compute; reflexivity. }
  destruct Hm as (metrics & Hm & Htotal).
  destruct (start_completes env self w metrics) as (w' & Hrun & _ & _ & Hrep & Hcl).
  - reflexivity.
  - simpl. lia.
  - simpl. lia.
  - vm_compute. reflexivity.
  - exact Hm.
  - exists metrics, w'. split; [exact Hrun|]. split; [exact Htotal|].
    split; [exact Hrep | exact Hcl].
Defined.

(** [start] waits for its workers without a time limit: when a worker
    never returns, [start] never does either, and neither the report nor
    the closing of the sockets takes place. *)
Theorem start_waits_for_workers (env : environment)
    (self : DragonNetworkTester) (w : world) :
  interrupt_at env = None ->
  0 < thread_count self ->
  all_stopped (run self (schedule env)
                   (pool self (observations env) (w_stats w))) = false ->
  exists w',
    start env self w = (Blocked, w') /\
    w_stop_event w' = true /\
    teardown (w_trace w') = teardown (w_trace w).
Proof.
  intros Hint Hpos Hall.
  assert (Hphase : exists w', run_phase env self w = (Blocked, w') /\
                              w_stop_event w' = true).
  { destruct (run_phase_until_join env self w
                (for_each (range (thread_count self)) (future_result env self);;
                 act env (EvThreadJoined "progress");;
                 act env (EvThreadJoined "monitor")) Hint Hpos)
      as (w5 & Hpool & Hstop & Hstats & Hprefix).
    unfold run_phase. rewrite Hprefix. clear Hprefix.
    rewrite (range_positive _ Hpos). cbn [for_each].
    assert (Hfirst : future_result env self 0 w5 = (Blocked, bump w5)).
    { unfold future_result.
      rewrite (bind_run _ _ _ _ _ (tick_run env Hint w5)).
      apply bind_Blocked. unfold wait_for_workers. simpl.
      rewrite Hpool, Hstop, Hstats, Hall. reflexivity. }
    exists (bump w5). split; [|exact Hstop].
    apply with_exit_blocked.
    apply bind_Blocked, bind_Blocked, Hfirst. }
  destruct Hphase as (w' & Hrun & Hstop).
  exists w'. unfold start. rewrite (bind_Blocked _ _ _ _ Hrun).
  split; [reflexivity|]. split; [exact Hstop|].
  exact (run_phase_silent _ _ _ _ _ Hrun).
Qed.

Lemma start_waits_for_workers_witness :
  let env := Sample.environment [Sample.sending; Sample.sending] None in
  let self := Sample.tester 30 false in
  let w := snd (main_init env (Sample.args 2 30) boot) in
  exists w',
    start env self w = (Blocked, w') /\
    w_stop_event w' = true /\
    teardown (w_trace w') = teardown (w_trace w).
Proof.
  intros env self w.
  apply (start_waits_for_workers env self w).
  - reflexivity.
  - simpl. lia.
  - vm_compute. reflexivity.
Defined.

(** ** The enhanced packet *)

Lemma byte_of_value (z : Z) :
  0 <= z < 256 -> Z.of_N (Byte.to_N (Enhanced.byte_of z)) = z.
Proof.
  intros Hz. unfold Enhanced.byte_of.
  destruct (Byte.of_N (Z.to_N z)) as [b|] eqn:Eb; simpl.
  - apply Strings.Byte.to_of_N in Eb. rewrite Eb. lia.
  - apply Strings.Byte.of_N_None_iff in Eb. lia.
Qed.

Lemma length_big_endian (n : nat) : forall x,
  length (Enhanced.big_endian n x) = n.
Proof.
  induction n as [|n IH]; intros x; simpl; [reflexivity|].
  rewrite length_app, IH. simpl. lia.
Qed.

Lemma from_bytes_snoc (l : list Byte.byte) (b : Byte.byte) :
  Enhanced.from_bytes (l ++ [b]) =
  Enhanced.from_bytes l * 256 + Z.of_N (Byte.to_N b).
Proof. unfold Enhanced.from_bytes. now rewrite foldl_app. Qed.

Lemma from_bytes_big_endian (n : nat) : forall x,
  0 <= x < 256 ^ Z.of_nat n ->
  Enhanced.from_bytes (Enhanced.big_endian n x) = x.
Proof.
  induction n as [|n IH]; intros x Hx.
  - simpl in *. unfold Enhanced.from_bytes. simpl. lia.
  - cbn [Enhanced.big_endian]. rewrite from_bytes_snoc.
    rewrite Nat2Z.inj_succ, Z.pow_succ_r in Hx by lia.
    rewrite IH, byte_of_value.
    + pose proof (Z.div_mod x 256). lia.
    + apply Z.mod_pos_bound. lia.
    + split; [apply Z.div_pos; lia|].
      apply Z.div_lt_upper_bound; lia.
Qed.

Lemma to_bytes_fits (x : Z) (n : nat) :
  0 <= x < 256 ^ Z.of_nat n ->
  Enhanced.to_bytes x n = inr (Enhanced.big_endian n x).
Proof.
  intros Hx. unfold Enhanced.to_bytes.
  destruct (Z.ltb_spec x 0); [lia|].
  destruct (Z.leb_spec (256 ^ Z.of_nat n) x); [lia | reflexivity].
Qed.

(** An enhanced packet has exactly the configured size, for a size of at
    least 24, a clock that is not negative and a packet count below
    [2^64]; its first three fields of 8 bytes read back, big-endian, as
    the time in whole seconds, the current value of [packets_sent] and
    the random flag byte. *)
Theorem enhanced_packet_fields (self : DragonNetworkTester)
    (st : NetworkStats) (now : Q) (rnd : random_source) :
  24 <= packet_size self ->
  0 <= Enhanced.int_of_float now < 2 ^ 64 ->
  0 <= packets_sent st < 2 ^ 64 ->
  exists bytes,
    Enhanced._generate_enhanced_packet self st now rnd = Enhanced.Packet bytes /\
    len bytes = packet_size self /\
    Enhanced.from_bytes (take 8 bytes) = Enhanced.int_of_float now /\
    Enhanced.from_bytes (take 8 (drop 8 bytes)) = packets_sent st /\
    Enhanced.from_bytes (take 8 (drop 16 bytes)) =
      Z.of_N (Byte.to_N (rnd 0%nat)) /\
    drop 24 bytes = draw rnd 1 (Z.to_nat (packet_size self - 24)).
Proof.
  intros Hsize Hnow Hsent.
  assert (Hflag : 0 <= Z.of_N (Byte.to_N (rnd 0%nat)) < 256 ^ Z.of_nat 8).
  { pose proof (Strings.Byte.to_N_bounded (rnd 0%nat)).
    change (256 ^ Z.of_nat 8) with 18446744073709551616. lia. }
  change (2 ^ 64) with (256 ^ Z.of_nat 8) in Hnow, Hsent.
  unfold Enhanced._generate_enhanced_packet.
  rewrite (to_bytes_fits _ 8 Hnow), (to_bytes_fits _ 8 Hsent),
    (to_bytes_fits _ 8 Hflag).
  unfold _urandom. destruct (Z.ltb_spec (packet_size self - 24) 0); [lia|].
  eexists. split; [reflexivity|].
  set (ts := Enhanced.big_endian 8 (Enhanced.int_of_float now)).
  set (sq := Enhanced.big_endian 8 (packets_sent st)).
  set (fl := Enhanced.big_endian 8 (Z.of_N (Byte.to_N (rnd 0%nat)))).
  assert (Hts : length ts = 8%nat) by apply length_big_endian.
  assert (Hsq : length sq = 8%nat) by apply length_big_endian.
  assert (Hfl : length fl = 8%nat) by apply length_big_endian.
  split; [|split; [|split; [|split]]].
  - unfold len. rewrite !length_app, Hts, Hsq, Hfl, length_draw. lia.
  - rewrite take_app_length' by exact Hts.
    apply from_bytes_big_endian, Hnow.
  - rewrite drop_app_length' by exact Hts.
    rewrite take_app_length' by exact Hsq.
    apply from_bytes_big_endian, Hsent.
  - rewrite (app_assoc ts sq), drop_app_length'
      by (rewrite length_app; lia).
    rewrite take_app_length' by exact Hfl.
    apply from_bytes_big_endian, Hflag.
  - rewrite (app_assoc ts sq), (app_assoc (ts ++ sq) fl).
    rewrite drop_app_length' by (rewrite !length_app; lia).
    reflexivity.
Qed.

Lemma enhanced_packet_fields_witness :
  exists bytes,
    Enhanced._generate_enhanced_packet (Sample.tester 30 false)
      (mkNetworkStats 1000 30000 0 0 0 [] []) (1700000000 # 1)
      (fun _ => Byte.x2a) = Enhanced.Packet bytes /\
    len bytes = 30 /\
    Enhanced.from_bytes (take 8 (drop 8 bytes)) = 1000.
Proof.
  destruct (enhanced_packet_fields (Sample.tester 30 false)
              (mkNetworkStats 1000 30000 0 0 0 [] []) (1700000000 # 1)
              (fun _ => Byte.x2a))
    as (bytes & Hgen & Hlen & _ & Hseq & _).
  - simpl. lia.
  - vm_compute. split; [discriminate | reflexivity].
  - simpl. lia.
  - exists bytes. split; [exact Hgen|]. split; [exact Hlen | exact Hseq].
Defined.

(** What makes [_generate_enhanced_packet] raise: a packet size below 24
    gives the [ValueError] of [_generate_packet], and a [packets_sent] of
    [2^64] or more an [OverflowError], whatever the size. *)
Theorem enhanced_packet_errors (self : DragonNetworkTester)
    (st : NetworkStats) (now : Q) (rnd : random_source) :
  0 <= Enhanced.int_of_float now < 2 ^ 64 ->
  (2 ^ 64 <= packets_sent st ->
     Enhanced._generate_enhanced_packet self st now rnd =
       Enhanced.RaisesOverflowError "int too big to convert") /\
  (0 <= packets_sent st < 2 ^ 64 -> packet_size self < 24 ->
     Enhanced._generate_enhanced_packet self st now rnd =
       Enhanced.RaisesValueError "negative argument not allowed").
Proof.
  intros Hnow.
  assert (Hflag : 0 <= Z.of_N (Byte.to_N (rnd 0%nat)) < 256 ^ Z.of_nat 8).
  { pose proof (Strings.Byte.to_N_bounded (rnd 0%nat)).
    change (256 ^ Z.of_nat 8) with 18446744073709551616. lia. }
  change (2 ^ 64) with (256 ^ Z.of_nat 8) in *.
  unfold Enhanced._generate_enhanced_packet.
  rewrite (to_bytes_fits _ 8 Hnow). split.
  - intros Hbig. unfold Enhanced.to_bytes at 1.
    assert (0 < 256 ^ Z.of_nat 8) by (apply Z.pow_pos_nonneg; lia).
    destruct (Z.ltb_spec (packets_sent st) 0); [lia|].
    destruct (Z.leb_spec (256 ^ Z.of_nat 8) (packets_sent st)); [reflexivity | lia].
  - intros Hsent Hsmall.
    rewrite (to_bytes_fits _ 8 Hsent), (to_bytes_fits _ 8 Hflag).
    unfold _urandom. destruct (Z.ltb_spec (packet_size self - 24) 0);
      [reflexivity | lia].
Qed.

Lemma enhanced_packet_errors_witness :
  Enhanced._generate_enhanced_packet (Sample.tester 10 false)
    (mkNetworkStats 5 0 0 0 0 [] []) (1700000000 # 1) (fun _ => Byte.x2a) =
  Enhanced.RaisesValueError "negative argument not allowed".
Proof.
  apply (enhanced_packet_errors (Sample.tester 10 false)
           (mkNetworkStats 5 0 0 0 0 [] []) (1700000000 # 1)
           (fun _ => Byte.x2a)).
  - vm_compute. split; [discriminate | reflexivity].
  - simpl. lia.
  - simpl. lia.
Defined.

(** ** The live table *)

Lemma py_max_at_least (a b : Q) : (b <= Enhanced.py_max a b)%Q.
Proof.
  unfold Enhanced.py_max.
  destruct (Qle_bool b a) eqn:Hle; simpl.
  - now apply Qle_bool_iff.
  - apply Qle_refl.
Qed.

(** Unlike the final report, the live table can always be computed: its
    packet rate divides by [max(elapsed, 1)], so neither a run that has
    just started nor one that has sent nothing makes it raise; the rate
    it shows is between 0 and the number of packets sent. *)
Theorem live_table_never_fails (now : Q) (st : NetworkStats) (cpu memory : Q) :
  0 <= packets_sent st ->
  exists rows,
    Enhanced._update_stats_display now st cpu memory = Ok rows /\
    (0 <= Enhanced.packet_rate rows <= inject_Z (packets_sent st))%Q /\
    Enhanced.live_success_rate rows = success_rate st.
Proof.
  intros Hsent. unfold Enhanced._update_stats_display, float_truediv.
  set (d := Enhanced.py_max (now - start_time st) 1).
  assert (Hd : (1 <= d)%Q) by apply py_max_at_least.
  assert (Hpos : (0 < d)%Q).
  { eapply Qlt_le_trans; [|exact Hd]. reflexivity. }
  destruct (Qeq_bool d 0) eqn:Hzero.
  { apply Qeq_bool_iff in Hzero. rewrite Hzero in Hpos.
    contradiction (Qlt_irrefl 0). }
  simpl. eexists. split; [reflexivity|]. simpl. split; [|reflexivity].
  assert (Hs : (0 <= inject_Z (packets_sent st))%Q).
  { unfold Qle, inject_Z. simpl. lia. }
  split.
  - apply Qle_shift_div_l; [exact Hpos|]. now rewrite Qmult_0_l.
  - apply Qle_shift_div_r; [exact Hpos|].
    apply Qle_minus_iff.
    assert (Heq : (inject_Z (packets_sent st) * d
                   + - inject_Z (packets_sent st) ==
                   inject_Z (packets_sent st) * (d + - (1)))%Q) by ring.
    rewrite Heq.
    apply Qmult_le_0_compat; [exact Hs|].
    now apply Qle_minus_iff in Hd.
Qed.

Lemma live_table_never_fails_witness :
  exists rows,
    Enhanced._update_stats_display 100 (__post_init__ 100) 0 0 = Ok rows /\
    (0 <= Enhanced.packet_rate rows <= inject_Z 0)%Q /\
    Enhanced.live_success_rate rows = success_rate (__post_init__ 100).
Proof.
  apply (live_table_never_fails 100 (__post_init__ 100) 0 0).
  simpl. lia.
Defined.

(** ** The monitor thread *)

(** The monitor thread never writes [network_speed]; as long as no
    reading fails and the stop signal is not seen, the snapshot holds the
    CPU, memory and connection figures of the latest reading. *)
Theorem monitor_keeps_latest (before : list Monitor.reading)
    (latest : Monitor.reading) (n : nat) (r : Monitor.SystemResources) :
  Forall (fun o => Monitor.stop_is_set o = false /\
                   Monitor.connections o <> None) (before ++ [latest]) ->
  Monitor.connections latest = Some n ->
  Monitor._monitor_system_resources (before ++ [latest]) r =
    (Monitor.Running,
     Monitor.mkSystemResources (Monitor.cpu latest) (Monitor.memory latest)
                               (Monitor.network_speed r) (Z.of_nat n)).
Proof.
  intros Hall Hn. revert r Hall.
  induction before as [|o before IH]; intros r Hall; simpl in *.
  - apply Forall_cons_1 in Hall as [[Hstop _] _]. rewrite Hstop, Hn.
    reflexivity.
  - apply Forall_cons_1 in Hall as [[Hstop Hconn] Hall]. rewrite Hstop.
    destruct (Monitor.connections o) as [k|]; [|contradiction].
    rewrite IH by exact Hall. reflexivity.
Qed.

Lemma monitor_keeps_latest_witness :
  Monitor._monitor_system_resources
    ([Monitor.mkReading false 12 40 (Some 7%nat)]
     ++ [Monitor.mkReading false 95 41 (Some 9%nat)]) Monitor.initial =
  (Monitor.Running, Monitor.mkSystemResources 95 41 0 9).
Proof.
  apply (monitor_keeps_latest [Monitor.mkReading false 12 40 (Some 7%nat)]
           (Monitor.mkReading false 95 41 (Some 9%nat)) 9 Monitor.initial).
  - repeat constructor; discriminate.
  - reflexivity.
Defined.

(** However the monitor loop ends, by the stop signal, by a failing
    [psutil] call or not at all, [network_speed] keeps its value. *)
Theorem monitor_never_measures_speed (obs : list Monitor.reading) :
  forall r : Monitor.SystemResources,
    Monitor.network_speed (snd (Monitor._monitor_system_resources obs r)) =
    Monitor.network_speed r.
Proof.
  induction obs as [|o obs IH]; intros r; simpl; [reflexivity|].
  destruct (Monitor.stop_is_set o); [reflexivity|].
  destruct (Monitor.connections o); [|reflexivity].
  rewrite IH. reflexivity.
Qed.

(** ** The statistics of a worker alone *)

Lemma generate_packet_len (self : DragonNetworkTester) (rnd : random_source)
    (packet : list Byte.byte) :
  _generate_packet self rnd = Ok packet -> len packet = packet_size self.
Proof.
  unfold _generate_packet, _urandom.
  destruct (Z.ltb_spec (packet_size self - 24) 0); [discriminate|].
  unfold mbind, result_bind, mret, result_ret.
  intros Heq.
  replace packet
    with (draw rnd 0 24 ++ draw rnd 24 (Z.to_nat (packet_size self - 24)))
    by congruence.
  unfold len. rewrite length_app, !length_draw. lia.
Qed.

Lemma stats_throttle (cpu : Q) (sh : shared) :
  stats (throttle cpu sh) = stats sh.
Proof. unfold throttle. repeat case_match; reflexivity. Qed.

(** One pass run alone: what it leaves. *)
Lemma successful_pass_alone (self : DragonNetworkTester) (sock : socket)
    (socket_id : nat) (env : iter_env) (packet : list Byte.byte)
    (r : regs) (sh : shared) :
  _generate_packet self (rnd env) = Ok packet ->
  sendto_error env = None ->
  exec_code (loop_body self sock socket_id env) r sh =
  Some (mkRegs (bytes_sent (stats sh)) None,
        throttle (cpu_percent env)
          (mkShared
             (mkNetworkStats (packets_sent (stats sh) + 1)
                             (bytes_sent (stats sh) + len packet)
                             (failed_attempts (stats sh))
                             (successful_attempts (stats sh))
                             (start_time (stats sh))
                             (response_times (stats sh)
                              ++ [(time_after env - time_before env)%Q])
                             (packet_sizes (stats sh) ++ [len packet]))
             (locks sh ++ [false])
             (events sh ++ [EvSendTo sock packet (target self) true]))).
Proof.
  intros Hgen Hsend. unfold loop_body. rewrite Hgen, Hsend.
  cbn [exec_code exec_instr]. rewrite success_block_alone. reflexivity.
Qed.

Lemma failed_pass_alone (self : DragonNetworkTester) (sock : socket)
    (socket_id : nat) (env : iter_env) (r : regs) (sh : shared) :
  is_Some (sendto_error env) \/
    (exists e, _generate_packet self (rnd env) = Raise e) ->
  exists r' sh',
    exec_code (loop_body self sock socket_id env) r sh = Some (r', sh') /\
    stats sh' = set_failed_attempts (failed_attempts (stats sh) + 1) (stats sh).
Proof.
  intros Hfail. unfold loop_body.
  destruct (_generate_packet self (rnd env)) as [packet|e].
  - destruct (sendto_error env) as [e|].
    + cbn [exec_code exec_instr]. rewrite except_handler_alone.
      eexists _, _. split; reflexivity.
    + destruct Hfail as [[e He]|[e He]]; discriminate.
  - rewrite except_handler_alone. eexists _, _. split; reflexivity.
Qed.

Lemma loop_body_consistent (self : DragonNetworkTester) (sock : socket)
    (socket_id : nat) (env : iter_env) (r r' : regs) (sh sh' : shared) :
  consistent (packet_size self) (stats sh) ->
  exec_code (loop_body self sock socket_id env) r sh = Some (r', sh') ->
  consistent (packet_size self) (stats sh').
Proof.
  intros (Hp & Hr & Hs & Hb).
  destruct (_generate_packet self (rnd env)) as [packet|e] eqn:Hgen;
    [destruct (sendto_error env) as [e|] eqn:Hsend|].
  - destruct (failed_pass_alone self sock socket_id env r sh)
      as (r1 & sh1 & -> & Hst); [left; rewrite Hsend; eauto|].
    intros [= <- <-]. rewrite Hst. repeat split; assumption.
  - rewrite (successful_pass_alone _ _ _ _ _ _ _ Hgen Hsend).
    intros [= <- <-]. rewrite stats_throttle.
    rewrite (generate_packet_len _ _ _ Hgen).
    unfold consistent, len in *. simpl. rewrite !length_app. simpl.
    repeat split; try lia.
    rewrite Nat.add_1_r, replicate_S_end, <- Hs. reflexivity.
  - destruct (failed_pass_alone self sock socket_id env r sh)
      as (r1 & sh1 & -> & Hst); [right; eauto|].
    intros [= <- <-]. rewrite Hst. repeat split; assumption.
Qed.

(** A worker that is never interleaved with another keeps its statistics
    in agreement: [packets_sent] is the number of recorded sizes and of
    recorded response times, every recorded size is the configured packet
    size, and [bytes_sent] is [packets_sent] times that size. *)
Theorem alone_statistics_agree (self : DragonNetworkTester) (socket_id : nat)
    (todo : list iter_env) (sh : shared) :
  consistent (packet_size self) (stats sh) ->
  consistent (packet_size self)
             (stats (snd (_send_packets self socket_id todo sh))).
Proof.
  intros Hc. unfold _send_packets.
  destruct (sockets self !! socket_id) as [sock|]; [|exact Hc].
  generalize fresh_regs as r. revert sh Hc.
  induction todo as [|env todo IH]; intros sh Hc r; simpl; [exact Hc|].
  destruct (stop_is_set env); [exact Hc|].
  destruct (exec_code (loop_body self sock socket_id env) r sh)
    as [[r' sh']|] eqn:Hexec; [|exact Hc].
  apply IH. exact (loop_body_consistent _ _ _ _ _ _ _ _ Hc Hexec).
Qed.

Lemma alone_statistics_agree_witness :
  let sh' := snd (_send_packets (Sample.tester 30 false) 0
                    [Sample.sending; Sample.failing; Sample.sending]
                    (mkShared (__post_init__ 0) [] [])) in
  packets_sent (stats sh') = 2 /\
  consistent 30 (stats sh').
Proof.
  intros sh'. split; [vm_compute; reflexivity|].
  apply (alone_statistics_agree (Sample.tester 30 false) 0
           [Sample.sending; Sample.failing; Sample.sending]
           (mkShared (__post_init__ 0) [] [])).
  unfold consistent. simpl. repeat split.
Defined.

(** ** The adaptive rate limiting *)

Lemma sleeps_snoc (q : Q) (st : NetworkStats) (ls : list bool)
    (evs : list wevent) (ev : wevent) :
  sleeps q (mkShared st ls (evs ++ [ev])) =
  sleeps q (mkShared st ls evs) + (if is_sleep q ev then 1 else 0).
Proof.
  unfold sleeps, len. simpl. rewrite filter_app, filter_cons, filter_nil.
  destruct (is_sleep q ev) eqn:Eev.
  - rewrite decide_True by exact Logic.I.
    rewrite length_app. simpl. lia.
  - rewrite decide_False by exact id.
    rewrite app_nil_r. lia.
Qed.

Lemma thousandth (p : Z) :
  0 <= p ->
  (p + 1) / 1000 - p / 1000 = if (p + 1) mod 1000 =? 0 then 1 else 0.
Proof.
  intros Hp. destruct (Z.eqb_spec ((p + 1) mod 1000) 0) as [Hz|Hnz].
  - pose proof (Z.div_mod (p + 1) 1000). pose proof (Z.div_mod p 1000).
    pose proof (Z.mod_pos_bound p 1000). lia.
  - pose proof (Z.div_mod (p + 1) 1000). pose proof (Z.div_mod p 1000).
    pose proof (Z.mod_pos_bound p 1000).
    pose proof (Z.mod_pos_bound (p + 1) 1000). lia.
Qed.

(** With the CPU at 90 % or below and every send accepted, a worker
    alone sleeps 1 ms exactly when [packets_sent] reaches a multiple of
    1000, and never 10 ms or 100 ms: after its passes it has slept 1 ms
    once per multiple of 1000 passed. *)
Theorem throttle_every_thousandth (self : DragonNetworkTester) (sock : socket)
    (socket_id : nat) (todo : list iter_env) (sh : shared) :
  sockets self !! socket_id = Some sock ->
  24 <= packet_size self ->
  0 <= packets_sent (stats sh) ->
  Forall (fun env => stop_is_set env = false /\ sendto_error env = None /\
                     Qle_bool (cpu_percent env) 90 = true) todo ->
  let sh' := snd (_send_packets self socket_id todo sh) in
  packets_sent (stats sh') = packets_sent (stats sh) + len todo /\
  sleeps (1 # 1000) sh' =
    sleeps (1 # 1000) sh
    + (packets_sent (stats sh') / 1000 - packets_sent (stats sh) / 1000) /\
  sleeps (1 # 100) sh' = sleeps (1 # 100) sh /\
  sleeps (1 # 10) sh' = sleeps (1 # 10) sh.
Proof.
  intros Hsock Hsize Hp Hall. unfold _send_packets. rewrite Hsock.
  generalize fresh_regs as r. revert sh Hp.
  induction todo as [|env todo IH]; intros sh Hp r; simpl.
  - unfold len. simpl. repeat split; lia.
  - apply Forall_cons_1 in Hall as [(Hstop & Hsend & Hcpu) Hall].
    rewrite Hstop.
    destruct (generate_packet_size self (rnd env) Hsize)
      as (header & payload & Hgen & _).
    rewrite (successful_pass_alone _ sock socket_id _ _ r sh Hgen Hsend).
    set (st1 := mkNetworkStats _ _ _ _ _ _ _).
    set (evs1 := events sh ++ _).
    assert (Hthrottle : exists sh1,
      throttle (cpu_percent env) (mkShared st1 (locks sh ++ [false]) evs1) = sh1 /\
      stats sh1 = st1 /\
      sleeps (1 # 1000) sh1 =
        sleeps (1 # 1000) sh
        + ((packets_sent (stats sh) + 1) / 1000 - packets_sent (stats sh) / 1000) /\
      sleeps (1 # 100) sh1 = sleeps (1 # 100) sh /\
      sleeps (1 # 10) sh1 = sleeps (1 # 10) sh).
    { eexists. split; [reflexivity|]. unfold throttle. rewrite Hcpu. simpl.
      rewrite (thousandth _ Hp).
      assert (Hsame : forall q,
        sleeps q (mkShared st1 (locks sh ++ [false]) evs1) = sleeps q sh).
      { intros q. subst evs1. rewrite sleeps_snoc. simpl.
        unfold sleeps. simpl. lia. }
      destruct (_ =? 0).
      - unfold emit. simpl. rewrite !sleeps_snoc, !Hsame. simpl.
        repeat split; lia.
      - rewrite !Hsame. repeat split; lia. }
    destruct Hthrottle as (sh1 & -> & Hst1 & H1000 & H100 & H10).
    specialize (IH Hall sh1).
    rewrite Hst1 in IH. subst st1. simpl in IH.
    specialize (IH ltac:(lia) (mkRegs (bytes_sent (stats sh)) None)).
    simpl in IH. destruct IH as (IHp & IH1000 & IH100 & IH10).
    rewrite IHp, IH1000, IH100, IH10, H1000, H100, H10. rewrite IHp.
    unfold len. simpl. repeat split; lia.
Qed.

Lemma throttle_every_thousandth_witness :
  let sh := mkShared (mkNetworkStats 999 0 0 0 0 [] []) [] [] in
  let sh' := snd (_send_packets (Sample.tester 30 false) 0
                    [Sample.sending; Sample.sending] sh) in
  packets_sent (stats sh') = 999 + 2 /\
  sleeps (1 # 1000) sh' = 0 + (1001 / 1000 - 999 / 1000).
Proof.
  intros sh sh'.
  destruct (throttle_every_thousandth (Sample.tester 30 false) 0%nat 0%nat
              [Sample.sending; Sample.sending] sh)
    as (Hp & Hs & _).
  - reflexivity.
  - simpl. lia.
  - simpl. lia.
  - repeat constructor.
  - split; [exact Hp|]. unfold sh'. rewrite Hs, Hp. reflexivity.
Defined.

(** With the CPU above 90 % the worker sleeps 10 ms after a successful
    send, whatever the packet count. *)
Theorem throttle_under_load (self : DragonNetworkTester) (sock : socket)
    (socket_id : nat) (env : iter_env) (packet : list Byte.byte)
    (r : regs) (sh : shared) :
  _generate_packet self (rnd env) = Ok packet ->
  sendto_error env = None ->
  Qle_bool (cpu_percent env) 90 = false ->
  exists r' sh',
    exec_code (loop_body self sock socket_id env) r sh = Some (r', sh') /\
    events sh' =
      events sh ++ [EvSendTo sock packet (target self) true; EvSleep (1 # 100)].
Proof.
  intros Hgen Hsend Hcpu.
  rewrite (successful_pass_alone _ _ _ _ _ _ _ Hgen Hsend).
  eexists _, _. split; [reflexivity|].
  unfold throttle. rewrite Hcpu. simpl. rewrite <- app_assoc. reflexivity.
Qed.

Lemma throttle_under_load_witness :
  exists r' sh',
    exec_code (loop_body (Sample.tester 30 false) 0%nat 0%nat
                 (mkIterEnv false Sample.zeros 0 (1 # 1000) None 95))
              fresh_regs (mkShared (__post_init__ 0) [] []) = Some (r', sh') /\
    events sh' =
      [EvSendTo 0%nat (draw Sample.zeros 0 30) ("10.0.0.1", 80) true;
       EvSleep (1 # 100)].
Proof.
  apply (throttle_under_load (Sample.tester 30 false) 0%nat 0%nat
           (mkIterEnv false Sample.zeros 0 (1 # 1000) None 95)
           (draw Sample.zeros 0 30) fresh_regs
           (mkShared (__post_init__ 0) [] [])).
  - reflexivity.
  - reflexivity.
  - reflexivity.
Defined.

(** ** Interleaved workers: what the race cannot lose *)

Lemma accepted_emit (ev : wevent) (sh : shared) :
  accepted (emit ev sh) = accepted sh + (if is_accepted ev then 1 else 0).
Proof.
  unfold accepted, emit, len. simpl. rewrite filter_app, filter_cons, filter_nil.
  destruct (is_accepted ev) eqn:Eev.
  - rewrite decide_True by exact Logic.I. rewrite length_app. simpl. lia.
  - rewrite decide_False by exact id. rewrite app_nil_r. lia.
Qed.

Lemma accepted_throttle (cpu : Q) (sh : shared) :
  accepted (throttle cpu sh) = accepted sh.
Proof.
  unfold throttle. repeat case_match; rewrite ?accepted_emit; simpl; lia.
Qed.

Lemma outstanding_insert (wt : instr -> Z) (ts : list thread) :
  forall (tid : nat) (t t' : thread),
    ts !! tid = Some t ->
    outstanding wt (<[tid:=t']> ts) =
    outstanding wt ts - total wt (t_code t) + total wt (t_code t').
Proof.
  induction ts as [|t0 ts IH]; intros tid t t' Hlook; [discriminate|].
  destruct tid as [|tid]; simpl in *.
  - injection Hlook as ->. lia.
  - rewrite (IH tid t t' Hlook). lia.
Qed.

Lemma outstanding_nothing (wt : instr -> Z) (ts : list thread) :
  Forall (fun t => t_code t = []) ts -> outstanding wt ts = 0.
Proof.
  induction 1 as [|t ts Ht _ IH]; simpl; [reflexivity|].
  rewrite Ht, IH. reflexivity.
Qed.

Lemma pool_between_passes (self : DragonNetworkTester)
    (obs : nat -> list iter_env) (st : NetworkStats) :
  Forall (fun t => t_code t = []) (threads (pool self obs st)).
Proof.
  unfold pool. simpl. apply Forall_map, Forall_forall. intros i _.
  unfold spawn. destruct (sockets self !! i); reflexivity.
Qed.

Section Conservation.

Variable self : DragonNetworkTester.
(** A weight on the actions and a measure of the shared objects that
    every action moves by its weight, the weights of a whole pass
    adding up to 0. *)
Variable wt : instr -> Z.
Variable mu : shared -> Z.
Hypothesis moves : forall i r sh r' sh',
  exec_instr i r sh = Some (r', sh') -> mu sh' = mu sh + wt i.
Hypothesis balanced : forall sock socket_id env,
  total wt (loop_body self sock socket_id env) = 0.

Lemma thread_step_conserves (t t' : thread) (sh sh' : shared) :
  thread_step self t sh = Some (t', sh') ->
  mu sh' + total wt (t_code t') = mu sh + total wt (t_code t).
Proof.
  unfold thread_step. destruct (t_status t); try discriminate.
  destruct (t_code t) as [|i code].
  - destruct (t_todo t) as [|env todo]; [discriminate|].
    destruct (stop_is_set env); intros [= <- <-]; simpl;
      rewrite ?balanced; reflexivity.
  - destruct (exec_instr i (t_regs t) sh) as [[r1 sh1]|] eqn:Ei; [|discriminate].
    intros [= <- <-]. simpl. rewrite (moves _ _ _ _ _ Ei). lia.
Qed.

Lemma run_conserves (sched : list nat) :
  forall m : machine,
    mu (mem (run self sched m)) + outstanding wt (threads (run self sched m)) =
    mu (mem m) + outstanding wt (threads m).
Proof.
  unfold run. induction sched as [|tid sched IH]; intros m; simpl; [reflexivity|].
  rewrite IH. unfold step.
  destruct (threads m !! tid) as [t|] eqn:Et; [|reflexivity].
  destruct (thread_step self t (mem m)) as [[t' sh']|] eqn:Estep; [|reflexivity].
  simpl. rewrite (outstanding_insert wt _ _ _ t' Et).
  pose proof (thread_step_conserves _ _ _ _ Estep). lia.
Qed.

End Conservation.

Lemma size_weight_moves (i : instr) (r r' : regs) (sh sh' : shared) :
  exec_instr i r sh = Some (r', sh') ->
  len (packet_sizes (stats sh')) - accepted sh' =
  len (packet_sizes (stats sh)) - accepted sh + size_weight i.
Proof.
  destruct i; simpl; try (intros [= <- <-]; simpl; unfold accepted; simpl; lia).
  - intros [= <- <-]. rewrite accepted_emit. simpl.
    destruct accepted0; simpl; lia.
  - repeat case_match; try discriminate.
    intros [= <- <-]; unfold accepted; simpl; lia.
  - repeat case_match; try discriminate.
    intros [= <- <-]; unfold accepted; simpl; lia.
  - intros [= <- <-]. unfold accepted, len. simpl. rewrite length_app. simpl. lia.
  - intros [= <- <-]. rewrite accepted_throttle, stats_throttle. lia.
  - intros [= <- <-]. rewrite accepted_emit. simpl. lia.
  - intros [= <- <-]. rewrite accepted_emit. simpl. lia.
Qed.

Lemma time_weight_moves (i : instr) (r r' : regs) (sh sh' : shared) :
  exec_instr i r sh = Some (r', sh') ->
  len (response_times (stats sh')) - accepted sh' =
  len (response_times (stats sh)) - accepted sh + time_weight i.
Proof.
  destruct i; simpl; try (intros [= <- <-]; simpl; unfold accepted; simpl; lia).
  - intros [= <- <-]. rewrite accepted_emit. simpl.
    destruct accepted0; simpl; lia.
  - repeat case_match; try discriminate.
    intros [= <- <-]; unfold accepted; simpl; lia.
  - repeat case_match; try discriminate.
    intros [= <- <-]; unfold accepted; simpl; lia.
  - intros [= <- <-]. unfold accepted, len. simpl. rewrite length_app. simpl. lia.
  - intros [= <- <-]. rewrite accepted_throttle, stats_throttle. lia.
  - intros [= <- <-]. rewrite accepted_emit. simpl. lia.
  - intros [= <- <-]. rewrite accepted_emit. simpl. lia.
Qed.

Lemma loop_body_balanced (self : DragonNetworkTester) (sock : socket)
    (socket_id : nat) (env : iter_env) :
  total size_weight (loop_body self sock socket_id env) = 0 /\
  total time_weight (loop_body self sock socket_id env) = 0 /\
  total store_weight (loop_body self sock socket_id env) = 0.
Proof.
  unfold loop_body, except_handler, success_block.
  destruct (_generate_packet self (rnd env)) as [packet|e];
    [destruct (sendto_error env) as [e|]|];
    try destruct (verbose self); simpl; auto.
Qed.

(** The samples are never lost, whatever the interleaving: whenever all
    workers are between two passes, [packet_sizes] and [response_times]
    hold one entry for each datagram that [sendto] accepted. *)
Theorem samples_never_lost (self : DragonNetworkTester)
    (obs : nat -> list iter_env) (sched : list nat) (now : Q) :
  let m := run self sched (pool self obs (__post_init__ now)) in
  Forall (fun t => t_code t = []) (threads m) ->
  len (packet_sizes (stats (mem m))) = accepted (mem m) /\
  len (response_times (stats (mem m))) = accepted (mem m).
Proof.
  intros m Hidle.
  pose proof (run_conserves self size_weight
                (fun sh => len (packet_sizes (stats sh)) - accepted sh)
                (fun i r sh r' sh' => size_weight_moves i r r' sh sh')
                (fun sock i env => proj1 (loop_body_balanced self sock i env))
                sched (pool self obs (__post_init__ now))) as Hsize.
  pose proof (run_conserves self time_weight
                (fun sh => len (response_times (stats sh)) - accepted sh)
                (fun i r sh r' sh' => time_weight_moves i r r' sh sh')
                (fun sock i env =>
                   proj1 (proj2 (loop_body_balanced self sock i env)))
                sched (pool self obs (__post_init__ now))) as Htime.
  fold m in Hsize, Htime.
  rewrite (outstanding_nothing size_weight _ Hidle) in Hsize.
  rewrite (outstanding_nothing time_weight _ Hidle) in Htime.
  rewrite (outstanding_nothing size_weight _ (pool_between_passes self obs (__post_init__ now)))
    in Hsize.
  rewrite (outstanding_nothing time_weight _ (pool_between_passes self obs (__post_init__ now)))
    in Htime.
  simpl in Hsize, Htime. unfold accepted at 2 in Hsize.
  unfold accepted at 2 in Htime. simpl in Hsize, Htime.
  unfold len in *. simpl in *. lia.
Qed.

Lemma samples_never_lost_witness :
  let m := run (Sample.tester 30 false) Sample.racy_sending
               (pool (Sample.tester 30 false) (fun _ => [Sample.sending])
                     (__post_init__ 0)) in
  packets_sent (stats (mem m)) = 1 /\
  len (packet_sizes (stats (mem m))) = accepted (mem m) /\
  len (response_times (stats (mem m))) = accepted (mem m).
Proof.
  intros m. split; [vm_compute; reflexivity|].
  apply (samples_never_lost (Sample.tester 30 false)
           (fun _ => [Sample.sending]) Sample.racy_sending 0).
  vm_compute. repeat constructor.
Defined.

(** *** The counter never runs ahead of the socket *)

Lemma exec_other (i : instr) (r r' : regs) (sh sh' : shared) :
  i <> StorePacketsSent ->
  exec_instr i r sh = Some (r', sh') ->
  packets_sent (stats sh') = packets_sent (stats sh) /\
  accepted sh' + store_weight i = accepted sh /\
  (i = LoadPacketsSent -> loaded r' = packets_sent (stats sh)).
Proof.
  intros Hi.
  destruct i; simpl; try congruence;
    try (intros [= <- <-]; simpl; unfold accepted; simpl;
         repeat split; (lia || discriminate || reflexivity)).
  - intros [= <- <-]. rewrite accepted_emit. simpl.
    repeat split; try discriminate. destruct accepted0; simpl; lia.
  - repeat case_match; try discriminate.
    intros [= <- <-]; unfold accepted; simpl.
    repeat split; (lia || discriminate).
  - repeat case_match; try discriminate.
    intros [= <- <-]; unfold accepted; simpl.
    repeat split; (lia || discriminate).
  - intros [= <- <-]. rewrite accepted_throttle, stats_throttle.
    repeat split; (lia || discriminate).
  - intros [= <- <-]. rewrite accepted_emit. simpl.
    repeat split; (lia || discriminate).
  - intros [= <- <-]. rewrite accepted_emit. simpl.
    repeat split; (lia || discriminate).
Qed.

Lemma store_guarded_total (code : list instr) :
  store_guarded code -> 0 <= total store_weight code.
Proof. destruct code; simpl; [lia | tauto]. Qed.

Lemma loop_body_guarded (self : DragonNetworkTester) (sock : socket)
    (socket_id : nat) (env : iter_env) :
  store_guarded (loop_body self sock socket_id env) /\
  forall rest, loop_body self sock socket_id env <> StorePacketsSent :: rest.
Proof.
  unfold loop_body, except_handler, success_block.
  destruct (_generate_packet self (rnd env)) as [packet|e];
    [destruct (sendto_error env) as [e|]|];
    try destruct (verbose self); simpl;
    (split; [repeat split; (lia || reflexivity) | discriminate]).
Qed.

Lemma store_bounded_mono (b b' : Z) (t : thread) :
  b <= b' -> store_bounded b t -> store_bounded b' t.
Proof.
  unfold store_bounded. intros Hb.
  destruct (t_code t) as [|[] ?]; auto. lia.
Qed.

(** One step of a thread: the bound on [packets_sent] moves with the
    accepted datagrams whose store is not outstanding any more. *)
Lemma thread_step_bounded (self : DragonNetworkTester) (t t' : thread)
    (sh sh' : shared) (b : Z) :
  thread_step self t sh = Some (t', sh') ->
  store_guarded (t_code t) -> store_bounded b t ->
  packets_sent (stats sh) <= b ->
  let b' := b + (accepted sh' - total store_weight (t_code t'))
              - (accepted sh - total store_weight (t_code t)) in
  b <= b' /\ store_guarded (t_code t') /\ store_bounded b' t' /\
  packets_sent (stats sh') <= b'.
Proof.
  unfold thread_step, store_bounded.
  destruct (t_status t); try discriminate.
  destruct (t_code t) as [|i code'] eqn:Ecode.
  - destruct (t_todo t) as [|env todo']; try discriminate.
    destruct (stop_is_set env); intros [= <- <-] _ _ Hb; simpl.
    + repeat split; auto; lia.
    + destruct (loop_body_balanced self (t_sock t) (t_socket_id t) env)
        as (_ & _ & Hzero).
      destruct (loop_body_guarded self (t_sock t) (t_socket_id t) env)
        as [Hguard Hhead].
      rewrite Hzero. repeat split; auto; try lia.
      destruct (loop_body self (t_sock t) (t_socket_id t) env)
        as [|[] rest] eqn:Ebody; auto.
      exfalso. exact (Hhead rest eq_refl).
  - destruct (exec_instr i (t_regs t) sh) as [[r' sh'']|] eqn:Ex;
      try discriminate.
    intros [= <- <-] Hguard Hbound Hb. simpl t_code. simpl t_regs.
    destruct Hguard as (_ & Hnext & Hguard).
    change (total store_weight (i :: code'))
      with (store_weight i + total store_weight code').
    assert (Hcase : i = LoadPacketsSent \/ i = StorePacketsSent \/
                    ~ (i = LoadPacketsSent \/ i = StorePacketsSent))
      by (destruct i; auto; right; right; intros [?|?]; discriminate).
    destruct Hcase as [->|[->|Hi]].
    + simpl in Ex. injection Ex as <- <-. simpl.
      unfold accepted. repeat split; auto; try lia.
      destruct code' as [|[] ?]; auto. simpl. lia.
    + simpl in Ex. injection Ex as <- <-. simpl.
      unfold accepted. simpl. repeat split; auto; try lia.
      destruct code' as [|[] ?]; auto. discriminate Hnext.
    + destruct (exec_other i _ _ _ _ (fun H => Hi (or_intror H)) Ex)
        as (Hsent & Hacc & _).
      rewrite Hsent. repeat split; auto; try lia.
      destruct code' as [|[] ?]; auto.
      exfalso. apply Hi. left. exact Hnext.
Qed.

Lemma outstanding_guarded (ts : list thread) :
  Forall (fun t => store_guarded (t_code t)) ts ->
  0 <= outstanding store_weight ts.
Proof.
  induction 1 as [|t ts Ht _ IH]; simpl; [lia|].
  pose proof (store_guarded_total _ Ht). lia.
Qed.

Lemma step_bounded (self : DragonNetworkTester) (tid : nat) (m : machine) :
  Forall (fun t => store_guarded (t_code t)) (threads m) ->
  Forall (store_bounded
            (accepted (mem m) - outstanding store_weight (threads m)))
         (threads m) ->
  packets_sent (stats (mem m)) <=
    accepted (mem m) - outstanding store_weight (threads m) ->
  Forall (fun t => store_guarded (t_code t)) (threads (step self tid m)) /\
  Forall (store_bounded
            (accepted (mem (step self tid m)) -
             outstanding store_weight (threads (step self tid m))))
         (threads (step self tid m)) /\
  packets_sent (stats (mem (step self tid m))) <=
    accepted (mem (step self tid m)) -
    outstanding store_weight (threads (step self tid m)).
Proof.
  intros Hguard Hbound Hsent. unfold step.
  destruct (threads m !! tid) as [t|] eqn:Ht; [|auto].
  destruct (thread_step self t (mem m)) as [[t' sh']|] eqn:Hstep; [|auto].
  simpl.
  destruct (thread_step_bounded self t t' (mem m) sh' _ Hstep
              (Forall_lookup_1 _ _ _ _ Hguard Ht)
              (Forall_lookup_1 _ _ _ _ Hbound Ht) Hsent)
    as (Hle & Hguard' & Hbound' & Hsent').
  rewrite (outstanding_insert store_weight _ _ _ t' Ht).
  replace (accepted sh' -
           (outstanding store_weight (threads m) -
            total store_weight (t_code t) + total store_weight (t_code t')))
    with (accepted (mem m) - outstanding store_weight (threads m) +
          (accepted sh' - total store_weight (t_code t')) -
          (accepted (mem m) - total store_weight (t_code t))) by lia.
  split; [|split]; auto.
  - apply Forall_insert; auto.
  - apply Forall_insert; auto.
    eapply Forall_impl; [exact Hbound|].
    intros t0. apply store_bounded_mono. exact Hle.
Qed.

Lemma run_bounded (self : DragonNetworkTester) (sched : list nat) :
  forall m,
  Forall (fun t => store_guarded (t_code t)) (threads m) ->
  Forall (store_bounded
            (accepted (mem m) - outstanding store_weight (threads m)))
         (threads m) ->
  packets_sent (stats (mem m)) <=
    accepted (mem m) - outstanding store_weight (threads m) ->
  packets_sent (stats (mem (run self sched m))) <=
    accepted (mem (run self sched m)).
Proof.
  unfold run. induction sched as [|tid sched IH]; intros m Hg Hb Hs; simpl.
  - pose proof (outstanding_guarded _ Hg). lia.
  - destruct (step_bounded self tid m Hg Hb Hs) as (Hg' & Hb' & Hs').
    apply IH; assumption.
Qed.

(** Whatever the interleaving of the workers, [packets_sent] never
    exceeds the number of datagrams [sendto] has accepted: the updates
    that race may lose counts but never add any. *)
Theorem never_counts_unsent (self : DragonNetworkTester)
    (obs : nat -> list iter_env) (sched : list nat) (now : Q) :
  packets_sent (stats (mem (run self sched
                              (pool self obs (__post_init__ now))))) <=
  accepted (mem (run self sched (pool self obs (__post_init__ now)))).
Proof.
  pose proof (pool_between_passes self obs (__post_init__ now)) as Hidle.
  apply run_bounded.
  - eapply Forall_impl; [exact Hidle|].
    intros t Ht. simpl in Ht. rewrite Ht. exact Logic.I.
  - eapply Forall_impl; [exact Hidle|].
    intros t Ht. simpl in Ht. unfold store_bounded. rewrite Ht. exact Logic.I.
  - rewrite (outstanding_nothing store_weight _ Hidle).
    unfold accepted. simpl. reflexivity.
Qed.

(** *** No worker ever waits for a lock *)

Lemma locks_throttle (cpu : Q) (sh : shared) :
  locks (throttle cpu sh) = locks sh.
Proof. unfold throttle. repeat case_match; reflexivity. Qed.

Lemma loop_body_with_shaped (self : DragonNetworkTester) (sock : socket)
    (socket_id : nat) (env : iter_env) :
  with_shaped Outside (loop_body self sock socket_id env) = true.
Proof.
  unfold loop_body, except_handler, success_block.
  destruct (_generate_packet self (rnd env)) as [packet|e];
    [destruct (sendto_error env) as [e|]|];
    try destruct (verbose self); reflexivity.
Qed.

(** What one step of a thread does to the locks: the thread is again at
    a place that fits its lock, a lock it comes to refer to is new, and
    the locks of the others are left alone. *)
Lemma thread_step_locks (self : DragonNetworkTester) (t t' : thread)
    (sh sh' : shared) :
  thread_step self t sh = Some (t', sh') ->
  in_with sh t ->
  (forall l, lock (t_regs t) = Some l -> (l < length (locks sh))%nat) ->
  in_with sh' t' /\
  (length (locks sh) <= length (locks sh'))%nat /\
  (forall l, lock (t_regs t') = Some l ->
     (l < length (locks sh'))%nat /\
     (lock (t_regs t) = Some l \/ l = length (locks sh))) /\
  (forall l, (l < length (locks sh))%nat -> lock (t_regs t) <> Some l ->
     locks sh' !! l = locks sh !! l).
Proof.
  unfold thread_step, in_with.
  destruct (t_status t); try discriminate.
  destruct (t_code t) as [|i code'] eqn:Ecode.
  - destruct (t_todo t) as [|env todo']; try discriminate.
    destruct (stop_is_set env); intros [= <- <-] (s & Hs & Hl) Hlt; simpl;
      (destruct s; try discriminate);
      (split; [exists Outside; split;
                 [reflexivity || apply loop_body_with_shaped | exact Hl]|]);
      (split; [lia|]); (split; [|reflexivity]);
      intros l Hl'; (split; [apply Hlt; exact Hl' | left; exact Hl']).
  - destruct (exec_instr i (t_regs t) sh) as [[r' sh'']|] eqn:Ex;
      try discriminate.
    intros [= <- <-] (s & Hs & Hl) Hlt. simpl t_code. simpl t_regs.
    destruct i; simpl in Ex, Hs;
      try (injection Ex as <- <-; simpl;
           try rewrite locks_throttle;
           (split; [exists s; split; [exact Hs|];
                    destruct s; simpl; try rewrite locks_throttle; exact Hl|]);
           (split; [lia|]); (split; [|reflexivity]);
           intros l Hl'; (split; [apply Hlt; exact Hl' | left; exact Hl'])).
    + (* NewLock *)
      destruct s; try discriminate.
      injection Ex as <- <-. simpl. rewrite length_app. simpl.
      split; [|split; [lia|split]].
      * exists Created. split; [exact Hs|].
        exists (length (locks sh)). split; [reflexivity|].
        rewrite lookup_app_r by lia. rewrite Nat.sub_diag. reflexivity.
      * intros l [= <-]. split; [lia|right; reflexivity].
      * intros l Hlen _. apply lookup_app_l. exact Hlen.
    + (* Acquire *)
      destruct s; try discriminate.
      destruct Hl as (l & Hl & Hfree). rewrite Hl, Hfree in Ex.
      injection Ex as <- <-. simpl. rewrite length_insert.
      split; [|split; [lia|split]].
      * exists Held. split; [exact Hs|]. exists l. exact Hl.
      * intros l' Hl'. split; [apply Hlt; exact Hl' | left; exact Hl'].
      * intros l' _ Hne. apply list_lookup_insert_ne. congruence.
    + (* Release *)
      destruct s; try discriminate.
      destruct Hl as (l & Hl). rewrite Hl in Ex.
      injection Ex as <- <-. simpl. rewrite length_insert.
      split; [|split; [lia|split]].
      * exists Outside. split; [exact Hs|]. reflexivity.
      * intros l' [=].
      * intros l' _ Hne. apply list_lookup_insert_ne. congruence.
Qed.

Lemma step_own_locks (self : DragonNetworkTester) (tid : nat) (m : machine) :
  own_locks m -> own_locks (step self tid m).
Proof.
  intros (Hin & Hlt & Hown). unfold step.
  destruct (threads m !! tid) as [t|] eqn:Ht; [|repeat split; auto].
  destruct (thread_step self t (mem m)) as [[t' sh']|] eqn:Hstep;
    [|repeat split; auto].
  destruct (thread_step_locks self t t' (mem m) sh' Hstep (Hin _ _ Ht)
              (fun l => Hlt _ _ l Ht))
    as (Hin' & Hlen & Hnew & Hothers).
  unfold own_locks. simpl. split; [|split].
  - intros tid0 t0 [(<- & <- & _)|(Hne & Ht0)]%list_lookup_insert_Some;
      [exact Hin'|].
    destruct (Hin _ _ Ht0) as (s & Hs & Hl). exists s. split; [exact Hs|].
    destruct s; auto.
    destruct Hl as (l & Hl & Hfree). exists l. split; [exact Hl|].
    rewrite Hothers; [exact Hfree|exact (Hlt _ _ _ Ht0 Hl)|].
    intros Hl'. apply Hne. exact (Hown _ _ _ _ _ Ht Ht0 Hl' Hl).
  - intros tid0 t0 l [(<- & <- & _)|(Hne & Ht0)]%list_lookup_insert_Some Hl.
    + exact (proj1 (Hnew l Hl)).
    + pose proof (Hlt _ _ _ Ht0 Hl). lia.
  - intros tid1 tid2 t1 t2 l
      [(<- & <- & _)|(Hne1 & Ht1)]%list_lookup_insert_Some
      [(<- & <- & _)|(Hne2 & Ht2)]%list_lookup_insert_Some Hl1 Hl2.
    + reflexivity.
    + destruct (Hnew l Hl1) as [_ [Hold| ->]].
      * exfalso. apply Hne2. exact (Hown _ _ _ _ _ Ht Ht2 Hold Hl2).
      * pose proof (Hlt _ _ _ Ht2 Hl2). lia.
    + destruct (Hnew l Hl2) as [_ [Hold| ->]].
      * exfalso. apply Hne1. exact (Hown _ _ _ _ _ Ht Ht1 Hold Hl1).
      * pose proof (Hlt _ _ _ Ht1 Hl1). lia.
    + exact (Hown _ _ _ _ _ Ht1 Ht2 Hl1 Hl2).
Qed.

Lemma run_own_locks (self : DragonNetworkTester) (sched : list nat) :
  forall m, own_locks m -> own_locks (run self sched m).
Proof.
  unfold run. induction sched as [|tid sched IH]; intros m Hm; simpl.
  - exact Hm.
  - apply IH. apply step_own_locks. exact Hm.
Qed.

Lemma pool_own_locks (self : DragonNetworkTester)
    (obs : nat -> list iter_env) (st : NetworkStats) :
  own_locks (pool self obs st).
Proof.
  assert (Hfresh : forall tid t, threads (pool self obs st) !! tid = Some t ->
                     t_code t = [] /\ lock (t_regs t) = None).
  { unfold pool. simpl. intros tid t Ht.
    apply list_lookup_fmap_Some in Ht as (i & -> & _).
    unfold spawn. destruct (sockets self !! i); simpl; auto. }
  split; [|split].
  - intros tid t Ht. destruct (Hfresh _ _ Ht) as [Hcode Hlock].
    exists Outside. rewrite Hcode. auto.
  - intros tid t l Ht Hl. destruct (Hfresh _ _ Ht) as [_ Hlock]. congruence.
  - intros tid1 tid2 t1 t2 l Ht1 _ Hl.
    destruct (Hfresh _ _ Ht1) as [_ Hlock]. congruence.
Qed.

Lemma in_with_moves (self : DragonNetworkTester) (t : thread) (sh : shared) :
  in_with sh t -> t_status t = Running -> idle t = false ->
  is_Some (thread_step self t sh).
Proof.
  intros (s & Hs & Hl) Hrun Hidle. unfold thread_step, idle in *.
  rewrite Hrun.
  destruct (t_code t) as [|i code'].
  - destruct (t_todo t) as [|env todo']; [discriminate|].
    destruct (stop_is_set env); eexists; reflexivity.
  - destruct i; simpl in *; try (eexists; reflexivity).
    + destruct s; try discriminate.
      destruct Hl as (l & -> & ->). eexists; reflexivity.
    + destruct s; try discriminate.
      destruct Hl as (l & ->). eexists; reflexivity.
Qed.

(** No worker is ever made to wait: under every interleaving, a running
    worker that has a pass to finish or to make can take its next step.
    The lock it acquires is the one it has just constructed itself, which
    no other thread refers to. *)
Theorem workers_never_wait (self : DragonNetworkTester)
    (obs : nat -> list iter_env) (sched : list nat) (now : Q)
    (tid : nat) (t : thread) :
  let m := run self sched (pool self obs (__post_init__ now)) in
  threads m !! tid = Some t ->
  t_status t = Running -> idle t = false ->
  is_Some (thread_step self t (mem m)).
Proof.
  intros m Ht Hrun Hidle.
  destruct (run_own_locks self sched _
              (pool_own_locks self obs (__post_init__ now)))
    as (Hin & _).
  apply in_with_moves; auto. exact (Hin tid t Ht).
Qed.

Lemma workers_never_wait_witness :
  let self := Sample.tester 30 false in
  let sched := (replicate 5 0 ++ replicate 3 1)%nat in
  let m := run self sched
               (pool self (fun _ => [Sample.sending]) (__post_init__ 0)) in
  locks (mem m) = [true; false] /\
  exists t, threads m !! 1%nat = Some t /\
            head (t_code t) = Some Acquire /\
            is_Some (thread_step self t (mem m)).
Proof.
  intros self sched m. split; [vm_compute; reflexivity|].
  eexists. split; [vm_compute; reflexivity|].
  split; [vm_compute; reflexivity|].
  apply (workers_never_wait self (fun _ => [Sample.sending]) sched 0 1%nat);
    vm_compute; reflexivity.
Defined.

(** *** The success rate stays a percentage *)

Lemma success_rate_bounds (s : NetworkStats) :
  counters_nonnegative s -> (0 <= success_rate s <= 100)%Q.
Proof.
  intros (Hs & _ & Hf). unfold success_rate. cbv zeta.
  destruct (Z.gtb_spec (packets_sent s + failed_attempts s) 0) as [Hpos|_];
    [|split; [apply Qle_refl | discriminate]].
  remember (packets_sent s + failed_attempts s) as n eqn:En.
  destruct n as [|p|p]; try lia.
  unfold Qle, Qdiv, Qmult, Qinv, inject_Z. simpl. split; nia.
Qed.

(** Whatever the interleaving of the workers, [success_rate] is a
    percentage: between 0 and 100.  The percentage of the final report,
    computed differently, is not. *)
Theorem success_rate_in_range (self : DragonNetworkTester)
    (obs : nat -> list iter_env) (sched : list nat) (now : Q) :
  (0 <= success_rate
          (stats (mem (run self sched (pool self obs (__post_init__ now)))))
     <= 100)%Q.
Proof.
  apply success_rate_bounds. apply counters_stay_nonnegative.
Qed.
